(** * FemGmshTools: the GMSH driver of the FEM workbench

    A shallow embedding of [src/Mod/Fem/FemGmshTools.py] and the properties
    of its pipeline: parameter resolution, reference extraction, emission of
    the [.geo] script, the run of the external mesher and the read back of
    the mesh.

    Conventions of the embedding.
    - Python floats are idealised as exact rationals ([Q]); rounding is not
      modelled.  [str] of a float is a function of the host.
    - A Python [dict] is a [gmap]; iterating over it walks [map_to_list].
      The [dict] of one boundary layer setting, whose keys are fixed, is a
      record, written out key by key in the order the keys are set.
    - The mutable instance ([self]), the mesh document object it refers to
      and everything the run prints, writes or spawns live in one state
      record that is threaded through the methods; a method is a function
      from the state to a result (a value or a raised exception) and the
      state it leaves behind.
    - Functions of FreeCAD, of [FemMeshTools] and of the operating system
      are fields of the record [Host]. *)

From Stdlib Require Import QArith Qpower ZArith String Ascii List Lia Lqa DecimalString.
From stdpp Require Import gmap strings list fin_maps.
Import ListNotations.

Open Scope string_scope.
Open Scope list_scope.

(** ** Strings *)

Definition LF : string := String (ascii_of_nat 10) EmptyString.
Definition DQ : string := String (ascii_of_nat 34) EmptyString.
Definition BACKSLASH : string := String (ascii_of_nat 92) EmptyString.

(** [s.startswith(p)] *)
Definition startswith (p s : string) : bool := String.prefix p s.

(** [c in chars] for a character and a string used as a set of characters *)
Fixpoint char_in (c : ascii) (chars : string) : bool :=
  match chars with
  | EmptyString => false
  | String d rest => if Ascii.eqb c d then true else char_in c rest
  end.

(** [s.lstrip(chars)]: drops the leading characters that are in [chars] *)
Fixpoint lstrip (chars s : string) : string :=
  match s with
  | EmptyString => EmptyString
  | String c rest => if char_in c chars then lstrip chars rest else s
  end.

Fixpoint string_rev_onto (acc s : string) : string :=
  match s with
  | EmptyString => acc
  | String c rest => string_rev_onto (String c acc) rest
  end.

Definition string_rev (s : string) : string := string_rev_onto EmptyString s.

(** [s.rstrip(chars)] *)
Definition rstrip (chars s : string) : string :=
  string_rev (lstrip chars (string_rev s)).

(** [s[n:]] *)
Fixpoint slice_from (n : nat) (s : string) : string :=
  match n, s with
  | O, _ => s
  | S n', String _ rest => slice_from n' rest
  | S _, EmptyString => EmptyString
  end.

(** [s.split('\n')[0]] *)
Fixpoint first_line (s : string) : string :=
  match s with
  | EmptyString => EmptyString
  | String c rest =>
      if Ascii.eqb c (ascii_of_nat 10) then EmptyString
      else String c (first_line rest)
  end.

(** [''.join(parts)] *)
Definition join (parts : list string) : string :=
  fold_right String.append EmptyString parts.

(** [str(n)] for an integer *)
Definition str_int (n : Z) : string := NilZero.string_of_int (Z.to_int n).

(** ** Numbers *)

Definition Qlt_bool (x y : Q) : bool := negb (Qle_bool y x).

(** [range(n)] *)
Definition range (n : Z) : list Z := map Z.of_nat (seq 0 (Z.to_nat n)).

(** [sum(xs)]: the fold of [+] from the left, starting at 0 *)
Definition sum (xs : list Q) : Q := fold_left Qplus xs 0%Q.

(** ** The document objects *)

Record Shape := {
  ShapeType : string;
  TShape : nat                      (* identity of the underlying geometry *)
}.

Record DocumentObject := {
  Name : string;
  Label : string;
  Shape_ : Shape;
  Proxy : option string             (* [Proxy.Type], when there is a Proxy *)
}.

(** [sub] of a reference list: [(sub[0], sub[1])] *)
Definition reference : Type := DocumentObject * list string.

Record MeshRegion := {
  mr_Name : string;
  CharacteristicLength : Q;
  mr_References : list reference
}.

Record MeshBoundaryLayer := {
  bl_Name : string;
  MinimumThickness : Q;
  GrowthRate : Q;
  NumberOfLayers : Z;
  bl_References : list reference
}.

(** Mesh group and analysis objects are only handed to [FemMeshTools]. *)
Definition MeshGroup : Type := nat.
Definition Analysis : Type := nat.

(** The content of a [Fem.FemMesh], opaque to this module. *)
Definition FemMeshData : Type := nat.

Record MeshObject := {
  Part : DocumentObject;
  CharacteristicLengthMax : Q;
  CharacteristicLengthMin : Q;
  GeometryTolerance : Q;
  ElementOrder : string;
  ElementDimension : string;
  Algorithm2D : string;
  Algorithm3D : string;             (* a property of the object; never read here *)
  OutputFormat : string;
  MeshGroupList : list MeshGroup;
  MeshRegionList : list MeshRegion;
  MeshBoundaryLayerList : list MeshBoundaryLayer;
  RecombineAll : option bool;       (* [None]: the object has no such attribute *)
  OptimizeStd : option bool;
  OptimizeNetgen : option bool;
  HighOrderOptimize : option bool;
  CoherenceMesh : option bool;
  FemMesh : FemMeshData
}.

Definition set_OutputFormat (v : string) (m : MeshObject) : MeshObject :=
  Build_MeshObject (Part m) (CharacteristicLengthMax m) (CharacteristicLengthMin m)
    (GeometryTolerance m) (ElementOrder m) (ElementDimension m) (Algorithm2D m)
    (Algorithm3D m) v (MeshGroupList m) (MeshRegionList m)
    (MeshBoundaryLayerList m) (RecombineAll m) (OptimizeStd m) (OptimizeNetgen m)
    (HighOrderOptimize m) (CoherenceMesh m) (FemMesh m).

Definition set_FemMesh (v : FemMeshData) (m : MeshObject) : MeshObject :=
  Build_MeshObject (Part m) (CharacteristicLengthMax m) (CharacteristicLengthMin m)
    (GeometryTolerance m) (ElementOrder m) (ElementDimension m) (Algorithm2D m)
    (Algorithm3D m) (OutputFormat m) (MeshGroupList m) (MeshRegionList m)
    (MeshBoundaryLayerList m) (RecombineAll m) (OptimizeStd m) (OptimizeNetgen m)
    (HighOrderOptimize m) (CoherenceMesh m) v.

Definition set_Algorithm3D (v : string) (m : MeshObject) : MeshObject :=
  Build_MeshObject (Part m) (CharacteristicLengthMax m) (CharacteristicLengthMin m)
    (GeometryTolerance m) (ElementOrder m) (ElementDimension m) (Algorithm2D m)
    v (OutputFormat m) (MeshGroupList m) (MeshRegionList m)
    (MeshBoundaryLayerList m) (RecombineAll m) (OptimizeStd m) (OptimizeNetgen m)
    (HighOrderOptimize m) (CoherenceMesh m) (FemMesh m).

(** ** The host: FreeCAD, FemMeshTools, the operating system *)

Record Host := {
  system : string;                                  (* [platform.system()] *)
  gettempdir : string;                              (* [tempfile.gettempdir()] *)
  getHomePath : string;                             (* [FreeCAD.getHomePath()] *)
  UseStandardGmshLocation : bool;                   (* preference, [GetBool] *)
  gmshBinaryPath : string;                          (* preference, [GetString] *)
  UserSchema : Z;                                   (* preference, [GetInt] *)
  (* [Popen(['which', 'gmsh'])]: exit status and standard output *)
  which_gmsh : Z * string;
  (* [shape.isSame(other)] *)
  isSame : Shape -> Shape -> bool;
  (* [find_element_in_shape(shape, get_element(obj, elems))]; [None] when
     the answer is falsy *)
  find_element : Shape -> DocumentObject -> string -> option string;
  (* [get_vertexes_by_element(shape, get_element(part, elem))] *)
  get_vertexes_by_element : DocumentObject -> string -> list Z;
  get_mesh_group_elements : MeshGroup -> DocumentObject -> gmap string (list string);
  get_analysis_group_elements : Analysis -> DocumentObject -> gmap string (list string);
  (* [shape.exportBrep(path)] succeeds *)
  exportBrep : Shape -> string -> bool;
  (* [open(path, "w")] succeeds *)
  open_for_writing : string -> bool;
  (* [Popen(cmd).communicate()]: [None] when the process cannot be started,
     else its exit status, standard output and standard error *)
  run_process : list string -> option (Z * string * string);
  (* [Fem.read(path)]: [None] when the file cannot be read *)
  Fem_read : string -> option FemMeshData;
  (* [shutil.move(src, dst)] succeeds *)
  shutil_move : string -> string -> bool;
  (* [str(x)] for a float *)
  str_float : Q -> string
}.

(** ** Effects and exceptions *)

Inductive event :=
| Print (s : string)                       (* [print(s)] *)
| PrintValue (what : string)               (* [print] of a formatted container *)
| PrintError (s : string)                  (* [FreeCAD.Console.PrintError] *)
| PrintLog (s : string)                    (* [FreeCAD.Console.PrintLog] *)
| SetString (key value : string)           (* a preference is stored *)
| ExportBrep (path : string)
| OpenGeo (path : string)                  (* the script file is created *)
| CloseGeo (path : string) (text : list string)   (* and written: one string per [write] *)
| Spawn (cmd : list string)                (* [subprocess.Popen(cmd)] *)
| FemRead (path : string)
| Move (src dst : string).

#[global] Instance event_eq_dec : EqDecision event.
Proof. solve_decision. Defined.

Inductive exn :=
| AttributeError (attr : string)
| KeyError (key : string)
| IndexError
| UnboundLocalError (var : string)
| Exception (msg : string)
| IOError (path : string)
| HostError (what : string).              (* raised inside a host function *)

Inductive result (A : Type) :=
| Ok (a : A)
| Raise (e : exn).
Arguments Ok {A} a.
Arguments Raise {A} e.

(** One [BoundaryLayer] setting: the [dict] built per boundary layer object,
    its keys in the order they are set. *)
Record setting := {
  hwall_n : Q;
  ratio : Q;
  thickness : Q;
  hwall_t : Q;
  hfar : Q;
  EdgesList : option (list string);
  FacesList : option (list string)
}.

(** The instance, the mesh object it holds and the trace of the run. *)
Record FemGmshTools := {
  mesh_obj : MeshObject;
  analysis : option Analysis;
  part_obj : DocumentObject;
  clmax : Q;
  clmin : Q;
  geotol : Q;
  order : string;
  dimension : string;
  algorithm2D : string;
  algorithm3D : string;
  (* attributes that exist only once a method has set them *)
  temp_file_geometry : option string;
  temp_file_mesh : option string;
  temp_file_geo : option string;
  mesh_name : option string;
  gmsh_bin : option string;
  group_elements : gmap string (list string);
  ele_length_map : gmap string Q;
  ele_node_map : gmap string (list Z);
  bl_setting_list : list setting;
  bl_boundary_list : list string;
  error : bool;
  (* what the run printed, wrote and spawned, oldest first *)
  trace : list event
}.

(** Assignments to the attributes of the instance. *)

Definition set_mesh_obj (v : MeshObject) (s : FemGmshTools) : FemGmshTools :=
  Build_FemGmshTools v (analysis s) (part_obj s) (clmax s) (clmin s) (geotol s)
    (order s) (dimension s) (algorithm2D s) (algorithm3D s) (temp_file_geometry s)
    (temp_file_mesh s) (temp_file_geo s) (mesh_name s) (gmsh_bin s) (group_elements s)
    (ele_length_map s) (ele_node_map s) (bl_setting_list s) (bl_boundary_list s)
    (error s) (trace s).

Definition set_dimension (v : string) (s : FemGmshTools) : FemGmshTools :=
  Build_FemGmshTools (mesh_obj s) (analysis s) (part_obj s) (clmax s) (clmin s) (geotol s)
    (order s) v (algorithm2D s) (algorithm3D s) (temp_file_geometry s)
    (temp_file_mesh s) (temp_file_geo s) (mesh_name s) (gmsh_bin s) (group_elements s)
    (ele_length_map s) (ele_node_map s) (bl_setting_list s) (bl_boundary_list s)
    (error s) (trace s).

Definition set_temp_file_geometry (v : option string) (s : FemGmshTools) : FemGmshTools :=
  Build_FemGmshTools (mesh_obj s) (analysis s) (part_obj s) (clmax s) (clmin s) (geotol s)
    (order s) (dimension s) (algorithm2D s) (algorithm3D s) v
    (temp_file_mesh s) (temp_file_geo s) (mesh_name s) (gmsh_bin s) (group_elements s)
    (ele_length_map s) (ele_node_map s) (bl_setting_list s) (bl_boundary_list s)
    (error s) (trace s).

Definition set_temp_file_mesh (v : option string) (s : FemGmshTools) : FemGmshTools :=
  Build_FemGmshTools (mesh_obj s) (analysis s) (part_obj s) (clmax s) (clmin s) (geotol s)
    (order s) (dimension s) (algorithm2D s) (algorithm3D s) (temp_file_geometry s)
    v (temp_file_geo s) (mesh_name s) (gmsh_bin s) (group_elements s)
    (ele_length_map s) (ele_node_map s) (bl_setting_list s) (bl_boundary_list s)
    (error s) (trace s).

Definition set_temp_file_geo (v : option string) (s : FemGmshTools) : FemGmshTools :=
  Build_FemGmshTools (mesh_obj s) (analysis s) (part_obj s) (clmax s) (clmin s) (geotol s)
    (order s) (dimension s) (algorithm2D s) (algorithm3D s) (temp_file_geometry s)
    (temp_file_mesh s) v (mesh_name s) (gmsh_bin s) (group_elements s)
    (ele_length_map s) (ele_node_map s) (bl_setting_list s) (bl_boundary_list s)
    (error s) (trace s).

Definition set_mesh_name (v : option string) (s : FemGmshTools) : FemGmshTools :=
  Build_FemGmshTools (mesh_obj s) (analysis s) (part_obj s) (clmax s) (clmin s) (geotol s)
    (order s) (dimension s) (algorithm2D s) (algorithm3D s) (temp_file_geometry s)
    (temp_file_mesh s) (temp_file_geo s) v (gmsh_bin s) (group_elements s)
    (ele_length_map s) (ele_node_map s) (bl_setting_list s) (bl_boundary_list s)
    (error s) (trace s).

Definition set_gmsh_bin (v : option string) (s : FemGmshTools) : FemGmshTools :=
  Build_FemGmshTools (mesh_obj s) (analysis s) (part_obj s) (clmax s) (clmin s) (geotol s)
    (order s) (dimension s) (algorithm2D s) (algorithm3D s) (temp_file_geometry s)
    (temp_file_mesh s) (temp_file_geo s) (mesh_name s) v (group_elements s)
    (ele_length_map s) (ele_node_map s) (bl_setting_list s) (bl_boundary_list s)
    (error s) (trace s).

Definition set_group_elements (v : gmap string (list string)) (s : FemGmshTools)
  : FemGmshTools :=
  Build_FemGmshTools (mesh_obj s) (analysis s) (part_obj s) (clmax s) (clmin s) (geotol s)
    (order s) (dimension s) (algorithm2D s) (algorithm3D s) (temp_file_geometry s)
    (temp_file_mesh s) (temp_file_geo s) (mesh_name s) (gmsh_bin s) v
    (ele_length_map s) (ele_node_map s) (bl_setting_list s) (bl_boundary_list s)
    (error s) (trace s).

Definition set_ele_length_map (v : gmap string Q) (s : FemGmshTools) : FemGmshTools :=
  Build_FemGmshTools (mesh_obj s) (analysis s) (part_obj s) (clmax s) (clmin s) (geotol s)
    (order s) (dimension s) (algorithm2D s) (algorithm3D s) (temp_file_geometry s)
    (temp_file_mesh s) (temp_file_geo s) (mesh_name s) (gmsh_bin s) (group_elements s)
    v (ele_node_map s) (bl_setting_list s) (bl_boundary_list s)
    (error s) (trace s).

Definition set_ele_node_map (v : gmap string (list Z)) (s : FemGmshTools) : FemGmshTools :=
  Build_FemGmshTools (mesh_obj s) (analysis s) (part_obj s) (clmax s) (clmin s) (geotol s)
    (order s) (dimension s) (algorithm2D s) (algorithm3D s) (temp_file_geometry s)
    (temp_file_mesh s) (temp_file_geo s) (mesh_name s) (gmsh_bin s) (group_elements s)
    (ele_length_map s) v (bl_setting_list s) (bl_boundary_list s)
    (error s) (trace s).

Definition set_bl_setting_list (v : list setting) (s : FemGmshTools) : FemGmshTools :=
  Build_FemGmshTools (mesh_obj s) (analysis s) (part_obj s) (clmax s) (clmin s) (geotol s)
    (order s) (dimension s) (algorithm2D s) (algorithm3D s) (temp_file_geometry s)
    (temp_file_mesh s) (temp_file_geo s) (mesh_name s) (gmsh_bin s) (group_elements s)
    (ele_length_map s) (ele_node_map s) v (bl_boundary_list s)
    (error s) (trace s).

Definition set_bl_boundary_list (v : list string) (s : FemGmshTools) : FemGmshTools :=
  Build_FemGmshTools (mesh_obj s) (analysis s) (part_obj s) (clmax s) (clmin s) (geotol s)
    (order s) (dimension s) (algorithm2D s) (algorithm3D s) (temp_file_geometry s)
    (temp_file_mesh s) (temp_file_geo s) (mesh_name s) (gmsh_bin s) (group_elements s)
    (ele_length_map s) (ele_node_map s) (bl_setting_list s) v
    (error s) (trace s).

Definition set_error (v : bool) (s : FemGmshTools) : FemGmshTools :=
  Build_FemGmshTools (mesh_obj s) (analysis s) (part_obj s) (clmax s) (clmin s) (geotol s)
    (order s) (dimension s) (algorithm2D s) (algorithm3D s) (temp_file_geometry s)
    (temp_file_mesh s) (temp_file_geo s) (mesh_name s) (gmsh_bin s) (group_elements s)
    (ele_length_map s) (ele_node_map s) (bl_setting_list s) (bl_boundary_list s)
    v (trace s).

Definition set_trace (v : list event) (s : FemGmshTools) : FemGmshTools :=
  Build_FemGmshTools (mesh_obj s) (analysis s) (part_obj s) (clmax s) (clmin s) (geotol s)
    (order s) (dimension s) (algorithm2D s) (algorithm3D s) (temp_file_geometry s)
    (temp_file_mesh s) (temp_file_geo s) (mesh_name s) (gmsh_bin s) (group_elements s)
    (ele_length_map s) (ele_node_map s) (bl_setting_list s) (bl_boundary_list s)
    (error s) v.

(** ** Methods as state transformers that may raise *)

Definition M (A : Type) : Type := FemGmshTools -> result A * FemGmshTools.

Definition ret {A} (a : A) : M A := fun s => (Ok a, s).

Definition bind {A B} (m : M A) (k : A -> M B) : M B :=
  fun s =>
    match m s with
    | (Ok a, s') => k a s'
    | (Raise e, s') => (Raise e, s')
    end.

Definition raise {A} (e : exn) : M A := fun s => (Raise e, s).

Definition get : M FemGmshTools := fun s => (Ok s, s).

Definition modify (f : FemGmshTools -> FemGmshTools) : M unit :=
  fun s => (Ok tt, f s).

Definition emit (e : event) : M unit :=
  modify (fun s => set_trace (trace s ++ [e]) s).

Definition emits (es : list event) : M unit :=
  modify (fun s => set_trace (trace s ++ es) s).

(** [try: body finally: fin] *)
Definition try_finally {A} (body : M A) (fin : M unit) : M A :=
  fun s =>
    match body s with
    | (r, s') =>
        match fin s' with
        | (Ok _, s'') => (r, s'')
        | (Raise e, s'') => (Raise e, s'')
        end
    end.

(** [try: body except: handler] with a bare [except] *)
Definition try_except {A} (body : M A) (handler : M A) : M A :=
  fun s =>
    match body s with
    | (Ok a, s') => (Ok a, s')
    | (Raise _, s') => handler s'
    end.

(** Reading an attribute that a method may not have set yet. *)
Definition getattr {A} (name : string) (f : FemGmshTools -> option A) : M A :=
  fun s =>
    match f s with
    | Some a => (Ok a, s)
    | None => (Raise (AttributeError name), s)
    end.

Declare Scope gmsh_scope.
Delimit Scope gmsh_scope with gmsh.
Notation "x <- m ;; k" := (bind m (fun x => k))
  (at level 100, m at next level, right associativity) : gmsh_scope.
Notation "m ;;; k" := (bind m (fun _ => k))
  (at level 100, right associativity) : gmsh_scope.
Open Scope gmsh_scope.

(** ** The class attributes *)

Definition supported_mesh_output_formats : gmap string Z :=
  list_to_map
    [("Gmsh MSH", 1%Z); ("I-Deas universal", 2%Z); ("Automatic", 10%Z);
     ("STL surface", 27%Z); ("INRIA medit", 30%Z); ("CGNS", 32%Z);
     ("Salome mesh", 33%Z); ("Abaqus INP", 39%Z); ("Ploy surface", 42%Z)].

Definition output_format_suffix : gmap string string :=
  list_to_map
    [("Gmsh MSH", ".msh"); ("I-Deas universal", ".unv"); ("Automatic", ".msh");
     ("STL surface", ".stl"); ("INRIA medit", ".mesh"); ("CGNS", ".cgns");
     ("Salome mesh", "med"); ("Abaqus INP", ".inp"); ("Ploy surface", ".ply2")].

(** ** [__init__] *)

Definition resolve_clmax (v : Q) : Q := if Qeq_bool v 0 then 1e22%Q else v.

Definition resolve_geotol (v : Q) : Q := if Qeq_bool v 0 then 1e-8%Q else v.

(** The order code and what the branch prints. *)
Definition resolve_order (o : string) : string * list event :=
  if String.eqb o "1st" then ("1", [])
  else if String.eqb o "2nd" then ("2", [])
  else (o, [Print "Error in order"]).

Definition resolve_algorithm2D (algo2D : string) : string :=
  if String.eqb algo2D "Automatic" then "2"
  else if String.eqb algo2D "MeshAdapt" then "1"
  else if String.eqb algo2D "Delaunay" then "5"
  else if String.eqb algo2D "Frontal" then "6"
  else if String.eqb algo2D "BAMG" then "7"
  else if String.eqb algo2D "DelQuad" then "8"
  else "2".

Definition resolve_algorithm3D (algo3D : string) : string :=
  if String.eqb algo3D "Automatic" then "1"
  else if String.eqb algo3D "Delaunay" then "1"
  else if String.eqb algo3D "New Delaunay" then "2"
  else if String.eqb algo3D "Frontal" then "4"
  else if String.eqb algo3D "Frontal Delaunay" then "5"
  else if String.eqb algo3D "Frontal Hex" then "6"
  else if String.eqb algo3D "MMG3D" then "7"
  else if String.eqb algo3D "R-tree" then "9"
  else "1".

Definition init (gmsh_mesh_obj : MeshObject) (analysis : option Analysis)
  : FemGmshTools :=
  {| mesh_obj := gmsh_mesh_obj;
     analysis := analysis;
     part_obj := Part gmsh_mesh_obj;
     clmax := resolve_clmax (CharacteristicLengthMax gmsh_mesh_obj);
     clmin := CharacteristicLengthMin gmsh_mesh_obj;
     geotol := resolve_geotol (GeometryTolerance gmsh_mesh_obj);
     order := fst (resolve_order (ElementOrder gmsh_mesh_obj));
     dimension := ElementDimension gmsh_mesh_obj;
     algorithm2D := resolve_algorithm2D (Algorithm2D gmsh_mesh_obj);
     (* [algo3D = self.mesh_obj.Algorithm2D] *)
     algorithm3D := resolve_algorithm3D (Algorithm2D gmsh_mesh_obj);
     temp_file_geometry := None;
     temp_file_mesh := None;
     temp_file_geo := None;
     mesh_name := None;
     gmsh_bin := None;
     group_elements := ∅;
     ele_length_map := ∅;
     ele_node_map := ∅;
     bl_setting_list := [];
     bl_boundary_list := [];
     error := false;
     trace := snd (resolve_order (ElementOrder gmsh_mesh_obj)) |}.

(** ** [get_dimension] *)

Definition get_dimension : M unit :=
  s <- get ;;
  (if String.eqb (dimension s) "From Shape" then
     let shty := ShapeType (Shape_ (part_obj s)) in
     if String.eqb shty "Solid" || String.eqb shty "CompSolid" then
       modify (set_dimension "3")
     else if String.eqb shty "Face" || String.eqb shty "Shell" then
       modify (set_dimension "2")
     else if String.eqb shty "Edge" || String.eqb shty "Wire" then
       modify (set_dimension "1")
     else if String.eqb shty "Vertex" then
       emit (PrintError ("You can not mesh a Vertex." +:+ LF)) ;;;
       modify (set_dimension "0")
     else if String.eqb shty "Compound" then
       emit (PrintLog ("  Found a Compound. Since it could contain any kind of shape dimension 3 is used." +:+ LF)) ;;;
       modify (set_dimension "3")
     else
       modify (set_dimension "0") ;;;
       emit (PrintError "Could not retrive Dimension from shape type. Please choose dimension.")
   else if String.eqb (dimension s) "3D" then modify (set_dimension "3")
   else if String.eqb (dimension s) "2D" then modify (set_dimension "2")
   else if String.eqb (dimension s) "1D" then modify (set_dimension "1")
   else emit (Print "Error in dimension")) ;;;
  s <- get ;;
  emit (Print ("  ElementDimension: " +:+ dimension s)).

Section Methods.

Variable H : Host.

(** ** [get_tmp_file_paths] *)

Definition get_tmp_file_paths : M unit :=
  s <- get ;;
  let path_sep :=
    if String.eqb (system H) "Linux" then "/"
    else if String.eqb (system H) "Windows" then BACKSLASH
    else "/" in
  let tmpdir := gettempdir H in
  let geometry := tmpdir +:+ path_sep +:+ Name (part_obj s) +:+ "_Geometry.brep" in
  modify (set_temp_file_geometry (Some geometry)) ;;;
  emit (Print ("  " +:+ geometry)) ;;;
  let name := Name (part_obj s) +:+ "_Mesh_TmpGmsh" in
  modify (set_mesh_name (Some name)) ;;;
  match output_format_suffix !! OutputFormat (mesh_obj s) with
  | None => raise (KeyError (OutputFormat (mesh_obj s)))
  | Some suffix =>
      let mesh := tmpdir +:+ path_sep +:+ name +:+ suffix in
      modify (set_temp_file_mesh (Some mesh)) ;;;
      emit (Print ("  " +:+ mesh)) ;;;
      let geo := tmpdir +:+ path_sep +:+ "shape2mesh.geo" in
      modify (set_temp_file_geo (Some geo)) ;;;
      emit (Print ("  " +:+ geo))
  end.

(** ** [get_gmsh_command] *)

Definition gmsh_not_found : string :=
  "GMSH binary gmsh not found in standard system binary path. Please install gmsh or set path to binary in FEM preferences tab GMSH." +:+ LF.

Definition no_standard_location : string :=
  "No standard location implemented for your operating system. Set GMHS binary path in FEM preferences." +:+ LF.

Definition get_gmsh_command : M unit :=
  modify (set_gmsh_bin None) ;;;
  (if UseStandardGmshLocation H then
     if String.eqb (system H) "Windows" then
       let gmsh_path := getHomePath H +:+ "bin/gmsh.exe" in
       emit (SetString "gmshBinaryPath" gmsh_path) ;;;
       modify (set_gmsh_bin (Some gmsh_path))
     else if String.eqb (system H) "Linux" then
       emit (Spawn ["which"; "gmsh"]) ;;;
       if Z.eqb (fst (which_gmsh H)) 0 then
         modify (set_gmsh_bin (Some (first_line (snd (which_gmsh H)))))
       else if Z.eqb (fst (which_gmsh H)) 1 then
         emit (PrintError gmsh_not_found) ;;;
         raise (Exception gmsh_not_found)
       else
         (* [gmsh_path] was assigned in neither branch *)
         raise (UnboundLocalError "gmsh_path")
     else
       emit (PrintError no_standard_location) ;;;
       raise (Exception no_standard_location)
   else
     (* [self.gmsh_bin] is [None] here *)
     modify (set_gmsh_bin (Some (gmshBinaryPath H))) ;;;
     if String.eqb (gmshBinaryPath H) "" then
       if String.eqb (system H) "Linux" then modify (set_gmsh_bin (Some "gmsh"))
       else if String.eqb (system H) "Windows" then
         modify (set_gmsh_bin (Some (getHomePath H +:+ "bin/gmsh.exe")))
       else modify (set_gmsh_bin (Some "gmsh"))
     else ret tt) ;;;
  bin <- getattr "gmsh_bin" gmsh_bin ;;
  emit (Print ("  " +:+ bin)).

(** ** Reference extraction *)

(** The element of a reference, as the inner loops see it: when the shape of
    the referenced object is not the shape to mesh, the element is looked up
    in the shape to mesh; when it is not found there, an error is printed
    and the loop goes on with the element as it was given. *)
Definition resolve_element (part : DocumentObject) (not_found : string)
    (sub0 : DocumentObject) (elems : string) : string * list event :=
  let search_ele_in_shape_to_mesh := negb (isSame H (Shape_ part) (Shape_ sub0)) in
  if search_ele_in_shape_to_mesh then
    match find_element H (Shape_ part) sub0 elems with
    | Some found_element => (found_element, [])
    | None => (elems, [PrintError not_found])
    end
  else (elems, []).

(** *** [get_region_data] *)

Definition region_not_found (mr : MeshRegion) : string :=
  "One element of the meshregion " +:+ mr_Name mr +:+
  " could not be found in the Part to mesh. It will be ignored." +:+ LF.

Definition region_duplicate (mr : MeshRegion) (elems : string) : string :=
  "The element " +:+ elems +:+ " of the meshregion " +:+ mr_Name mr +:+
  " has been added to another mesh region." +:+ LF.

(** The body of [for elems in sub[1]]. *)
Definition region_add_element (part : DocumentObject) (mr : MeshRegion)
    (sub0 : DocumentObject) (acc : gmap string Q * list event) (elems : string)
  : gmap string Q * list event :=
  let '(elems, found) := resolve_element part (region_not_found mr) sub0 elems in
  match fst acc !! elems with
  | None => (<[elems := CharacteristicLength mr]> (fst acc), snd acc ++ found)
  | Some _ =>
      (fst acc, snd acc ++ found ++ [PrintError (region_duplicate mr elems)])
  end.

(** The body of [for mr_obj in self.mesh_obj.MeshRegionList]. *)
Definition region_add (part : DocumentObject) (acc : gmap string Q * list event)
    (mr : MeshRegion) : gmap string Q * list event :=
  if negb (Qeq_bool (CharacteristicLength mr) 0) then
    match mr_References mr with
    | _ :: _ =>
        fold_left
          (fun acc (sub : reference) =>
             fold_left (region_add_element part mr (fst sub)) (snd sub) acc)
          (mr_References mr) acc
    | [] =>
        (fst acc, snd acc ++ [PrintError ("The meshregion: " +:+ mr_Name mr +:+
           " is not used to create the mesh because the reference list is empty." +:+ LF)])
    end
  else
    (fst acc, snd acc ++ [PrintError ("The meshregion: " +:+ mr_Name mr +:+
       " is not used to create the mesh because the CharacteristicLength is 0.0 mm." +:+ LF)]).

Definition split_compound_warning : string :=
  "  The mesh to shape is a boolean split tools Compound and the mesh has mesh region list. GMSH could return unexpected meshes in such circumstances. It is strongly recommended to extract the shape to mesh from the Compound and use this one.".

Definition is_split_compound (part : DocumentObject) : bool :=
  String.eqb (ShapeType (Shape_ part)) "Compound" &&
  match Proxy part with
  | Some ty =>
      String.eqb ty "FeatureBooleanFragments" || String.eqb ty "FeatureSlice"
      || String.eqb ty "FeatureXOR"
  | None => false
  end.

Definition get_region_data : M unit :=
  modify (set_ele_length_map ∅) ;;;
  modify (set_ele_node_map ∅) ;;;
  s <- get ;;
  (match MeshRegionList (mesh_obj s) with
   | [] => emit (Print "  No mesh regions.")
   | _ :: _ =>
       emit (Print "  Mesh regions, we need to get the elements.") ;;;
       let part := part_obj s in
       (if is_split_compound part
        then emit (PrintError (split_compound_warning +:+ LF)) else ret tt) ;;;
       let '(lengths, evs) :=
         fold_left (region_add part) (MeshRegionList (mesh_obj s)) (∅, []) in
       modify (set_ele_length_map lengths) ;;;
       emits evs ;;;
       modify (set_ele_node_map
                 (fold_left
                    (fun nodes eleml =>
                       <[eleml := get_vertexes_by_element H part eleml]> nodes)
                    (map fst (map_to_list lengths)) ∅))
   end) ;;;
  emit (PrintValue "ele_length_map") ;;;
  emit (PrintValue "ele_node_map").

(** *** [get_boundary_layer_data] *)

Definition bl_not_found (mr : MeshBoundaryLayer) : string :=
  "One element of the mesh boudary layer " +:+ bl_Name mr +:+
  " could not be found in the Part to mesh. It will be ignored." +:+ LF.

Definition bl_duplicate (mr : MeshBoundaryLayer) (elems : string) : string :=
  "The element " +:+ elems +:+ " of the mesh boundary layer " +:+ bl_Name mr +:+
  " has been added to another mesh  boudary layer." +:+ LF.

(** The local and instance lists the loops of [get_boundary_layer_data]
    append to. *)
Record bl_acc := {
  acc_belem_list : list string;
  acc_boundary_list : list string;
  acc_settings : list setting;
  acc_events : list event
}.

(** The body of [for elems in sub[1]]. *)
Definition bl_add_element (part : DocumentObject) (mr : MeshBoundaryLayer)
    (sub0 : DocumentObject) (acc : bl_acc) (elems : string) : bl_acc :=
  let '(elems, found) := resolve_element part (bl_not_found mr) sub0 elems in
  if decide (elems ∈ acc_boundary_list acc) then
    {| acc_belem_list := acc_belem_list acc;
       acc_boundary_list := acc_boundary_list acc;
       acc_settings := acc_settings acc;
       acc_events := acc_events acc ++ found ++ [PrintError (bl_duplicate mr elems)] |}
  else
    {| acc_belem_list := acc_belem_list acc ++ [elems];
       acc_boundary_list := acc_boundary_list acc ++ [elems];
       acc_settings := acc_settings acc;
       acc_events := acc_events acc ++ found |}.

(** [setting['thickness']] *)
Definition layer_thickness (hwall_n ratio : Q) (layers : Z) : Q :=
  sum (map (fun i => hwall_n * ratio ^ i)%Q (range layers)).

(** [setting['hfar']] *)
Definition far_size (clmax thickness : Q) : Q :=
  if Qlt_bool (thickness * 0.8) clmax && Qlt_bool clmax (thickness * 1.6)
  then clmax else thickness.

(** The setting of one boundary layer object, and what the branch on the
    dimension prints. *)
Definition make_setting (clmax : Q) (dimension : string) (mr : MeshBoundaryLayer)
    (belem_list : list string) : setting * list event :=
  let hwall_n := MinimumThickness mr in
  let ratio := GrowthRate mr in
  let thickness := layer_thickness hwall_n ratio (NumberOfLayers mr) in
  let hwall_t := thickness in
  let hfar := far_size clmax thickness in
  if String.eqb dimension "2" then
    (Build_setting hwall_n ratio thickness hwall_t hfar (Some belem_list) None, [])
  else if String.eqb dimension "3" then
    (Build_setting hwall_n ratio thickness hwall_t hfar None (Some belem_list), [])
  else
    (Build_setting hwall_n ratio thickness hwall_t hfar None None,
     [PrintError "boundary layer is only  supported for 2D and 3D mesh"]).

(** The body of [for mr_obj in self.mesh_obj.MeshBoundaryLayerList]. *)
Definition bl_add (part : DocumentObject) (clmax : Q) (dimension : string)
    (acc : bl_acc) (mr : MeshBoundaryLayer) : bl_acc :=
  if Qlt_bool 0 (MinimumThickness mr) then
    match bl_References mr with
    | _ :: _ =>
        let acc1 :=
          fold_left
            (fun acc (sub : reference) =>
               fold_left (bl_add_element part mr (fst sub)) (snd sub) acc)
            (bl_References mr)
            {| acc_belem_list := [];
               acc_boundary_list := acc_boundary_list acc;
               acc_settings := acc_settings acc;
               acc_events := acc_events acc |} in
        let '(setting, evs) := make_setting clmax dimension mr (acc_belem_list acc1) in
        {| acc_belem_list := acc_belem_list acc1;
           acc_boundary_list := acc_boundary_list acc1;
           acc_settings := acc_settings acc1 ++ [setting];
           acc_events := acc_events acc1 ++ evs |}
    | [] =>
        {| acc_belem_list := acc_belem_list acc;
           acc_boundary_list := acc_boundary_list acc;
           acc_settings := acc_settings acc;
           acc_events := acc_events acc ++
             [PrintError ("The mesh boundary layer: " +:+ bl_Name mr +:+
                " is not used to create the mesh because the reference list is empty." +:+ LF)] |}
    end
  else
    {| acc_belem_list := acc_belem_list acc;
       acc_boundary_list := acc_boundary_list acc;
       acc_settings := acc_settings acc;
       acc_events := acc_events acc ++
         [PrintError ("The mesh boundary layer: " +:+ bl_Name mr +:+
            " is not used to create the mesh because the min thickness is 0.0 mm." +:+ LF)] |}.

Definition compound_warning : string :=
  "GMSH could return unexpected meshes for a boolean split tools Compound. It is strongly recommended to extract the shape to mesh from the Compound and use this one.".

Definition bl_loop (part : DocumentObject) (clmax : Q) (dimension : string)
    (layers : list MeshBoundaryLayer) : bl_acc :=
  fold_left (bl_add part clmax dimension) layers
    {| acc_belem_list := []; acc_boundary_list := [];
       acc_settings := []; acc_events := [] |}.

Definition get_boundary_layer_data : M unit :=
  modify (set_bl_setting_list []) ;;;
  modify (set_bl_boundary_list []) ;;;
  s <- get ;;
  (match MeshBoundaryLayerList (mesh_obj s) with
   | [] => emit (Print "  No mesh boundary layer setting document object.")
   | _ :: _ =>
       emit (Print "  Mesh boundary layers, we need to get the elements.") ;;;
       (if String.eqb (ShapeType (Shape_ (part_obj s))) "Compound"
        then emit (PrintError (compound_warning +:+ LF)) else ret tt) ;;;
       let acc := bl_loop (part_obj s) (clmax s) (dimension s)
                    (MeshBoundaryLayerList (mesh_obj s)) in
       modify (set_bl_setting_list (acc_settings acc)) ;;;
       modify (set_bl_boundary_list (acc_boundary_list acc)) ;;;
       emits (acc_events acc)
   end) ;;;
  emit (PrintValue "bl_setting_list").

(** *** [get_group_data] *)

Definition group_exists : string := "  A group with this name exists already." +:+ LF.

(** [for ge in new_group_elements: ...] *)
Definition add_groups (new_group_elements : gmap string (list string))
    (acc : gmap string (list string) * list event)
  : gmap string (list string) * list event :=
  fold_left
    (fun acc (ge : string * list string) =>
       match fst acc !! fst ge with
       | None => (<[fst ge := snd ge]> (fst acc), snd acc)
       | Some _ => (fst acc, snd acc ++ [PrintError group_exists])
       end)
    (map_to_list new_group_elements) acc.

Definition get_group_data : M unit :=
  modify (set_group_elements ∅) ;;;
  s <- get ;;
  (match MeshGroupList (mesh_obj s) with
   | [] => emit (Print "  No mesh group objects.")
   | _ :: _ =>
       emit (Print "  Mesh group objects, we need to get the elements.") ;;;
       let '(groups, evs) :=
         fold_left
           (fun acc mg => add_groups (get_mesh_group_elements H mg (part_obj s)) acc)
           (MeshGroupList (mesh_obj s)) (∅, []) in
       modify (set_group_elements groups) ;;;
       emits evs
   end) ;;;
  s <- get ;;
  (match analysis s with
   | Some a =>
       emit (Print "  Group meshing.") ;;;
       let '(groups, evs) :=
         add_groups (get_analysis_group_elements H a (part_obj s))
           (group_elements s, []) in
       modify (set_group_elements groups) ;;;
       emits evs
   | None => emit (Print "  No anlysis members for group meshing.")
   end) ;;;
  emit (PrintValue "group_elements").

(** ** Script emission

    A writer returns the strings it hands to [geo.write], one per call. *)

(** [(''.join((str(el[4:]) + ', ') for el in v)).rstrip(', ')] *)
Definition element_ids (v : list string) : string :=
  rstrip ", " (join (map (fun el => slice_from 4 el +:+ ", ") v)).

(** The lines of one setting, key by key. *)
Definition setting_lines (prefix : string) (item : setting) : list string :=
  let scalar (k : string) (v : Q) := prefix +:+ "." +:+ k +:+ " = " +:+ str_float H v +:+ ";" +:+ LF in
  let elements (k : string) (v : option (list string)) :=
    match v with
    | Some v => [prefix +:+ "." +:+ k +:+ " = {" +:+ element_ids v +:+ " };" +:+ LF]
    | None => []
    end in
  ([scalar "hwall_n" (hwall_n item); scalar "ratio" (ratio item);
    scalar "thickness" (thickness item); scalar "hwall_t" (hwall_t item);
    scalar "hfar" (hfar item)]
   ++ elements "EdgesList" (EdgesList item)
   ++ elements "FacesList" (FacesList item)).

(** [for item in self.bl_setting_list: ...], from [field_number] on. *)
Fixpoint boundary_layer_fields (field_number : Z) (items : list setting) : list string :=
  match items with
  | [] => []
  | item :: rest =>
      let prefix := "Field[" +:+ str_int field_number +:+ "]" in
      [prefix +:+ " = BoundaryLayer;" +:+ LF]
      ++ setting_lines prefix item
      ++ ["BoundaryLayer Field = " +:+ str_int field_number +:+ ";" +:+ LF;
          "// end of this boundary layer setup " +:+ LF]
      ++ boundary_layer_fields (field_number + 1) rest
  end.

Definition write_boundary_layer : M (list string) :=
  s <- get ;;
  match bl_setting_list s with
  | _ :: _ =>
      emit (Print "Start to write boundary layer setup") ;;;
      ret (["// boundary layer setting" +:+ LF]
           ++ boundary_layer_fields 1 (bl_setting_list s)
           ++ [LF])
  | [] =>
      emit (Print "no boundary layer setup is found for this mesh") ;;;
      ret ["// no boundary layer settings for this mesh" +:+ LF]
  end.

(** [ele_nr] after [for ele in gdata: ele_nr += (ele.lstrip(prefix) + ', ')] *)
Definition element_numbers (prefix : string) (gdata : list string) : string :=
  join (map (fun ele => lstrip prefix ele +:+ ", ") gdata).

(** The counters and the text of the loop over the groups. *)
Record group_acc := {
  boundaries : nat;
  domains : nat;
  group_text : list string
}.

Definition physical_line (physical_type group ele_nr : string) : string :=
  "Physical " +:+ physical_type +:+ "(" +:+ DQ +:+ group +:+ DQ +:+ ") = {"
  +:+ rstrip ", " ele_nr +:+ "};" +:+ LF.

(** The body of [for group in self.group_elements], given [gdata[0]]. *)
Definition write_group_entry (dimension group : string) (gdata : list string)
    (first : string) (acc : group_acc) : group_acc * list event :=
  if startswith "Solid" first then
    let ele_nr := element_numbers "Solid" gdata in
    ({| boundaries := boundaries acc;
        domains := if String.eqb dimension "3" then S (domains acc) else domains acc;
        group_text :=
          if String.eqb ele_nr "" then group_text acc
          else group_text acc ++ [physical_line "Volume" group ele_nr] |}, [])
  else if startswith "Face" first then
    let ele_nr := element_numbers "Face" gdata in
    ({| boundaries := if String.eqb dimension "3" then S (boundaries acc) else boundaries acc;
        domains := if String.eqb dimension "2" then S (domains acc) else domains acc;
        group_text :=
          if String.eqb ele_nr "" then group_text acc
          else group_text acc ++ [physical_line "Surface" group ele_nr] |}, [])
  else if startswith "Edge" first then
    let ele_nr := element_numbers "Edge" gdata in
    ({| boundaries := if String.eqb dimension "2" then S (boundaries acc) else boundaries acc;
        domains := domains acc;
        group_text :=
          if String.eqb ele_nr "" then group_text acc
          else group_text acc ++ [physical_line "Line" group ele_nr] |}, [])
  else if startswith "Vertex" first then
    ({| boundaries := boundaries acc;
        domains := domains acc;
        group_text :=
          group_text acc ++
          ["// " +:+ group +:+ " group data not written. Vertexes group data not supported." +:+ LF] |},
     [Print "  Groups for Vertexes reference shapes not handeled yet."])
  else (acc, []).

(** [for group in self.group_elements: ...]; [gdata[0]] raises on an empty
    list. *)
Fixpoint write_group_loop (dimension : string) (groups : list (string * list string))
    (acc : group_acc) : M group_acc :=
  match groups with
  | [] => ret acc
  | (group, gdata) :: rest =>
      emit (PrintValue "gdata") ;;;
      match gdata with
      | [] => raise IndexError
      | first :: _ =>
          let '(acc, evs) := write_group_entry dimension group gdata first acc in
          emits evs ;;;
          write_group_loop dimension rest acc
      end
  end.

(** The default interior domain, written when the loop counted no domain. *)
Definition interior_volume : string :=
  "Physical Volume(" +:+ DQ +:+ "Interior" +:+ DQ +:+ ") = {1};" +:+ LF.

Definition interior_surface : string :=
  "Physical Surface(" +:+ DQ +:+ "Interior" +:+ DQ +:+ ") = {1};" +:+ LF.

Definition write_interior (dimension : string) (domains : nat) : list string * list event :=
  if Nat.eqb domains 0 then
    ((if String.eqb dimension "3" then [interior_volume] else [])
     ++ (if String.eqb dimension "2" then [interior_surface] else []), [])
  else
    ([], [Print "Warning: no subdomain group data are written, thus subdomain nesh will not be exported"]).

(** What is written for the groups of nodes of the I-Deas format. *)
Definition save_groups_of_nodes (s : FemGmshTools) : list string :=
  if (match analysis s with Some _ => true | None => false end)
     && String.eqb (OutputFormat (mesh_obj s)) "I-Deas universal" then
    ["// For each group save not only the elements but the nodes too.;" +:+ LF;
     "Mesh.SaveGroupsOfNodes = 1;" +:+ LF;
     "// Needed for Group meshing too, because for one material there is no group defined;" +:+ LF;
     "// Ignore Physical definitions and save all elements, if Mesh.SaveAll = 1;" +:+ LF;
     "Mesh.SaveAll = 1;" +:+ LF;
     LF +:+ LF]
  else [].

Definition write_group : M (list string) :=
  s <- get ;;
  acc <- (if decide (group_elements s = ∅) then
            ret {| boundaries := 0; domains := 0; group_text := [] |}
          else
            write_group_loop (dimension s) (map_to_list (group_elements s))
              {| boundaries := 0; domains := 0; group_text := ["// group data " +:+ LF] |}) ;;
  let '(interior, evs) := write_interior (dimension s) (domains acc) in
  emits evs ;;;
  (if Nat.eqb (boundaries acc) 0 then
     emit (Print "Warning: no boundary group data are written, thus boundary mesh will not be exported")
   else ret tt) ;;;
  ret (group_text acc ++ interior ++ [LF +:+ LF] ++ save_groups_of_nodes s).

(** ** [write_part_file] *)

Definition write_part_file : M unit :=
  s <- get ;;
  path <- getattr "temp_file_geometry" temp_file_geometry ;;
  if exportBrep H (Shape_ (part_obj s)) path then emit (ExportBrep path)
  else raise (HostError "exportBrep").

(** ** [write_geo] *)

(** Values of Python as far as [==] between a string and an integer needs
    them: values of different types are never equal. *)
Inductive pyval :=
| PyStr (s : string)
| PyInt (n : Z).

Definition py_eq (a b : pyval) : bool :=
  match a, b with
  | PyStr x, PyStr y => String.eqb x y
  | PyInt x, PyInt y => Z.eqb x y
  | _, _ => false
  end.

(** [hasattr(obj, name) and obj.name is True] *)
Definition is_True (attr : option bool) : bool :=
  match attr with
  | Some true => true
  | _ => false
  end.

(** [(''.join((str(n + 1) + ', ') for n in nodes)).rstrip(', ')] *)
Definition node_ids (nodes : list Z) : string :=
  rstrip ", " (join (map (fun n => str_int (n + 1) +:+ ", ") nodes)).

(** [for e in self.ele_length_map: ...] *)
Fixpoint characteristic_lengths (node_map : gmap string (list Z))
    (lengths : list (string * Q)) : M (list string) :=
  match lengths with
  | [] => ret []
  | (e, length) :: rest =>
      match node_map !! e with
      | None => raise (KeyError e)
      | Some nodes =>
          lines <- characteristic_lengths node_map rest ;;
          ret (["// " +:+ e +:+ LF;
                "Characteristic Length { " +:+ node_ids nodes +:+ " } = "
                +:+ str_float H length +:+ ";" +:+ LF] ++ lines)
      end
  end.

(** The [Mesh.Algorithm] directive. *)
Definition mesh_algorithm (s : FemGmshTools) : string :=
  if negb (Nat.eqb (length (bl_setting_list s)) 0)
     && py_eq (PyStr (dimension s)) (PyInt 3) then
    "Mesh.Algorithm = " +:+ "DelQuad" +:+ ";" +:+ LF
  else
    "Mesh.Algorithm = " +:+ algorithm2D s +:+ ";" +:+ LF.

(** The [Mesh.Algorithm3D] directive. *)
Definition mesh_algorithm3D (s : FemGmshTools) : string :=
  "Mesh.Algorithm3D = " +:+ algorithm3D s +:+ ";" +:+ LF.

Definition high_order_note : string :=
  "  // for more HighOrderOptimize parameter check http://gmsh.info/doc/texinfo/gmsh.html" +:+ LF.

(** The parts of the script, in the order [write_geo] writes them. *)

Definition geo_merge (geometry : string) : list string :=
  ["// geo file for meshing with GMSH meshing software created by FreeCAD" +:+ LF;
   LF;
   "// open brep geometry" +:+ LF;
   "Merge " +:+ DQ +:+ geometry +:+ DQ +:+ ";" +:+ LF;
   LF].

Definition geo_scaling (scaling : bool) : list string :=
  if scaling && Z.eqb (UserSchema H) 0 then
    ["// length scale from current FreeCAD length unit to MKS unit (meter)" +:+ LF;
     "Mesh.ScalingFactor=0.001;" +:+ LF]
  else [].

Definition geo_sizes (s : FemGmshTools) : list string :=
  ["// Characteristic Length" +:+ LF;
   "// min, max Characteristic Length" +:+ LF;
   "Mesh.CharacteristicLengthMax = " +:+ str_float H (clmax s) +:+ ";" +:+ LF;
   (if negb (Nat.eqb (length (bl_setting_list s)) 0)
    then "Mesh.CharacteristicLengthMin = " +:+ str_int 0 +:+ ";" +:+ LF
    else "Mesh.CharacteristicLengthMin = " +:+ str_float H (clmin s) +:+ ";" +:+ LF);
   LF].

Definition geo_recombine (s : FemGmshTools) : list string :=
  if is_True (RecombineAll (mesh_obj s)) then
    ["// other mesh options" +:+ LF; "Mesh.RecombineAll = 1;" +:+ LF; LF]
  else [].

Definition geo_optimize (s : FemGmshTools) : list string :=
  ["// optimize the mesh" +:+ LF;
   (if is_True (OptimizeStd (mesh_obj s))
    then "Mesh.Optimize = 1;" +:+ LF else "Mesh.Optimize = 0;" +:+ LF);
   (if is_True (OptimizeNetgen (mesh_obj s))
    then "Mesh.OptimizeNetgen = 1;" +:+ LF else "Mesh.OptimizeNetgen = 0;" +:+ LF);
   (if is_True (HighOrderOptimize (mesh_obj s))
    then "Mesh.HighOrderOptimize = 1;" +:+ high_order_note
    else "Mesh.HighOrderOptimize = 0;" +:+ high_order_note);
   LF;
   "// mesh order" +:+ LF;
   "Mesh.ElementOrder = " +:+ order s +:+ ";" +:+ LF;
   LF].

Definition geo_algorithm (s : FemGmshTools) : list string :=
  ["// mesh algorithm, only a few algorithms are usable with 3D boundary layer generation" +:+ LF;
   "// 2D mesh algorithm (1=MeshAdapt, 2=Automatic, 5=Delaunay, 6=Frontal, 7=BAMG, 8=DelQuad)" +:+ LF;
   mesh_algorithm s;
   "// 3D mesh algorithm (1=Delaunay, 2=New Delaunay, 4=Frontal, 5=Frontal Delaunay, 6=Frontal Hex, 7=MMG3D, 9=R-tree)" +:+ LF;
   mesh_algorithm3D s;
   LF].

(** The meshing command. *)
Definition mesh_command (s : FemGmshTools) : string :=
  "Mesh  " +:+ dimension s +:+ ";" +:+ LF.

Definition geo_meshing (s : FemGmshTools) : list string :=
  ["// meshing" +:+ LF]
  ++ (if is_True (CoherenceMesh (mesh_obj s)) then
        ["Geometry.Tolerance = " +:+ str_float H (geotol s)
         +:+ "; // set gemetrical tolerance (also used for merging nodes)" +:+ LF;
         mesh_command s;
         "Coherence Mesh; // Remove duplicate vertices" +:+ LF]
      else [mesh_command s])
  ++ [LF].

Definition geo_output (code : Z) (mesh bin path : string) : list string :=
  ["// output format 1=msh, 2=unv, 10=automatic, 27=stl, 32=cgns, 33=med, 39=inp, 40=ply2" +:+ LF;
   "Mesh.Format = " +:+ str_int code +:+ ";" +:+ LF;
   "Save " +:+ DQ +:+ mesh +:+ DQ +:+ ";" +:+ LF;
   LF +:+ LF;
   "//////////////////////////////////////////////////////////////////////" +:+ LF;
   "// GMSH documentation:" +:+ LF;
   "// http://gmsh.info/doc/texinfo/gmsh.html#Mesh" +:+ LF;
   "//" +:+ LF;
   "// We do not check if something went wrong, like negative jacobians etc. You can run GMSH manually yourself: " +:+ LF;
   "//" +:+ LF;
   "// to see full GMSH log, run in bash:" +:+ LF;
   "// " +:+ bin +:+ " - " +:+ path +:+ LF;
   "//" +:+ LF;
   "// to run GMSH and keep file in GMSH GUI (with log), run in bash:" +:+ LF;
   "// " +:+ bin +:+ " " +:+ path +:+ LF].

(** [if self.ele_length_map: ...] *)
Definition write_characteristic_lengths : M (list string) :=
  s <- get ;;
  if decide (ele_length_map s = ∅) then ret []
  else
    lines <- characteristic_lengths (ele_node_map s) (map_to_list (ele_length_map s)) ;;
    ret (["// Characteristic Length according CharacteristicLengthMap" +:+ LF]
         ++ lines ++ [LF]).

Definition write_geo (scaling : bool) : M unit :=
  path <- getattr "temp_file_geo" temp_file_geo ;;
  (if open_for_writing H path then emit (OpenGeo path) else raise (IOError path)) ;;;
  geometry <- getattr "temp_file_geometry" temp_file_geometry ;;
  lengths <- write_characteristic_lengths ;;
  groups <- write_group ;;
  layers <- write_boundary_layer ;;
  s <- get ;;
  match supported_mesh_output_formats !! OutputFormat (mesh_obj s) with
  | None => raise (KeyError (OutputFormat (mesh_obj s)))
  | Some code =>
      mesh <- getattr "temp_file_mesh" temp_file_mesh ;;
      bin <- getattr "gmsh_bin" gmsh_bin ;;
      emit (CloseGeo path
              (geo_merge geometry ++ geo_scaling scaling ++ lengths ++ groups ++ layers
               ++ geo_sizes s ++ geo_recombine s ++ geo_optimize s ++ geo_algorithm s
               ++ geo_meshing s ++ geo_output code mesh bin path))
  end.

(** ** [run_gmsh_with_geo]

    [Spawn] records a process that was started.  The exit status of the
    process is not looked at.  [self.gmsh_command] is read in the handler
    and is assigned nowhere in the class. *)

Definition run_gmsh_with_geo : M string :=
  modify (set_error false) ;;;
  bin <- getattr "gmsh_bin" gmsh_bin ;;
  geo <- getattr "temp_file_geo" temp_file_geo ;;
  let comandlist := [bin; "-"; geo] in
  try_except
    (match run_process H comandlist with
     | None => raise (HostError "Popen")
     | Some (_, output, error) => emit (Spawn comandlist) ;;; ret error
     end)
    (gmsh_command <- getattr "gmsh_command" (fun _ => @None string) ;;
     let error := "Error executing: " +:+ gmsh_command +:+ LF in
     emit (PrintError error) ;;;
     modify (set_error true) ;;;
     ret error).

(** ** [read_and_set_new_mesh]

    [FemRead] records a call of [Fem.read]. *)

Definition read_and_set_new_mesh : M unit :=
  s <- get ;;
  (if negb (error s) then
     mesh <- getattr "temp_file_mesh" temp_file_mesh ;;
     emit (FemRead mesh) ;;;
     match Fem_read H mesh with
     | None => raise (HostError "Fem.read")
     | Some fem_mesh =>
         modify (fun s => set_mesh_obj (set_FemMesh fem_mesh (mesh_obj s)) s) ;;;
         emit (Print "  The Part should have a pretty new FEM mesh!")
     end
   else emit (Print "No mesh was created.")) ;;;
  _ <- getattr "temp_file_geometry" temp_file_geometry ;;
  modify (set_temp_file_geometry None) ;;;
  _ <- getattr "temp_file_mesh" temp_file_mesh ;;
  modify (set_temp_file_mesh None).

(** ** [create_mesh] *)

Definition create_mesh : M string :=
  s <- get ;;
  emit (Print (LF +:+ "We gone start GMSH FEM mesh run!")) ;;;
  emit (Print ("  Part to mesh: Name --> " +:+ Name (part_obj s) +:+ ",  Label --> "
               +:+ Label (part_obj s) +:+ ", ShapeType --> "
               +:+ ShapeType (Shape_ (part_obj s)))) ;;;
  emit (Print ("  CharacteristicLengthMax: " +:+ str_float H (clmax s))) ;;;
  emit (Print ("  CharacteristicLengthMin: " +:+ str_float H (clmin s))) ;;;
  emit (Print ("  ElementOrder: " +:+ order s)) ;;;
  get_dimension ;;;
  get_tmp_file_paths ;;;
  get_gmsh_command ;;;
  get_group_data ;;;
  get_region_data ;;;
  get_boundary_layer_data ;;;
  write_part_file ;;;
  write_geo false ;;;
  error <- run_gmsh_with_geo ;;
  read_and_set_new_mesh ;;;
  ret error.

(** ** [export_mesh] *)

Definition export_mesh (output_format : string) (output_filestring : option string)
    (scaling : bool) : M (option string) :=
  s <- get ;;
  let _output_format := OutputFormat (mesh_obj s) in
  try_finally
    (modify (fun s => set_mesh_obj (set_OutputFormat output_format (mesh_obj s)) s) ;;;
     get_dimension ;;;
     get_tmp_file_paths ;;;
     get_gmsh_command ;;;
     get_group_data ;;;
     get_region_data ;;;
     get_boundary_layer_data ;;;
     write_part_file ;;;
     write_geo true ;;;
     error <- run_gmsh_with_geo ;;
     if negb (String.eqb error "") then
       emit (Print ("Gmsh has error during mesh generation for " +:+ output_format)) ;;;
       ret None
     else
       output_filename <- getattr "temp_file_mesh" temp_file_mesh ;;
       emit (Print ("Gmsh has generated mesh format `" +:+ output_format
                    +:+ "` into file: " +:+ output_filename)) ;;;
       match output_filestring with
       | Some dst =>
           if String.eqb dst "" then ret (Some output_filename)
           else if shutil_move H output_filename dst
                then emit (Move output_filename dst) ;;; ret (Some dst)
                else raise (HostError "shutil.move")
       | None => ret (Some output_filename)
       end)
    (modify (fun s => set_mesh_obj (set_OutputFormat _output_format (mesh_obj s)) s)).

End Methods.

(** * Definitions used by the statements *)

(** The script that a run wrote: the text of the [CloseGeo] events. *)
Definition script (s : FemGmshTools) : list string :=
  concat (map (fun e => match e with CloseGeo _ text => text | _ => [] end) (trace s)).

(** The processes that a run started. *)
Definition spawned (s : FemGmshTools) : list (list string) :=
  concat (map (fun e => match e with Spawn cmd => [cmd] | _ => [] end) (trace s)).

(** The files that a run handed to [Fem.read]. *)
Definition mesh_reads (s : FemGmshTools) : list string :=
  concat (map (fun e => match e with FemRead path => [path] | _ => [] end) (trace s)).

(** The names of the 2D and of the 3D algorithms that [__init__] knows. *)
Definition known_mesh_algorithm_2D : list string :=
  ["Automatic"; "MeshAdapt"; "Delaunay"; "Frontal"; "BAMG"; "DelQuad"].

Definition known_mesh_algorithm_3D : list string :=
  ["Automatic"; "Delaunay"; "New Delaunay"; "Frontal"; "Frontal Delaunay";
   "Frontal Hex"; "MMG3D"; "R-tree"].

Definition known_element_orders : list string := ["1st"; "2nd"].

(** The shape types from which [get_dimension] derives a dimension that can
    be meshed; a [Vertex] and every type it does not know are left. *)
Definition meshable_shape_types : list string :=
  ["Solid"; "CompSolid"; "Face"; "Shell"; "Edge"; "Wire"; "Compound"].

(** [create_mesh] after [get_dimension]. *)
Definition create_mesh_after_dimension (H : Host) : M string :=
  get_tmp_file_paths H ;;;
  get_gmsh_command H ;;;
  get_group_data H ;;;
  get_region_data H ;;;
  get_boundary_layer_data H ;;;
  write_part_file H ;;;
  write_geo H false ;;;
  error <- run_gmsh_with_geo H ;;
  read_and_set_new_mesh H ;;;
  ret error.

(** ** Boundary layers, writers and what the stages keep *)

(** The sum of [r^i] for [i] from [0] to [n - 1]. *)
Fixpoint geometric_sum (r : Q) (n : nat) : Q :=
  match n with
  | O => 0
  | S k => geometric_sum r k + r ^ Z.of_nat k
  end.

(** The boundary layer objects that get a setting. *)
Definition bl_used (mr : MeshBoundaryLayer) : bool :=
  Qlt_bool 0 (MinimumThickness mr)
  && match bl_References mr with [] => false | _ :: _ => true end.

(** What a setting holds of the object it was made for. *)
Definition setting_of (clmax : Q) (mr : MeshBoundaryLayer) (st : setting) : Prop :=
  hwall_n st = MinimumThickness mr /\
  ratio st = GrowthRate mr /\
  thickness st = layer_thickness (MinimumThickness mr) (GrowthRate mr) (NumberOfLayers mr) /\
  hwall_t st = thickness st /\
  hfar st = far_size clmax (thickness st).

Definition is_print (e : event) : Prop :=
  match e with
  | Print _ | PrintValue _ | PrintError _ | PrintLog _ => True
  | _ => False
  end.

(** A method that changes nothing of the instance and only prints. *)
Definition only_prints {A} (m : M A) : Prop :=
  forall s, exists es, snd (m s) = set_trace (trace s ++ es) s /\ Forall is_print es.

(** What no stage after [__init__] changes, and the trace, which only
    grows. *)
Definition kept (s s' : FemGmshTools) : Prop :=
  algorithm2D s' = algorithm2D s /\
  algorithm3D s' = algorithm3D s /\
  exists es, trace s' = trace s ++ es.

(** The same, for the stages that leave the dimension as it is. *)
Definition kept_with_dimension (s s' : FemGmshTools) : Prop :=
  kept s s' /\ dimension s' = dimension s.

(** A method whose runs are all related by [R]. *)
Definition respects (R : FemGmshTools -> FemGmshTools -> Prop) {A} (m : M A) : Prop :=
  forall s, R s (snd (m s)).

(** ** A host and documents to run the methods on *)

Module Demo.

(** A stand-in for [str] of a float: the reduced fraction. *)
Definition str_fraction (x : Q) : string :=
  str_int (Qnum (Qred x)) +:+ "/" +:+ str_int (Z.pos (Qden (Qred x))).

(** A Linux host whose preferences name no binary; [process] is what
    starting the mesher gives. *)
Definition host (process : option (Z * string * string)) : Host :=
  {| system := "Linux";
     gettempdir := "/tmp";
     getHomePath := "/usr/";
     UseStandardGmshLocation := false;
     gmshBinaryPath := "";
     UserSchema := 0;
     which_gmsh := (0%Z, "/usr/bin/gmsh");
     isSame := fun a b => Nat.eqb (TShape a) (TShape b);
     find_element := fun _ _ _ => None;
     get_vertexes_by_element := fun _ _ => [0%Z; 1%Z; 2%Z; 3%Z];
     get_mesh_group_elements := fun _ _ => ∅;
     get_analysis_group_elements := fun _ _ => ∅;
     exportBrep := fun _ _ => true;
     open_for_writing := fun _ => true;
     run_process := fun _ => process;
     Fem_read := fun _ => Some 1%nat;
     shutil_move := fun _ _ => true;
     str_float := str_fraction |}.

Definition part (shape_type : string) : DocumentObject :=
  {| Name := "Box"; Label := "Box";
     Shape_ := {| ShapeType := shape_type; TShape := 1 |};
     Proxy := None |}.

Definition region (name : string) (length : Q) (elements : list string) : MeshRegion :=
  {| mr_Name := name; CharacteristicLength := length;
     mr_References := [(part "Solid", elements)] |}.

Definition layer (name : string) (h r : Q) (n : Z) (elements : list string)
  : MeshBoundaryLayer :=
  {| bl_Name := name; MinimumThickness := h; GrowthRate := r; NumberOfLayers := n;
     bl_References := [(part "Solid", elements)] |}.

Definition mesh (shape_type order dimension algorithm : string) (clmax : Q)
    (regions : list MeshRegion) (layers : list MeshBoundaryLayer) : MeshObject :=
  {| Part := part shape_type;
     CharacteristicLengthMax := clmax;
     CharacteristicLengthMin := 0;
     GeometryTolerance := 0;
     ElementOrder := order;
     ElementDimension := dimension;
     Algorithm2D := algorithm;
     Algorithm3D := "Automatic";
     OutputFormat := "I-Deas universal";
     MeshGroupList := [];
     MeshRegionList := regions;
     MeshBoundaryLayerList := layers;
     RecombineAll := Some false;
     OptimizeStd := Some true;
     OptimizeNetgen := None;
     HighOrderOptimize := Some false;
     CoherenceMesh := Some true;
     FemMesh := 0%nat |}.

(** A solid with two regions that share [Face2] and a boundary layer of
    5 layers, first layer 0.1, growth 1.2, that names [Face1] twice. *)
Definition box_mesh : MeshObject :=
  mesh "Solid" "2nd" "From Shape" "Automatic" 1
    [region "R1" 0.5 ["Face1"; "Face2"]; region "R2" 0.25 ["Face2"; "Face3"]]
    [layer "BL1" 0.1 1.2 5 ["Face1"; "Face2"; "Face1"];
     layer "BL2" 0.2 1 3 ["Face2"; "Face4"]].

(** A single vertex, the dimension to be derived from the shape. *)
Definition vertex_mesh : MeshObject :=
  mesh "Vertex" "1st" "From Shape" "Automatic" 1 [] [].

(** An element order and an algorithm name that [__init__] does not know. *)
Definition odd_mesh : MeshObject :=
  mesh "Solid" "3rd" "3D" "Netgen" 1 [] [].

(** The host [h] with an analysis whose members make [groups]. *)
Definition with_groups (groups : gmap string (list string)) (h : Host) : Host :=
  {| system := system h;
     gettempdir := gettempdir h;
     getHomePath := getHomePath h;
     UseStandardGmshLocation := UseStandardGmshLocation h;
     gmshBinaryPath := gmshBinaryPath h;
     UserSchema := UserSchema h;
     which_gmsh := which_gmsh h;
     isSame := isSame h;
     find_element := find_element h;
     get_vertexes_by_element := get_vertexes_by_element h;
     get_mesh_group_elements := get_mesh_group_elements h;
     get_analysis_group_elements := fun _ _ => groups;
     exportBrep := exportBrep h;
     open_for_writing := open_for_writing h;
     run_process := run_process h;
     Fem_read := Fem_read h;
     shutil_move := shutil_move h;
     str_float := str_float h |}.

(** A 3D instance with one group of two faces, and one with a group of
    one solid. *)
Definition wall_state : FemGmshTools :=
  set_group_elements {[ "Wall" := ["Face1"; "Face2"] ]}
    (set_dimension "3" (init box_mesh None)).

Definition body_state : FemGmshTools :=
  set_group_elements {[ "Body" := ["Solid1"] ]}
    (set_dimension "3" (init box_mesh None)).

End Demo.

(** ** Claims of elements *)

(** The pairs [(sub[0], elems)] that the two inner loops walk through. *)
Definition flat_references (refs : list reference) : list (DocumentObject * string) :=
  concat (map (fun sub : reference => map (pair (fst sub)) (snd sub)) refs).

(** The elements that a mesh region claims, as resolved in the shape to mesh. *)
Definition region_elements (H : Host) (part : DocumentObject) (mr : MeshRegion) : list string :=
  map (fun p => fst (resolve_element H part (region_not_found mr) (fst p) (snd p)))
    (flat_references (mr_References mr)).

Definition region_used (mr : MeshRegion) : bool :=
  negb (Qeq_bool (CharacteristicLength mr) 0)
  && match mr_References mr with [] => false | _ :: _ => true end.

(** The elements that a boundary layer object claims, as resolved in the
    shape to mesh. *)
Definition bl_elements (H : Host) (part : DocumentObject) (mr : MeshBoundaryLayer)
  : list string :=
  map (fun p => fst (resolve_element H part (bl_not_found mr) (fst p) (snd p)))
    (flat_references (bl_References mr)).

(** The boundary list of a setting, under whichever key it is stored. *)
Definition setting_elements (st : setting) : list string :=
  match EdgesList st, FacesList st with
  | Some edges, _ => edges
  | None, Some faces => faces
  | None, None => []
  end.

(** The dimensions for which a setting stores its boundary list. *)
Definition layered_dimension (dimension : string) : bool :=
  String.eqb dimension "2" || String.eqb dimension "3".

(** What holds of the lists between two passes of the loop. *)
Definition bl_invariant (dimension : string) (acc : bl_acc) : Prop :=
  NoDup (acc_boundary_list acc) /\
  concat (map setting_elements (acc_settings acc))
  = if layered_dimension dimension then acc_boundary_list acc else [].

(** ** Groups and domains *)

(** A group that makes [write_group] count a domain: a group of solids
    when the dimension is ["3"], a group of faces when it is ["2"]. *)
Definition domain_group (dimension : string) (gdata : list string) : bool :=
  match gdata with
  | [] => false
  | first :: _ =>
      (startswith "Solid" first && String.eqb dimension "3")
      || (startswith "Face" first && String.eqb dimension "2")
  end.

(** A line that declares a physical entity. *)
Definition physical (line : string) : bool := startswith "Physical " line.

(** The accumulator of the loop of [write_group] before its first pass. *)
Definition group_acc_start : group_acc :=
  {| boundaries := 0; domains := 0; group_text := ["// group data " +:+ LF] |}.

(** ** Definitions for the further properties *)

(** The dimensions that [ElementDimension] can ask for, and those that
    [get_dimension] resolves them to. *)
Definition known_element_dimensions : list string := ["From Shape"; "1D"; "2D"; "3D"].

Definition resolved_dimensions : list string := ["0"; "1"; "2"; "3"].


(** The characters of a string. *)
Definition chars (s : string) : list ascii := list_ascii_of_string s.

(** The binary that [get_gmsh_command] falls back to when the preferences
    name none. *)
Definition default_gmsh_bin (H : Host) : string :=
  if String.eqb (system H) "Windows" then getHomePath H +:+ "bin/gmsh.exe" else "gmsh".

(** The groups of the mesh group objects, a name going to the first object
    of the list that has it. *)
Definition mesh_group_elements (H : Host) (part : DocumentObject) (groups : list MeshGroup)
  : gmap string (list string) :=
  fold_left (fun acc mg => acc ∪ get_mesh_group_elements H mg part) groups ∅.

(** The groups of the members of the analysis. *)
Definition analysis_group_elements (H : Host) (part : DocumentObject)
    (an : option Analysis) : gmap string (list string) :=
  match an with
  | Some a => get_analysis_group_elements H a part
  | None => ∅
  end.

(** How many times [get_group_data] reports a name that exists already. *)
Definition group_reports (es : list event) : nat :=
  count_occ event_eq_dec es (PrintError group_exists).


(** The key under which a setting made for [dimension] stores its boundary
    list: [EdgesList] for ["2"], [FacesList] for ["3"], none otherwise. *)
Definition keyed_for (dimension : string) (st : setting) : Prop :=
  if String.eqb dimension "2" then is_Some (EdgesList st) /\ FacesList st = None
  else if String.eqb dimension "3" then EdgesList st = None /\ is_Some (FacesList st)
  else EdgesList st = None /\ FacesList st = None.


(** A decimal digit, and a number as the names of the elements of a shape
    end in: one digit or more. *)
Definition is_digit (c : ascii) : bool :=
  (48 <=? nat_of_ascii c)%nat && (nat_of_ascii c <=? 57)%nat.

Definition numeral (n : string) : Prop :=
  n <> "" /\ forallb is_digit (chars n) = true.

(** [', '.join(xs)] *)
Fixpoint comma_separated (xs : list string) : string :=
  match xs with
  | [] => ""
  | [x] => x
  | x :: rest => x +:+ ", " +:+ comma_separated rest
  end.



(** What the stages before [write_part_file] leave in the trace: prints,
    the lookup of the binary and the preference that is set on Windows. *)
Definition quiet (e : event) : Prop :=
  match e with
  | Print _ | PrintValue _ | PrintError _ | PrintLog _ => True
  | Spawn cmd => cmd = ["which"; "gmsh"]
  | SetString key _ => key = "gmshBinaryPath"
  | _ => False
  end.

(** An event other than a call of [Fem.read]. *)
Definition not_read (e : event) : Prop :=
  match e with
  | FemRead _ => False
  | _ => True
  end.

(** What no stage of a run but the read back changes: the configuration
    that [__init__] left, while the trace grows by events in [P]. *)
Definition configuration_kept (P : event -> Prop) (s s' : FemGmshTools) : Prop :=
  mesh_obj s' = mesh_obj s /\
  analysis s' = analysis s /\
  part_obj s' = part_obj s /\
  clmax s' = clmax s /\
  clmin s' = clmin s /\
  geotol s' = geotol s /\
  order s' = order s /\
  algorithm2D s' = algorithm2D s /\
  algorithm3D s' = algorithm3D s /\
  exists es, trace s' = trace s ++ es /\ Forall P es.

(** The last line that [read_and_set_new_mesh] prints after a read. *)
Definition new_mesh_message : string := "  The Part should have a pretty new FEM mesh!".

(** The text that [write_geo] writes when the writers gave [lengths],
    [groups] and [layers]. *)
Definition geo_text (H : Host) (scaling : bool) (s : FemGmshTools)
    (geometry path mesh bin : string) (code : Z) (lengths groups layers : list string)
  : list string :=
  geo_merge geometry ++ geo_scaling H scaling ++ lengths ++ groups ++ layers
  ++ geo_sizes H s ++ geo_recombine s ++ geo_optimize s ++ geo_algorithm s
  ++ geo_meshing H s ++ geo_output code mesh bin path.

(** The attributes that [run_gmsh_with_geo] reads. *)
Definition run_attributes : list string := ["gmsh_bin"; "temp_file_geo"; "gmsh_command"].

(** * Properties *)



(** ** Boundary layers: thickness and far size *)








Section BoundaryLayerLoop.

Variable H : Host.
Variable part : DocumentObject.
Variable clmax : Q.
Variable dimension : string.

Lemma bl_add_element_settings mr sub0 acc elems :
  acc_settings (bl_add_element H part mr sub0 acc elems) = acc_settings acc.
Proof.
  unfold bl_add_element.
  destruct (resolve_element H part (bl_not_found mr) sub0 elems) as [e found].
  destruct (decide (e ∈ acc_boundary_list acc)); reflexivity.
Qed.

Lemma bl_add_elements_settings mr sub0 elems acc :
  acc_settings (fold_left (bl_add_element H part mr sub0) elems acc) = acc_settings acc.
Proof.
  revert acc. induction elems as [|e elems IH]; intros acc; cbn; [reflexivity|].
  rewrite IH. apply bl_add_element_settings.
Qed.

Lemma bl_add_references_settings mr (refs : list reference) acc :
  acc_settings
    (fold_left
       (fun acc (sub : reference) =>
          fold_left (bl_add_element H part mr (fst sub)) (snd sub) acc) refs acc)
  = acc_settings acc.
Proof.
  revert acc. induction refs as [|sub refs IH]; intros acc; cbn; [reflexivity|].
  rewrite IH. apply bl_add_elements_settings.
Qed.

Lemma make_setting_of mr belem_list :
  setting_of clmax mr (fst (make_setting clmax dimension mr belem_list)).
Proof.
  unfold make_setting, setting_of.
  destruct (String.eqb dimension "2"); [cbn; tauto|].
  destruct (String.eqb dimension "3"); cbn; tauto.
Qed.

Lemma bl_add_settings acc mr :
  exists new,
    acc_settings (bl_add H part clmax dimension acc mr) = acc_settings acc ++ new /\
    Forall2 (setting_of clmax) (List.filter bl_used [mr]) new.
Proof.
  unfold bl_add, bl_used. cbn [List.filter].
  destruct (Qlt_bool 0 (MinimumThickness mr)); cbn [andb].
  - destruct (bl_References mr) as [|sub refs] eqn:Hrefs.
    + exists []. cbn. rewrite app_nil_r. split; [reflexivity|constructor].
    + match goal with
      | |- context [make_setting clmax dimension mr ?b] =>
          pose proof (make_setting_of mr b) as Hof;
          destruct (make_setting clmax dimension mr b) as [st evs]
      end.
      exists [st]. cbn [acc_settings]. split.
      * rewrite bl_add_references_settings. reflexivity.
      * constructor; [exact Hof|constructor].
  - exists []. cbn. rewrite app_nil_r. split; [reflexivity|constructor].
Qed.

Lemma bl_fold_settings layers acc :
  exists new,
    acc_settings (fold_left (bl_add H part clmax dimension) layers acc)
    = acc_settings acc ++ new /\
    Forall2 (setting_of clmax) (List.filter bl_used layers) new.
Proof.
  revert acc. induction layers as [|mr layers IH]; intros acc.
  - exists []. cbn. rewrite app_nil_r. split; [reflexivity|constructor].
  - cbn [fold_left].
    destruct (bl_add_settings acc mr) as (new1 & E1 & F1).
    destruct (IH (bl_add H part clmax dimension acc mr)) as (new2 & E2 & F2).
    exists (new1 ++ new2). split.
    + rewrite E2, E1, app_assoc. reflexivity.
    + change (mr :: layers) with ([mr] ++ layers).
      rewrite List.filter_app. apply Forall2_app; assumption.
Qed.

Lemma bl_loop_settings layers :
  Forall2 (setting_of clmax) (List.filter bl_used layers)
    (acc_settings (bl_loop H part clmax dimension layers)).
Proof.
  unfold bl_loop.
  destruct (bl_fold_settings layers
              {| acc_belem_list := []; acc_boundary_list := [];
                 acc_settings := []; acc_events := [] |}) as (new & E & F).
  rewrite E. exact F.
Qed.

End BoundaryLayerLoop.

(** What [get_boundary_layer_data] leaves in the instance. *)
Lemma get_boundary_layer_data_result (H : Host) (s : FemGmshTools) :
  exists s',
    get_boundary_layer_data H s = (Ok tt, s') /\
    clmax s' = clmax s /\
    dimension s' = dimension s /\
    mesh_obj s' = mesh_obj s /\
    bl_setting_list s' =
      acc_settings (bl_loop H (part_obj s) (clmax s) (dimension s)
                      (MeshBoundaryLayerList (mesh_obj s))) /\
    bl_boundary_list s' =
      acc_boundary_list (bl_loop H (part_obj s) (clmax s) (dimension s)
                           (MeshBoundaryLayerList (mesh_obj s))).
Proof.
  unfold get_boundary_layer_data, bind, modify, get, emit, emits, ret. cbn.
  destruct (MeshBoundaryLayerList (mesh_obj s)) as [|mr layers] eqn:E; cbn.
  - eexists. split; [reflexivity|]. cbn. repeat split; reflexivity.
  - destruct (String.eqb (ShapeType (Shape_ (part_obj s))) "Compound"); cbn;
      (eexists; split; [reflexivity|]; cbn; repeat split; reflexivity).
Qed.

Lemma Forall2_and_left {A B} (P : A -> Prop) (R : A -> B -> Prop) (xs : list A)
    (ys : list B) :
  Forall P xs -> Forall2 R xs ys -> Forall2 (fun a b => P a /\ R a b) xs ys.
Proof.
  intros HP HR. induction HR as [|a b xs ys Hab HR IH].
  - constructor.
  - inversion HP; subst. constructor; [split; assumption|apply IH; assumption].
Qed.



Lemma filter_bl_used (layers : list MeshBoundaryLayer) :
  Forall (fun mr => bl_used mr = true) (List.filter bl_used layers).
Proof.
  apply List.Forall_forall. intros mr Hin.
  apply List.filter_In in Hin. tauto.
Qed.

(** The settings that [get_boundary_layer_data] stores, one per used object
    and in their order. *)
Lemma get_boundary_layer_data_settings (H : Host) (s : FemGmshTools) :
  Forall2 (fun mr st => bl_used mr = true /\ setting_of (clmax s) mr st)
    (List.filter bl_used (MeshBoundaryLayerList (mesh_obj s)))
    (bl_setting_list (snd (get_boundary_layer_data H s))).
Proof.
  destruct (get_boundary_layer_data_result H s) as (s' & E & _ & _ & _ & Hset & _).
  rewrite E. cbn [snd]. rewrite Hset.
  apply Forall2_and_left; [apply filter_bl_used|apply bl_loop_settings].
Qed.





(** Five layers from 0.1 with growth 1.2 are 0.74416 thick, and a [clmax]
    of 1 is inside the range; ten layers of 0.1 with growth 1 are 1 thick;
    at 0.8 and at 1.6 times a thickness of 1 the far size is the thickness,
    between them it is [clmax]. *)
Example layers_of_the_box :
  (layer_thickness 0.1 1.2 5 == 0.74416)%Q /\
  far_size 1 (layer_thickness 0.1 1.2 5) = 1%Q /\
  (layer_thickness 0.1 1 10 == 1)%Q /\
  (layer_thickness 0.1 1.2 (-3) == 0)%Q /\
  far_size 0.8 1 = 1%Q /\
  far_size 1.6 1 = 1%Q /\
  far_size 1.2 1 = 1.2%Q /\
  far_size (resolve_clmax 0) 1 = 1%Q.
Proof. repeat split; vm_compute; reflexivity. Qed.

(** ** Parameter resolution *)

Ltac by_evaluation := compute_done.

(** Splits on the first comparison of a chain of [if String.eqb x name]. *)
Ltac first_name x :=
  match goal with
  | |- context [String.eqb x ?name] =>
      destruct (String.eqb_spec x name) as [?Hname|?Hname]
  end.

Lemma resolve_algorithm2D_unknown (name : string) :
  name ∉ known_mesh_algorithm_2D -> resolve_algorithm2D name = "2".
Proof.
  intros Hn. unfold resolve_algorithm2D.
  repeat (first_name name; [reflexivity || (exfalso; apply Hn; subst name; by_evaluation)|]).
  reflexivity.
Qed.

Lemma resolve_algorithm3D_unknown (name : string) :
  name ∉ known_mesh_algorithm_3D -> resolve_algorithm3D name = "1".
Proof.
  intros Hn. unfold resolve_algorithm3D.
  repeat (first_name name; [reflexivity || (exfalso; apply Hn; subst name; by_evaluation)|]).
  reflexivity.
Qed.

Lemma resolve_order_unknown (name : string) :
  name ∉ known_element_orders ->
  resolve_order name = (name, [Print "Error in order"]).
Proof.
  intros Hn. unfold resolve_order.
  repeat (first_name name; [exfalso; apply Hn; subst name; by_evaluation|]).
  reflexivity.
Qed.

Lemma resolve_order_known (name : string) :
  name ∈ known_element_orders -> snd (resolve_order name) = [].
Proof.
  intros Hn. unfold resolve_order.
  repeat (first_name name; [reflexivity|]).
  exfalso. unfold known_element_orders in Hn.
  apply list_elem_of_In in Hn. cbn in Hn. intuition congruence.
Qed.

(** C8, as the code has it.  [__init__] never raises.  An element order it
    does not know is reported ([Error in order]) and kept as it is: no
    fallback code takes its place.  An algorithm name it does not know is
    not reported: the 2D code falls back to 2 and the 3D code, which is
    looked up under the same name, to 1. *)
Theorem unknown_enums_resolved (m : MeshObject) (an : option Analysis) :
  (ElementOrder m ∉ known_element_orders ->
   order (init m an) = ElementOrder m /\ trace (init m an) = [Print "Error in order"]) /\
  (ElementOrder m ∈ known_element_orders -> trace (init m an) = []) /\
  (Algorithm2D m ∉ known_mesh_algorithm_2D -> algorithm2D (init m an) = "2") /\
  (Algorithm2D m ∉ known_mesh_algorithm_3D -> algorithm3D (init m an) = "1").
Proof.
  cbn [init order trace algorithm2D algorithm3D].
  split; [|split; [|split]].
  - intros Hn. rewrite (resolve_order_unknown _ Hn). split; reflexivity.
  - apply resolve_order_known.
  - apply resolve_algorithm2D_unknown.
  - apply resolve_algorithm3D_unknown.
Qed.

(** C8, as the specification has it, fails: the order ["3rd"] stays
    ["3rd"], which is no order code, and the unknown algorithm of the same
    object, or of one with a known order, is reported nowhere. *)
Lemma unknown_order_is_kept :
  order (init Demo.odd_mesh None) = "3rd" /\
  (order (init Demo.odd_mesh None) ∉ ["1"; "2"]) /\
  trace (init Demo.odd_mesh None) = [Print "Error in order"] /\
  trace (init (Demo.mesh "Solid" "1st" "3D" "Netgen" 1 [] []) None) = [].
Proof.
  split; [reflexivity|]. split; [by_evaluation|]. split; reflexivity.
Qed.

(** ** [export_mesh] and the output format *)

(** C9.  After [export_mesh], whatever format was asked for and whether the
    call returns or a stage raises, the [OutputFormat] of the mesh object is
    what it was before the call. *)
Theorem export_mesh_restores_output_format (H : Host) (output_format : string)
    (output_filestring : option string) (scaling : bool) (s : FemGmshTools) :
  OutputFormat (mesh_obj (snd (export_mesh H output_format output_filestring scaling s)))
  = OutputFormat (mesh_obj s).
Proof.
  unfold export_mesh. unfold bind at 1. unfold get. cbv beta iota.
  unfold try_finally.
  match goal with
  | |- context [match ?body with (r, s') => _ end] => destruct body as [r s1]
  end.
  reflexivity.
Qed.

(** A format without a suffix makes [get_tmp_file_paths] raise inside the
    [try]; a process that cannot be started makes [run_gmsh_with_geo] raise
    after the script was written for the format asked for.  In both runs the
    format of the object is back. *)
Example export_mesh_raises :
  let s := init Demo.box_mesh None in
  let run1 := export_mesh (Demo.host None) "Nastran" None false s in
  let run2 := export_mesh (Demo.host None) "Gmsh MSH" None false s in
  fst run1 = Raise (KeyError "Nastran") /\
  OutputFormat (mesh_obj (snd run1)) = "I-Deas universal" /\
  fst run2 = Raise (AttributeError "gmsh_command") /\
  ("Mesh.Format = 1;" +:+ LF) ∈ script (snd run2) /\
  OutputFormat (mesh_obj (snd run2)) = "I-Deas universal".
Proof.
  cbv zeta. repeat split; try (vm_compute; reflexivity). by_evaluation.
Qed.

(** ** The [Mesh.Algorithm] directive *)

(** [self.dimension] is a string and is compared with the integer [3]: the
    comparison is false for every dimension, so the directive is never the
    fixed algorithm. *)
Lemma mesh_algorithm_configured (s : FemGmshTools) :
  mesh_algorithm s = "Mesh.Algorithm = " +:+ algorithm2D s +:+ ";" +:+ LF.
Proof.
  unfold mesh_algorithm. cbn [py_eq]. rewrite andb_false_r. reflexivity.
Qed.

(** C3 at a solid with two boundary layers: the dimension resolves to
    ["3"], two settings are stored, and the script holds
    [Mesh.Algorithm = 2;], the code of the configured [Automatic], and no
    [Mesh.Algorithm = DelQuad;]. *)
Theorem layer_algorithm_not_overridden :
  let s' := snd (create_mesh (Demo.host (Some (0%Z, "", ""))) (init Demo.box_mesh None)) in
  dimension s' = "3" /\
  length (bl_setting_list s') = 2%nat /\
  ("Mesh.Algorithm = 2;" +:+ LF) ∈ script s' /\
  ("Mesh.Algorithm = DelQuad;" +:+ LF) ∉ script s'.
Proof.
  cbv zeta. repeat split; try (vm_compute; reflexivity); by_evaluation.
Qed.

(** ** The run of the mesher and the read back *)

(** A process that was started: its standard error is returned whatever
    its exit status, and [self.error] stays [False]. *)
Lemma run_gmsh_with_geo_started (H : Host) (s : FemGmshTools) (bin geo : string)
    (status : Z) (output err : string) :
  gmsh_bin s = Some bin ->
  temp_file_geo s = Some geo ->
  run_process H [bin; "-"; geo] = Some (status, output, err) ->
  run_gmsh_with_geo H s
  = (Ok err, set_trace (trace s ++ [Spawn [bin; "-"; geo]]) (set_error false s)).
Proof.
  intros Hbin Hgeo Hrun.
  unfold run_gmsh_with_geo, bind, modify, getattr, try_except, emit, ret, raise.
  cbn. rewrite Hbin. cbn. rewrite Hgeo. cbn. rewrite Hrun. reflexivity.
Qed.

(** A process that cannot be started: the handler reads
    [self.gmsh_command], which does not exist, and the method raises. *)
Lemma run_gmsh_with_geo_not_started (H : Host) (s : FemGmshTools) (bin geo : string) :
  gmsh_bin s = Some bin ->
  temp_file_geo s = Some geo ->
  run_process H [bin; "-"; geo] = None ->
  run_gmsh_with_geo H s = (Raise (AttributeError "gmsh_command"), set_error false s).
Proof.
  intros Hbin Hgeo Hrun.
  unfold run_gmsh_with_geo, bind, modify, getattr, try_except, emit, ret, raise.
  cbn. rewrite Hbin. cbn. rewrite Hgeo. cbn. rewrite Hrun. reflexivity.
Qed.

(** C6 at a mesher that starts, writes an error and ends with exit status
    1: [create_mesh] returns what the mesher wrote to its standard error,
    [self.error] is [False], [Fem.read] is called on the output file and
    the mesh of the object is replaced by what it returns. *)
Theorem failed_run_is_read_back :
  let before := init Demo.box_mesh None in
  let run := create_mesh (Demo.host (Some (1%Z, "", "Error   : Self intersecting surface mesh"))) before in
  fst run = Ok "Error   : Self intersecting surface mesh" /\
  error (snd run) = false /\
  mesh_reads (snd run) = ["/tmp/Box_Mesh_TmpGmsh.unv"] /\
  FemMesh (mesh_obj before) = 0%nat /\
  FemMesh (mesh_obj (snd run)) = 1%nat.
Proof.
  cbv zeta. repeat split; vm_compute; reflexivity.
Qed.

(** When the mesher cannot be started the run ends with the
    [AttributeError] of the handler; nothing is read and the mesh of the
    object is as before. *)
Example unstarted_run_raises :
  let before := init Demo.box_mesh None in
  let run := create_mesh (Demo.host None) before in
  fst run = Raise (AttributeError "gmsh_command") /\
  spawned (snd run) = [] /\
  mesh_reads (snd run) = [] /\
  FemMesh (mesh_obj (snd run)) = FemMesh (mesh_obj before).
Proof.
  cbv zeta. repeat split; vm_compute; reflexivity.
Qed.

(** ** Writers only print *)

Lemma set_trace_same (s : FemGmshTools) : set_trace (trace s) s = s.
Proof. destruct s. reflexivity. Qed.

Lemma only_prints_ret {A} (a : A) : only_prints (ret a).
Proof.
  intros s. exists []. rewrite app_nil_r. cbn. rewrite set_trace_same.
  split; [reflexivity|constructor].
Qed.

Lemma only_prints_raise {A} (e : exn) : only_prints (@raise A e).
Proof.
  intros s. exists []. rewrite app_nil_r. cbn. rewrite set_trace_same.
  split; [reflexivity|constructor].
Qed.

Lemma only_prints_get : only_prints get.
Proof.
  intros s. exists []. rewrite app_nil_r. cbn. rewrite set_trace_same.
  split; [reflexivity|constructor].
Qed.

Lemma only_prints_emits (es : list event) : Forall is_print es -> only_prints (emits es).
Proof. intros Hes s. exists es. split; [reflexivity|exact Hes]. Qed.

Lemma only_prints_emit (e : event) : is_print e -> only_prints (emit e).
Proof.
  intros He s. exists [e]. split; [reflexivity|]. constructor; [exact He|constructor].
Qed.

Lemma only_prints_bind {A B} (m : M A) (k : A -> M B) :
  only_prints m -> (forall a, only_prints (k a)) -> only_prints (bind m k).
Proof.
  intros Hm Hk s. unfold bind.
  destruct (Hm s) as (es1 & E1 & P1).
  destruct (m s) as [[a|e] s1]; cbn [snd] in E1; subst s1.
  - destruct (Hk a (set_trace (trace s ++ es1) s)) as (es2 & E2 & P2).
    exists (es1 ++ es2). rewrite E2. cbn. rewrite app_assoc. split; [reflexivity|].
    apply Forall_app. split; assumption.
  - exists es1. split; [reflexivity|exact P1].
Qed.

Ltac only_prints_step :=
  match goal with
  | |- forall _, _ => intros
  | |- only_prints (bind _ _) => apply only_prints_bind
  | |- only_prints (ret _) => apply only_prints_ret
  | |- only_prints (raise _) => apply only_prints_raise
  | |- only_prints get => apply only_prints_get
  | |- only_prints (emit _) => apply only_prints_emit; exact I
  | |- only_prints (emits []) => apply only_prints_emits; constructor
  | |- only_prints (if ?b then _ else _) => destruct b
  | |- only_prints (match ?x with _ => _ end) => destruct x
  end.

Lemma write_group_entry_prints (dimension group : string) (gdata : list string)
    (first : string) (acc : group_acc) :
  Forall is_print (snd (write_group_entry dimension group gdata first acc)).
Proof.
  unfold write_group_entry.
  repeat match goal with
         | |- context [if ?b then _ else _] => destruct b
         end; cbn; repeat constructor.
Qed.

Lemma write_group_loop_prints (dimension : string) (groups : list (string * list string))
    (acc : group_acc) :
  only_prints (write_group_loop dimension groups acc).
Proof.
  revert acc. induction groups as [|[group gdata] rest IH]; intros acc; cbn [write_group_loop].
  - apply only_prints_ret.
  - apply only_prints_bind; [apply only_prints_emit; exact I|intros _].
    destruct gdata as [|first more]; [apply only_prints_raise|].
    pose proof (write_group_entry_prints dimension group (first :: more) first acc) as Hp.
    destruct (write_group_entry dimension group (first :: more) first acc) as [acc1 evs].
    apply only_prints_bind; [apply only_prints_emits; exact Hp|intros _]. apply IH.
Qed.

Lemma write_group_prints : only_prints write_group.
Proof.
  unfold write_group.
  apply only_prints_bind; [apply only_prints_get|intros s].
  apply only_prints_bind.
  - destruct (decide (group_elements s = ∅)); [apply only_prints_ret|].
    apply write_group_loop_prints.
  - intros acc. unfold write_interior.
    destruct (Nat.eqb (domains acc) 0); repeat only_prints_step.
    apply only_prints_emits. repeat constructor.
Qed.

Lemma write_boundary_layer_prints (H : Host) : only_prints (write_boundary_layer H).
Proof. unfold write_boundary_layer. repeat only_prints_step. Qed.

Lemma write_characteristic_lengths_prints (H : Host) :
  only_prints (write_characteristic_lengths H).
Proof.
  unfold write_characteristic_lengths.
  apply only_prints_bind; [apply only_prints_get|intros s].
  destruct (decide (ele_length_map s = ∅)); [apply only_prints_ret|].
  apply only_prints_bind; [|intros lines; apply only_prints_ret].
  generalize (map_to_list (ele_length_map s)) as lengths.
  induction lengths as [|[e length] rest IH]; cbn [characteristic_lengths].
  - apply only_prints_ret.
  - destruct (ele_node_map s !! e); [|apply only_prints_raise].
    apply only_prints_bind; [exact IH|intros lines]. apply only_prints_ret.
Qed.

Lemma only_prints_run {A} (m : M A) (s : FemGmshTools) :
  only_prints m -> exists r es, m s = (r, set_trace (trace s ++ es) s) /\ Forall is_print es.
Proof.
  intros Hm. destruct (Hm s) as (es & E & P).
  destruct (m s) as [r s1]. cbn in E. subst s1. eauto.
Qed.

Lemma set_trace_set_trace (t t' : list event) (s : FemGmshTools) :
  set_trace t (set_trace t' s) = set_trace t s.
Proof. reflexivity. Qed.

(** What [write_geo] leaves when it returns: the instance as it was, and a
    trace that grew by prints, the opening of the script file and its text,
    part by part. *)
Lemma write_geo_text (H : Host) (scaling : bool) (s s' : FemGmshTools) :
  write_geo H scaling s = (Ok tt, s') ->
  exists es path geometry lengths groups layers code mesh bin t1 t2 t3,
    s' = set_trace
           (trace s ++ es ++
            [CloseGeo path
               (geo_merge geometry ++ geo_scaling H scaling ++ lengths ++ groups
                ++ layers ++ geo_sizes H s ++ geo_recombine s ++ geo_optimize s
                ++ geo_algorithm s ++ geo_meshing H s
                ++ geo_output code mesh bin path)]) s /\
    Forall (fun e => is_print e \/ e = OpenGeo path) es /\
    temp_file_geo s = Some path /\
    fst (write_characteristic_lengths H (set_trace t1 s)) = Ok lengths /\
    fst (write_group (set_trace t2 s)) = Ok groups /\
    fst (write_boundary_layer H (set_trace t3 s)) = Ok layers.
Proof.
  unfold write_geo. intros Hrun.
  unfold bind at 1, getattr at 1 in Hrun.
  destruct (temp_file_geo s) as [path|] eqn:Hpath; [|discriminate].
  unfold bind at 1 in Hrun.
  destruct (open_for_writing H path); [|discriminate].
  unfold emit at 1, modify at 1 in Hrun.
  unfold bind at 1, getattr at 1 in Hrun. cbn [temp_file_geometry set_trace] in Hrun.
  destruct (temp_file_geometry s) as [geometry|] eqn:Hgeometry; [|discriminate].
  unfold bind at 1 in Hrun.
  match type of Hrun with
  | context [write_characteristic_lengths H ?s1] =>
      destruct (only_prints_run _ s1 (write_characteristic_lengths_prints H))
        as (r1 & es1 & E1 & P1); rewrite E1 in Hrun
  end.
  destruct r1 as [lengths|]; [|discriminate].
  unfold bind at 1 in Hrun.
  match type of Hrun with
  | context [write_group ?s1] =>
      destruct (only_prints_run _ s1 write_group_prints)
        as (r2 & es2 & E2 & P2); rewrite E2 in Hrun
  end.
  destruct r2 as [groups|]; [|discriminate].
  unfold bind at 1 in Hrun.
  match type of Hrun with
  | context [write_boundary_layer H ?s1] =>
      destruct (only_prints_run _ s1 (write_boundary_layer_prints H))
        as (r3 & es3 & E3 & P3); rewrite E3 in Hrun
  end.
  destruct r3 as [layers|]; [|discriminate].
  unfold bind at 1, get at 1 in Hrun.
  cbn [mesh_obj set_trace trace] in Hrun.
  destruct (supported_mesh_output_formats !! OutputFormat (mesh_obj s)) as [code|];
    [|discriminate].
  unfold bind at 1, getattr at 1 in Hrun. cbn [temp_file_mesh set_trace] in Hrun.
  destruct (temp_file_mesh s) as [mesh|]; [|discriminate].
  unfold bind at 1, getattr at 1 in Hrun. cbn [gmsh_bin set_trace] in Hrun.
  destruct (gmsh_bin s) as [bin|]; [|discriminate].
  unfold emit, modify in Hrun.
  match type of Hrun with
  | (_, set_trace (_ ++ [CloseGeo _ ?t]) _) = _ => set (text := t) in Hrun
  end.
  injection Hrun as <-.
  rewrite !set_trace_set_trace in E1, E2, E3.
  exists ([OpenGeo path] ++ es1 ++ es2 ++ es3), path, geometry, lengths, groups, layers,
    code, mesh, bin.
  eexists _, _, _.
  split; [|split; [|split; [reflexivity|split; [|split]]]].
  - rewrite !set_trace_set_trace. cbn [trace set_trace].
    rewrite <- !app_assoc. unfold text. reflexivity.
  - apply Forall_app. split; [repeat constructor; right; reflexivity|].
    rewrite !Forall_app. repeat split;
      (eapply List.Forall_impl; [|eassumption]); intros e He; left; exact He.
  - exact (f_equal fst E1).
  - exact (f_equal fst E2).
  - exact (f_equal fst E3).
Qed.

(** The directives and the meshing command are in that text. *)
Lemma write_geo_script (H : Host) (scaling : bool) (s s' : FemGmshTools) :
  write_geo H scaling s = (Ok tt, s') ->
  exists es path text,
    s' = set_trace (trace s ++ es ++ [CloseGeo path text]) s /\
    Forall (fun e => is_print e \/ e = OpenGeo path) es /\
    temp_file_geo s = Some path /\
    mesh_algorithm s ∈ text /\ mesh_algorithm3D s ∈ text /\
    mesh_command s ∈ text.
Proof.
  intros Hrun.
  destruct (write_geo_text H scaling s s' Hrun)
    as (es & path & geometry & lengths & groups & layers & code & mesh & bin
        & t1 & t2 & t3 & Es & Hes & Hpath & _).
  eexists es, path, _. split; [exact Es|]. split; [exact Hes|]. split; [exact Hpath|].
  rewrite !elem_of_app. unfold geo_algorithm, geo_meshing.
  split; [|split].
  - do 8 right. left. set_solver.
  - do 8 right. left. set_solver.
  - do 9 right. left. rewrite !elem_of_app.
    destruct (is_True (CoherenceMesh (mesh_obj s))); set_solver.
Qed.

(** ** Dimension resolution *)

Lemma get_dimension_returns (s : FemGmshTools) : fst (get_dimension s) = Ok tt.
Proof.
  unfold get_dimension, bind, get, modify, emit, ret.
  repeat match goal with
         | |- context [if ?b then _ else _] => destruct b
         end; reflexivity.
Qed.

(** A [Vertex] or a shape type that [get_dimension] does not know: an error
    is printed, the dimension is ["0"], the method returns. *)
Lemma get_dimension_unmeshable (s : FemGmshTools) :
  dimension s = "From Shape" ->
  ShapeType (Shape_ (part_obj s)) ∉ meshable_shape_types ->
  exists msg,
    get_dimension s
    = (Ok tt,
       set_trace (trace s ++ [PrintError msg; Print "  ElementDimension: 0"])
         (set_dimension "0" s)).
Proof.
  intros Hd Hs. unfold get_dimension, bind, get. rewrite Hd. cbn [String.eqb Ascii.eqb].
  change (String.eqb "From Shape" "From Shape") with true. cbv iota.
  repeat match goal with
         | |- context [String.eqb (ShapeType (Shape_ (part_obj s))) ?name] =>
             destruct (String.eqb_spec (ShapeType (Shape_ (part_obj s))) name) as [E|E];
             [first [exfalso; apply Hs; rewrite E; by_evaluation|clear E]|clear E]
         end;
    eexists; unfold emit, modify, bind; cbn; rewrite <- app_assoc; reflexivity.
Qed.

(** ** Claims of elements: the first claim wins *)

Lemma fold_left_references {A} (f : DocumentObject -> A -> string -> A)
    (refs : list reference) (acc : A) :
  fold_left (fun acc (sub : reference) => fold_left (f (fst sub)) (snd sub) acc) refs acc
  = fold_left (fun acc p => f (fst p) acc (snd p)) (flat_references refs) acc.
Proof.
  revert acc. induction refs as [|sub refs IH]; intros acc; [reflexivity|].
  cbn [fold_left]. rewrite IH. unfold flat_references. cbn [map concat].
  rewrite fold_left_app. f_equal.
  generalize (snd sub) as elems. clear. intros elems. revert acc.
  induction elems as [|e elems IH]; intros acc; [reflexivity|]. cbn. apply IH.
Qed.

Section Regions.

Variable H : Host.
Variable part : DocumentObject.

Section OneRegion.

Variable mr : MeshRegion.

Let step (acc : gmap string Q * list event) (p : DocumentObject * string) :=
  region_add_element H part mr (fst p) acc (snd p).
Let resolved (p : DocumentObject * string) : string :=
  fst (resolve_element H part (region_not_found mr) (fst p) (snd p)).

Lemma region_step_lookup acc p e :
  fst (step acc p) !! e
  = match fst acc !! e with
    | Some v => Some v
    | None => if decide (e = resolved p) then Some (CharacteristicLength mr) else None
    end.
Proof.
  unfold step, resolved, region_add_element.
  destruct (resolve_element H part (region_not_found mr) (fst p) (snd p)) as [e0 found].
  cbn [fst]. destruct (fst acc !! e0) eqn:E0; cbn [fst].
  - destruct (fst acc !! e) eqn:Ee; [reflexivity|].
    destruct (decide (e = e0)); [congruence|reflexivity].
  - destruct (decide (e = e0)) as [->|Hne].
    + rewrite lookup_insert_eq, E0. reflexivity.
    + rewrite lookup_insert_ne by congruence. destruct (fst acc !! e); reflexivity.
Qed.



Lemma region_steps_lookup ps acc e :
  fst (fold_left step ps acc) !! e
  = match fst acc !! e with
    | Some v => Some v
    | None => if decide (e ∈ map resolved ps) then Some (CharacteristicLength mr) else None
    end.
Proof.
  revert acc. induction ps as [|p ps IH]; intros acc; cbn [fold_left map].
  - destruct (fst acc !! e); [reflexivity|].
    destruct (decide (e ∈ [])) as [Hin|_]; [|reflexivity]. inversion Hin.
  - rewrite IH, region_step_lookup.
    destruct (fst acc !! e); [reflexivity|].
    destruct (decide (e = resolved p)) as [->|Hne].
    + destruct (decide (resolved p ∈ resolved p :: map resolved ps)) as [_|Hn];
        [reflexivity|]. exfalso. apply Hn. left.
    + destruct (decide (e ∈ map resolved ps)) as [Hin|Hn];
        destruct (decide (e ∈ resolved p :: map resolved ps)) as [Hin'|Hn'];
        try reflexivity.
      * exfalso. apply Hn'. right. exact Hin.
      * exfalso. apply elem_of_cons in Hin' as [?|?]; [congruence|contradiction].
Qed.



End OneRegion.

(** One pass of the loop over the regions. *)
Lemma region_add_unused acc mr :
  region_used mr = false ->
  fst (region_add H part acc mr) = fst acc /\
  exists evs, snd (region_add H part acc mr) = snd acc ++ evs.
Proof.
  unfold region_used, region_add. intros Hu.
  destruct (negb (Qeq_bool (CharacteristicLength mr) 0)); cbn [andb] in Hu.
  - destruct (mr_References mr); [|discriminate]. cbn. eauto.
  - cbn. eauto.
Qed.

Lemma region_add_used acc mr :
  region_used mr = true ->
  region_add H part acc mr
  = fold_left (fun acc p => region_add_element H part mr (fst p) acc (snd p))
      (flat_references (mr_References mr)) acc.
Proof.
  unfold region_used, region_add. intros Hu.
  destruct (negb (Qeq_bool (CharacteristicLength mr) 0)); [|discriminate].
  destruct (mr_References mr) as [|sub refs] eqn:E; [discriminate|].
  rewrite <- E. apply (fold_left_references (region_add_element H part mr)).
Qed.

Lemma region_add_lookup acc mr e :
  fst (region_add H part acc mr) !! e
  = match fst acc !! e with
    | Some v => Some v
    | None =>
        if decide (region_used mr = true /\ e ∈ region_elements H part mr)
        then Some (CharacteristicLength mr) else None
    end.
Proof.
  destruct (region_used mr) eqn:Hu.
  - rewrite (region_add_used _ _ Hu), region_steps_lookup.
    destruct (fst acc !! e); [reflexivity|]. unfold region_elements.
    repeat case_decide; try reflexivity; tauto.
  - destruct (region_add_unused acc mr Hu) as [-> _].
    destruct (fst acc !! e); [reflexivity|].
    case_decide; [|reflexivity]. destruct H0. discriminate.
Qed.








End Regions.

Section Layers.

Variable H : Host.
Variable part : DocumentObject.
Variable clmax : Q.
Variable dimension : string.

Section OneLayer.

Variable mr : MeshBoundaryLayer.

Let step (acc : bl_acc) (p : DocumentObject * string) :=
  bl_add_element H part mr (fst p) acc (snd p).
Let resolved (p : DocumentObject * string) : string :=
  fst (resolve_element H part (bl_not_found mr) (fst p) (snd p)).

Lemma bl_step_cases acc p :
  (resolved p ∈ acc_boundary_list acc /\
   acc_belem_list (step acc p) = acc_belem_list acc /\
   acc_boundary_list (step acc p) = acc_boundary_list acc /\
   PrintError (bl_duplicate mr (resolved p)) ∈ acc_events (step acc p)) \/
  ((resolved p ∉ acc_boundary_list acc) /\
   acc_belem_list (step acc p) = acc_belem_list acc ++ [resolved p] /\
   acc_boundary_list (step acc p) = acc_boundary_list acc ++ [resolved p]).
Proof.
  unfold step, resolved, bl_add_element.
  destruct (resolve_element H part (bl_not_found mr) (fst p) (snd p)) as [e0 found].
  cbn [fst]. destruct (decide (e0 ∈ acc_boundary_list acc)) as [Hin|Hn]; cbn.
  - left. repeat split; try assumption.
    rewrite !elem_of_app. right. right. apply list_elem_of_singleton. reflexivity.
  - right. repeat split; assumption.
Qed.



(** What the loops over the references of one object append: the elements
    that were not claimed before, each once. *)
Lemma bl_steps_new ps acc :
  NoDup (acc_boundary_list acc) ->
  exists new,
    acc_belem_list (fold_left step ps acc) = acc_belem_list acc ++ new /\
    acc_boundary_list (fold_left step ps acc) = acc_boundary_list acc ++ new /\
    NoDup (acc_boundary_list acc ++ new) /\
    (forall e, e ∈ new <-> e ∈ map resolved ps /\ e ∉ acc_boundary_list acc).
Proof.
  revert acc. induction ps as [|p ps IH]; intros acc Hnd; cbn [fold_left map].
  - exists []. rewrite !app_nil_r.
    split; [reflexivity|]. split; [reflexivity|]. split; [exact Hnd|].
    intros e. split; [intros Hin; inversion Hin|intros [Hin _]; inversion Hin].
  - destruct (bl_step_cases acc p) as [(Hin & Hb & HB & _)|(Hn & Hb & HB)].
    + destruct (IH (step acc p)) as (new & E1 & E2 & Hnd' & Hnew).
      { rewrite HB. exact Hnd. }
      rewrite Hb in E1. rewrite HB in E2, Hnd', Hnew.
      exists new.
      split; [exact E1|]. split; [exact E2|]. split; [exact Hnd'|].
      intros e. rewrite Hnew. split.
      * intros [Hc Hfree]. split; [right; exact Hc|exact Hfree].
      * intros [Hc Hfree]. split; [|exact Hfree].
        apply elem_of_cons in Hc as [->|Hc]; [contradiction|exact Hc].
    + destruct (IH (step acc p)) as (new & E1 & E2 & Hnd' & Hnew).
      { rewrite HB. apply NoDup_app. split; [exact Hnd|]. split.
        - intros x Hx Hx'. apply list_elem_of_singleton in Hx'. subst x. contradiction.
        - apply NoDup_singleton. }
      rewrite Hb in E1. rewrite HB in E2, Hnd', Hnew.
      exists (resolved p :: new).
      rewrite <- app_assoc in E1, E2, Hnd'. cbn [app] in E1, E2, Hnd'.
      split; [exact E1|]. split; [exact E2|]. split; [exact Hnd'|].
      intros e. split.
      * intros He. apply elem_of_cons in He as [->|He].
        -- split; [left|exact Hn].
        -- apply Hnew in He as [Hc Hfree]. split; [right; exact Hc|].
           intros Hc'. apply Hfree. apply elem_of_app. left. exact Hc'.
      * intros [Hc Hfree].
        destruct (decide (e = resolved p)) as [->|Hne]; [left|]. right.
        apply Hnew. split.
        -- apply elem_of_cons in Hc as [?|Hc]; [contradiction|exact Hc].
        -- intros Hc'. apply elem_of_app in Hc' as [?|Hc']; [contradiction|].
           apply list_elem_of_singleton in Hc'. contradiction.
Qed.


End OneLayer.

Lemma make_setting_elements (mr : MeshBoundaryLayer) (belem_list : list string) :
  setting_elements (fst (make_setting clmax dimension mr belem_list))
  = if layered_dimension dimension then belem_list else [].
Proof.
  unfold make_setting, layered_dimension, setting_elements.
  destruct (String.eqb dimension "2"); [reflexivity|].
  destruct (String.eqb dimension "3"); reflexivity.
Qed.

Lemma bl_add_unused acc mr :
  bl_used mr = false ->
  acc_boundary_list (bl_add H part clmax dimension acc mr) = acc_boundary_list acc /\
  acc_settings (bl_add H part clmax dimension acc mr) = acc_settings acc /\
  exists evs, acc_events (bl_add H part clmax dimension acc mr) = acc_events acc ++ evs.
Proof.
  unfold bl_used, bl_add. intros Hu.
  destruct (Qlt_bool 0 (MinimumThickness mr)); cbn [andb] in Hu.
  - destruct (bl_References mr); [|discriminate]. cbn. eauto.
  - cbn. eauto.
Qed.

(** One pass of the loop over the boundary layer objects, for an object
    that is used. *)
Lemma bl_add_used acc mr :
  bl_used mr = true ->
  exists acc1 st evs,
    acc1 = fold_left (fun acc p => bl_add_element H part mr (fst p) acc (snd p))
             (flat_references (bl_References mr))
             {| acc_belem_list := [];
                acc_boundary_list := acc_boundary_list acc;
                acc_settings := acc_settings acc;
                acc_events := acc_events acc |} /\
    st = fst (make_setting clmax dimension mr (acc_belem_list acc1)) /\
    acc_boundary_list (bl_add H part clmax dimension acc mr) = acc_boundary_list acc1 /\
    acc_settings (bl_add H part clmax dimension acc mr) = acc_settings acc ++ [st] /\
    acc_events (bl_add H part clmax dimension acc mr) = acc_events acc1 ++ evs.
Proof.
  unfold bl_used, bl_add. intros Hu.
  destruct (Qlt_bool 0 (MinimumThickness mr)); [|discriminate].
  destruct (bl_References mr) as [|sub refs] eqn:E; [discriminate|].
  rewrite <- E.
  rewrite (fold_left_references (bl_add_element H part mr)).
  match goal with
  | |- context [make_setting clmax dimension mr ?b] =>
      destruct (make_setting clmax dimension mr b) as [st evs] eqn:Est
  end.
  eexists _, st, evs. split; [reflexivity|]. cbn [acc_boundary_list acc_settings acc_events].
  rewrite Est. split; [reflexivity|]. split; [reflexivity|]. split; [|reflexivity].
  rewrite <- (fold_left_references (bl_add_element H part mr)).
  rewrite bl_add_references_settings. reflexivity.
Qed.



Lemma bl_add_used_lists acc mr :
  bl_used mr = true ->
  bl_invariant dimension acc ->
  exists new st,
    acc_boundary_list (bl_add H part clmax dimension acc mr) = acc_boundary_list acc ++ new /\
    acc_settings (bl_add H part clmax dimension acc mr) = acc_settings acc ++ [st] /\
    setting_elements st = (if layered_dimension dimension then new else []) /\
    setting_of clmax mr st /\
    NoDup (acc_boundary_list acc ++ new) /\
    (forall e, e ∈ new <-> e ∈ bl_elements H part mr /\ e ∉ acc_boundary_list acc).
Proof.
  intros Hu [Hnd _].
  destruct (bl_add_used acc mr Hu) as (acc1 & st & evs & E1 & Est & EB & ES & _).
  match type of E1 with
  | _ = fold_left ?f ?ps ?a =>
      destruct (bl_steps_new mr ps a Hnd) as (new & Hb & HB & Hnd' & Hnew)
  end.
  rewrite <- E1 in Hb, HB. cbn [acc_belem_list acc_boundary_list app] in Hb, HB, Hnd', Hnew.
  exists new, st. rewrite EB, HB, ES.
  split; [reflexivity|]. split; [reflexivity|]. split.
  { rewrite Est, Hb. apply make_setting_elements. }
  split; [rewrite Est; apply make_setting_of|].
  split; [exact Hnd'|exact Hnew].
Qed.

Lemma bl_add_invariant acc mr :
  bl_invariant dimension acc -> bl_invariant dimension (bl_add H part clmax dimension acc mr).
Proof.
  intros Hinv. destruct (bl_used mr) eqn:Hu.
  - destruct (bl_add_used_lists acc mr Hu Hinv) as (new & st & EB & ES & Est & _ & Hnd & _).
    destruct Hinv as [_ Hcat]. unfold bl_invariant. rewrite EB, ES.
    split; [exact Hnd|].
    rewrite map_app, concat_app, Hcat. cbn [map concat]. rewrite app_nil_r, Est.
    destruct (layered_dimension dimension); reflexivity.
  - destruct (bl_add_unused acc mr Hu) as (EB & ES & _).
    unfold bl_invariant. rewrite EB, ES. exact Hinv.
Qed.

Lemma bl_fold_invariant layers acc :
  bl_invariant dimension acc -> bl_invariant dimension (fold_left (bl_add H part clmax dimension) layers acc).
Proof.
  revert acc. induction layers as [|mr layers IH]; intros acc Hinv; cbn [fold_left].
  - exact Hinv.
  - apply IH, bl_add_invariant, Hinv.
Qed.

(** The elements claimed so far are those of the used objects so far. *)
Lemma bl_fold_boundary layers acc e :
  bl_invariant dimension acc ->
  e ∈ acc_boundary_list (fold_left (bl_add H part clmax dimension) layers acc) <->
  e ∈ acc_boundary_list acc \/
  exists mr, mr ∈ layers /\ bl_used mr = true /\ e ∈ bl_elements H part mr.
Proof.
  revert acc. induction layers as [|mr layers IH]; intros acc Hinv; cbn [fold_left].
  - split; [intros Hin; left; exact Hin|].
    intros [Hin|(mr & Hin & _)]; [exact Hin|inversion Hin].
  - rewrite (IH _ (bl_add_invariant acc mr Hinv)).
    destruct (bl_used mr) eqn:Hu.
    + destruct (bl_add_used_lists acc mr Hu Hinv) as (new & st & EB & _ & _ & _ & _ & Hnew).
      rewrite EB, elem_of_app, Hnew. split.
      * intros [[Hin|[Hin _]]|(mr' & Hin & Hu' & He)].
        -- left. exact Hin.
        -- right. exists mr. split; [left|]. split; assumption.
        -- right. exists mr'. split; [right; exact Hin|]. split; assumption.
      * intros [Hin|(mr' & Hin & Hu' & He)]; [left; left; exact Hin|].
        apply elem_of_cons in Hin as [->|Hin].
        -- destruct (decide (e ∈ acc_boundary_list acc)) as [Hb|Hb];
             [left; left; exact Hb|left; right; split; assumption].
        -- right. exists mr'. split; [exact Hin|]. split; assumption.
    + destruct (bl_add_unused acc mr Hu) as (EB & _ & _). rewrite EB. split.
      * intros [Hin|(mr' & Hin & Hu' & He)]; [left; exact Hin|].
        right. exists mr'. split; [right; exact Hin|]. split; assumption.
      * intros [Hin|(mr' & Hin & Hu' & He)]; [left; exact Hin|].
        apply elem_of_cons in Hin as [->|Hin]; [congruence|].
        right. exists mr'. split; [exact Hin|]. split; assumption.
Qed.

Lemma bl_invariant_empty :
  bl_invariant dimension {| acc_belem_list := []; acc_boundary_list := [];
                  acc_settings := []; acc_events := [] |}.
Proof.
  split; [apply NoDup_nil; exact I|]. cbn.
  destruct (layered_dimension dimension); reflexivity.
Qed.




End Layers.

(** What [get_region_data] leaves in the instance. *)
Lemma get_region_data_result (H : Host) (s : FemGmshTools) :
  exists s',
    get_region_data H s = (Ok tt, s') /\
    ele_length_map s'
    = fst (fold_left (region_add H (part_obj s)) (MeshRegionList (mesh_obj s)) (∅, [])) /\
    forall ev,
      ev ∈ snd (fold_left (region_add H (part_obj s)) (MeshRegionList (mesh_obj s)) (∅, [])) ->
      ev ∈ trace s'.
Proof.
  unfold get_region_data, bind, modify, get, emit, emits, ret. cbn.
  destruct (MeshRegionList (mesh_obj s)) as [|mr regions] eqn:E.
  - eexists. split; [reflexivity|]. cbn. split; [reflexivity|].
    intros ev Hev. inversion Hev.
  - match goal with
    | |- context [fold_left ?f ?l ?a] => destruct (fold_left f l a) as [lengths evs] eqn:Ef
    end.
    destruct (is_split_compound (part_obj s)); cbn;
      (eexists; split; [reflexivity|]; cbn; split; [reflexivity|]);
      intros ev Hev; rewrite !elem_of_app; tauto.
Qed.



(** The run on the box: two regions share [Face2], which keeps the length
    of the first; the first boundary layer names [Face1] twice and the
    second names [Face2] again. *)
Example box_claims :
  let s' := snd (create_mesh (Demo.host (Some (0%Z, "", ""))) (init Demo.box_mesh None)) in
  ele_length_map s' !! "Face2" = Some 0.5%Q /\
  ele_length_map s' !! "Face3" = Some 0.25%Q /\
  map setting_elements (bl_setting_list s') = [["Face1"; "Face2"]; ["Face4"]] /\
  bl_boundary_list s' = ["Face1"; "Face2"; "Face4"] /\
  List.filter (fun e => match e with PrintError _ => true | _ => false end) (trace s')
  = [PrintError (region_duplicate (Demo.region "R2" 0.25 []) "Face2");
     PrintError (bl_duplicate (Demo.layer "BL1" 0.1 1.2 5 []) "Face1");
     PrintError (bl_duplicate (Demo.layer "BL2" 0.2 1 3 []) "Face2")].
Proof.
  cbv zeta. repeat split; vm_compute; reflexivity.
Qed.

(** ** The default interior domain *)

Lemma solid_not_face (first : string) :
  startswith "Solid" first = true -> startswith "Face" first = false.
Proof.
  unfold startswith. destruct first as [|c rest]; [discriminate|].
  cbn [String.prefix].
  destruct (ascii_dec "S" c) as [<-|_]; [|discriminate]. intros _.
  destruct (ascii_dec "F" "S") as [Heq|_]; [discriminate Heq|reflexivity].
Qed.

Lemma physical_line_surface_not_volume (group ele_nr : string) :
  physical_line "Surface" group ele_nr <> interior_volume.
Proof.
  unfold physical_line, interior_volume. intros Heq.
  unfold String.append in Heq. congruence.
Qed.

Lemma physical_line_line_not_volume (group ele_nr : string) :
  physical_line "Line" group ele_nr <> interior_volume.
Proof.
  unfold physical_line, interior_volume. intros Heq.
  unfold String.append in Heq. congruence.
Qed.

Lemma physical_line_volume_not_surface (group ele_nr : string) :
  physical_line "Volume" group ele_nr <> interior_surface.
Proof.
  unfold physical_line, interior_surface. intros Heq.
  unfold String.append in Heq. congruence.
Qed.

Lemma physical_line_line_not_surface (group ele_nr : string) :
  physical_line "Line" group ele_nr <> interior_surface.
Proof.
  unfold physical_line, interior_surface. intros Heq.
  unfold String.append in Heq. congruence.
Qed.

Lemma append_unless (b : bool) (text : list string) (line : string) :
  (if b then text else text ++ [line]) = text ++ (if b then [] else [line]).
Proof. destruct b; [rewrite app_nil_r|]; reflexivity. Qed.

Lemma write_group_entry_summary (dimension group : string) (gdata : list string)
    (first : string) (rest : list string) (acc : group_acc) :
  gdata = first :: rest ->
  exists lines,
    group_text (fst (write_group_entry dimension group gdata first acc))
    = group_text acc ++ lines /\
    domains (fst (write_group_entry dimension group gdata first acc))
    = (domains acc + if domain_group dimension gdata then 1 else 0)%nat /\
    (startswith "Solid" first = false -> ~ In interior_volume lines) /\
    (startswith "Face" first = false -> ~ In interior_surface lines).
Proof.
  intros ->. unfold write_group_entry, domain_group.
  destruct (startswith "Solid" first) eqn:Esolid.
  - rewrite (solid_not_face _ Esolid). cbn [andb orb fst group_text domains].
    rewrite orb_false_r, append_unless.
    eexists. split; [reflexivity|].
    split; [destruct (String.eqb dimension "3"); lia|].
    split; [discriminate|]. intros _.
    destruct (String.eqb (element_numbers "Solid" (first :: rest)) ""); cbn; [tauto|].
    intros [Heq|[]]. exact (physical_line_volume_not_surface _ _ Heq).
  - destruct (startswith "Face" first) eqn:Eface.
    + cbn [andb orb fst group_text domains]. rewrite append_unless.
      eexists. split; [reflexivity|].
      split; [destruct (String.eqb dimension "2"); lia|].
      split; [|discriminate]. intros _.
      destruct (String.eqb (element_numbers "Face" (first :: rest)) ""); cbn; [tauto|].
      intros [Heq|[]]. exact (physical_line_surface_not_volume _ _ Heq).
    + cbn [andb orb]. destruct (startswith "Edge" first).
      * cbn [fst group_text domains]. rewrite append_unless.
        eexists. split; [reflexivity|].
        split; [lia|].
        split; intros _;
          (destruct (String.eqb (element_numbers "Edge" (first :: rest)) ""); cbn; [tauto|]);
          intros [Heq|[]].
        -- exact (physical_line_line_not_volume _ _ Heq).
        -- exact (physical_line_line_not_surface _ _ Heq).
      * destruct (startswith "Vertex" first).
        -- cbn [fst group_text domains]. eexists.
           split; [reflexivity|]. split; [lia|].
           split; intros _ [Heq|[]]; unfold interior_volume, interior_surface in Heq;
             unfold String.append in Heq; congruence.
        -- cbn [fst]. exists []. rewrite app_nil_r.
           split; [reflexivity|]. split; [lia|]. split; intros _ [].
Qed.

Lemma write_group_loop_summary (dimension : string) (groups : list (string * list string))
    (acc : group_acc) (s : FemGmshTools) :
  Forall (fun p => snd p <> []) groups ->
  exists acc' es lines,
    write_group_loop dimension groups acc s = (Ok acc', set_trace (trace s ++ es) s) /\
    group_text acc' = group_text acc ++ lines /\
    domains acc'
    = (domains acc
       + length (List.filter (fun p => domain_group dimension (snd p)) groups))%nat /\
    (Forall (fun p => startswith "Solid" (hd "" (snd p)) = false) groups ->
     ~ In interior_volume lines) /\
    (Forall (fun p => startswith "Face" (hd "" (snd p)) = false) groups ->
     ~ In interior_surface lines).
Proof.
  revert acc s. induction groups as [|[group gdata] groups IH]; intros acc s Hne.
  - exists acc, [], []. cbn. rewrite !app_nil_r, set_trace_same, Nat.add_0_r.
    repeat split; try reflexivity; intros _ [].
  - inversion Hne as [|p ps Hp Hps]; subst. cbn [snd] in Hp.
    destruct gdata as [|first rest]; [contradiction|].
    cbn [write_group_loop]. unfold bind at 1, emit at 1, modify at 1.
    destruct (write_group_entry_summary dimension group (first :: rest) first rest acc eq_refl)
      as (lines1 & Htext1 & Hdom1 & Hvol1 & Hsur1).
    destruct (write_group_entry dimension group (first :: rest) first acc) as [acc1 evs].
    cbn [fst] in Htext1, Hdom1.
    unfold bind at 1, emits at 1, modify at 1.
    match goal with
    | |- context [write_group_loop dimension groups acc1 ?s1] =>
        destruct (IH acc1 s1 Hps) as (acc' & es & lines2 & E & Htext2 & Hdom2 & Hvol2 & Hsur2)
    end.
    exists acc', ([PrintValue "gdata"] ++ evs ++ es), (lines1 ++ lines2).
    split; [|split; [|split; [|split]]].
    + rewrite E. rewrite !set_trace_set_trace. cbn [trace set_trace].
      rewrite <- !app_assoc. reflexivity.
    + rewrite Htext2, Htext1, app_assoc. reflexivity.
    + rewrite Hdom2, Hdom1. cbn [List.filter snd].
      destruct (domain_group dimension (first :: rest)); cbn [length]; lia.
    + intros Hall. inversion Hall as [|p ps Hq Hqs]; subst. cbn [snd hd] in Hq.
      intros Hin. apply in_app_or in Hin as [Hin|Hin];
        [exact (Hvol1 Hq Hin)|exact (Hvol2 Hqs Hin)].
    + intros Hall. inversion Hall as [|p ps Hq Hqs]; subst. cbn [snd hd] in Hq.
      intros Hin. apply in_app_or in Hin as [Hin|Hin];
        [exact (Hsur1 Hq Hin)|exact (Hsur2 Hqs Hin)].
Qed.

Lemma save_groups_of_nodes_not_interior (s : FemGmshTools) :
  ~ In interior_volume ((LF +:+ LF) :: save_groups_of_nodes s) /\
  ~ In interior_surface ((LF +:+ LF) :: save_groups_of_nodes s).
Proof.
  unfold save_groups_of_nodes.
  destruct (_ && _); cbn [In]; split; intros Hin;
    repeat (destruct Hin as [Hin|Hin]; [cbv in Hin; congruence|]);
    exact Hin.
Qed.

Lemma group_header_not_interior :
  "// group data " +:+ LF <> interior_volume /\
  "// group data " +:+ LF <> interior_surface.
Proof.
  split; intros Heq; cbv in Heq; congruence.
Qed.

Lemma filter_none {A} (f : A -> bool) (xs : list A) :
  Forall (fun x => f x = false) xs -> List.filter f xs = [].
Proof.
  induction 1 as [|x xs Hx _ IH]; [reflexivity|]. cbn. rewrite Hx. exact IH.
Qed.

Lemma filter_some {A} (f : A -> bool) (xs : list A) (x : A) :
  In x xs -> f x = true -> length (List.filter f xs) <> 0%nat.
Proof.
  intros Hin Hx. assert (Hf : In x (List.filter f xs)) by (apply List.filter_In; tauto).
  destruct (List.filter f xs); [destruct Hf|discriminate].
Qed.

Lemma count_occ_absent (xs : list string) (x : string) :
  ~ In x xs -> count_occ string_dec xs x = 0%nat.
Proof. apply count_occ_not_In. Qed.

(** What [write_group] writes after the loop over the groups. *)
Lemma write_group_after_loop (s : FemGmshTools) (acc : group_acc) (es0 : list event) :
  exists es,
    (let '(interior, evs) := write_interior (dimension s) (domains acc) in
     emits evs ;;;
     (if Nat.eqb (boundaries acc) 0 then
        emit (Print "Warning: no boundary group data are written, thus boundary mesh will not be exported")
      else ret tt) ;;;
     ret (group_text acc ++ interior ++ [LF +:+ LF] ++ save_groups_of_nodes s))
      (set_trace (trace s ++ es0) s)
    = (Ok (group_text acc ++ fst (write_interior (dimension s) (domains acc))
           ++ [LF +:+ LF] ++ save_groups_of_nodes s),
       set_trace (trace s ++ es) s).
Proof.
  destruct (write_interior (dimension s) (domains acc)) as [interior evs].
  unfold bind, emits, emit, modify, ret. cbn [fst].
  destruct (Nat.eqb (boundaries acc) 0); eexists;
    rewrite ?set_trace_set_trace; cbn [trace set_trace];
    rewrite <- ?app_assoc; reflexivity.
Qed.

(** What [write_group] returns when every group has an element. *)
Lemma write_group_summary (s : FemGmshTools) :
  map_Forall (fun _ gdata => gdata <> []) (group_elements s) ->
  exists text es,
    write_group s = (Ok text, set_trace (trace s ++ es) s) /\
    (map_Forall (fun _ gdata => domain_group (dimension s) gdata = false)
       (group_elements s) ->
     (dimension s = "3" -> count_occ string_dec text interior_volume = 1%nat) /\
     (dimension s = "2" -> count_occ string_dec text interior_surface = 1%nat)) /\
    ((exists group gdata,
        group_elements s !! group = Some gdata /\
        domain_group (dimension s) gdata = true) ->
     exists acc s1,
       write_group_loop (dimension s) (map_to_list (group_elements s)) group_acc_start s
       = (Ok acc, s1) /\
       text = group_text acc ++ [LF +:+ LF] ++ save_groups_of_nodes s).
Proof.
  intros Hne. unfold write_group. unfold bind at 1, get at 1. unfold bind at 1.
  destruct (save_groups_of_nodes_not_interior s) as [Htail_v Htail_s].
  destruct group_header_not_interior as [Hhead_v Hhead_s].
  destruct (decide (group_elements s = ∅)) as [Hempty|Hsome].
  - unfold ret at 1.
    destruct (write_group_after_loop s {| boundaries := 0; domains := 0; group_text := [] |} [])
      as (es & E).
    rewrite app_nil_r, set_trace_same in E.
    eexists _, es. split; [exact E|]. split.
    + intros _. cbn [group_text domains app write_interior Nat.eqb fst].
      split; intros ->; cbn [String.eqb Ascii.eqb Bool.eqb app fst];
        rewrite count_occ_cons_eq by reflexivity;
        rewrite count_occ_absent by assumption; reflexivity.
    + intros (group & gdata & Hl & _). rewrite Hempty, lookup_empty in Hl. discriminate.
  - apply map_Forall_to_list in Hne.
    assert (Hne' : Forall (fun p : string * list string => snd p <> [])
                     (map_to_list (group_elements s))).
    { eapply List.Forall_impl; [|exact Hne]. intros [g d] Hd. exact Hd. }
    destruct (write_group_loop_summary (dimension s) (map_to_list (group_elements s))
                group_acc_start s Hne')
      as (acc & es0 & lines & Eloop & Htext & Hdom & Hvol & Hsur).
    change {| boundaries := 0; domains := 0; group_text := ["// group data " +:+ LF] |}
      with group_acc_start.
    rewrite Eloop.
    destruct (write_group_after_loop s acc es0) as (es & E).
    eexists _, es. split; [exact E|]. split.
    + intros Hno. apply map_Forall_to_list in Hno.
      assert (Hnone : domains acc = 0%nat).
      { rewrite Hdom. cbn [domains group_acc_start].
        rewrite filter_none; [reflexivity|].
        eapply List.Forall_impl; [|exact Hno]. intros [g d] Hd. exact Hd. }
      unfold write_interior. rewrite Hnone. cbn [Nat.eqb fst].
      rewrite Htext. cbn [group_text group_acc_start].
      split; intros Hd; rewrite Hd in Hno |- *; cbn [String.eqb Ascii.eqb Bool.eqb app].
      * rewrite count_occ_cons_neq by exact Hhead_v.
        rewrite count_occ_app, count_occ_cons_eq by reflexivity.
        rewrite (count_occ_absent _ _ Htail_v), count_occ_absent; [reflexivity|].
        apply Hvol. clear -Hno Hne'.
        induction Hno as [|[g d] ps Hp Hps IH]; [constructor|].
        inversion Hne' as [|p ps' Hq Hqs]; subst. constructor; [|apply IH; exact Hqs].
        cbn [snd uncurry] in *. destruct d as [|first rest]; [contradiction|].
        cbn [hd domain_group] in *. apply orb_false_iff in Hp as [Hp _].
        rewrite andb_true_r in Hp. exact Hp.
      * rewrite count_occ_cons_neq by exact Hhead_s.
        rewrite count_occ_app, count_occ_cons_eq by reflexivity.
        rewrite (count_occ_absent _ _ Htail_s), count_occ_absent; [reflexivity|].
        apply Hsur. clear -Hno Hne'.
        induction Hno as [|[g d] ps Hp Hps IH]; [constructor|].
        inversion Hne' as [|p ps' Hq Hqs]; subst. constructor; [|apply IH; exact Hqs].
        cbn [snd uncurry] in *. destruct d as [|first rest]; [contradiction|].
        cbn [hd domain_group] in *. apply orb_false_iff in Hp as [_ Hp].
        rewrite andb_true_r in Hp. exact Hp.
    + intros (group & gdata & Hl & Hdg).
      exists acc, (set_trace (trace s ++ es0) s). split; [reflexivity|].
      unfold write_interior.
      assert (Hpos : domains acc <> 0%nat).
      { rewrite Hdom. cbn [domains group_acc_start Nat.add].
        apply (filter_some _ _ (group, gdata)); [|exact Hdg].
        apply list_elem_of_In, elem_of_map_to_list. exact Hl. }
      destruct (domains acc); [contradiction|]. reflexivity.
Qed.

(** ** The lines of the script that declare a physical entity *)

Ltac not_physical :=
  repeat match goal with
         | |- context [if ?b then _ else _] => destruct b
         end;
  repeat constructor.

Lemma geo_merge_not_physical (geometry : string) :
  Forall (fun line => physical line = false) (geo_merge geometry).
Proof. unfold geo_merge. not_physical. Qed.

Lemma geo_scaling_not_physical (H : Host) (scaling : bool) :
  Forall (fun line => physical line = false) (geo_scaling H scaling).
Proof. unfold geo_scaling. not_physical. Qed.

Lemma geo_tail_not_physical (H : Host) (s : FemGmshTools) (code : Z)
    (mesh bin path : string) :
  Forall (fun line => physical line = false)
    (geo_sizes H s ++ geo_recombine s ++ geo_optimize s ++ geo_algorithm s
     ++ geo_meshing H s ++ geo_output code mesh bin path).
Proof.
  unfold geo_sizes, geo_recombine, geo_optimize, geo_algorithm, geo_meshing, geo_output,
    mesh_algorithm, mesh_algorithm3D, mesh_command.
  rewrite !Forall_app. repeat split; not_physical.
Qed.

Lemma characteristic_lengths_not_physical (H : Host) (node_map : gmap string (list Z))
    (lengths : list (string * Q)) (s : FemGmshTools) (lines : list string) :
  fst (characteristic_lengths H node_map lengths s) = Ok lines ->
  Forall (fun line => physical line = false) lines.
Proof.
  revert lines. induction lengths as [|[e length] rest IH]; intros lines;
    cbn [characteristic_lengths].
  - intros Heq. injection Heq as <-. constructor.
  - destruct (node_map !! e) as [nodes|]; [|discriminate].
    unfold bind. destruct (characteristic_lengths H node_map rest s) as [[lines'|] s1];
      [|discriminate].
    cbn. intros Heq. injection Heq as <-.
    constructor; [reflexivity|]. constructor; [reflexivity|]. apply IH. reflexivity.
Qed.

Lemma write_characteristic_lengths_not_physical (H : Host) (s : FemGmshTools)
    (lines : list string) :
  fst (write_characteristic_lengths H s) = Ok lines ->
  Forall (fun line => physical line = false) lines.
Proof.
  unfold write_characteristic_lengths, bind, get.
  destruct (decide (ele_length_map s = ∅)).
  - intros Heq. injection Heq as <-. constructor.
  - pose proof (characteristic_lengths_not_physical H (ele_node_map s)
                  (map_to_list (ele_length_map s)) s) as Hl.
    destruct (characteristic_lengths H (ele_node_map s)
                (map_to_list (ele_length_map s)) s) as [[lines'|] s1]; [|discriminate].
    cbn. intros Heq. injection Heq as <-.
    constructor; [reflexivity|]. apply Forall_app. split; [apply Hl; reflexivity|].
    repeat constructor.
Qed.

Lemma boundary_layer_fields_not_physical (H : Host) (items : list setting) (n : Z) :
  Forall (fun line => physical line = false) (boundary_layer_fields H n items).
Proof.
  revert n. induction items as [|item items IH]; intros n; cbn [boundary_layer_fields].
  - constructor.
  - constructor; [reflexivity|]. rewrite !Forall_app. split; [|split; [|apply IH]].
    + unfold setting_lines. rewrite !Forall_app. split; [|split].
      * repeat constructor.
      * destruct (EdgesList item); repeat constructor.
      * destruct (FacesList item); repeat constructor.
    + repeat constructor.
Qed.

Lemma write_boundary_layer_not_physical (H : Host) (s : FemGmshTools)
    (lines : list string) :
  fst (write_boundary_layer H s) = Ok lines ->
  Forall (fun line => physical line = false) lines.
Proof.
  unfold write_boundary_layer, bind, get, emit, modify, ret.
  destruct (bl_setting_list s) as [|item items]; cbn [fst].
  - intros Heq. injection Heq as <-. repeat constructor.
  - intros Heq.
    assert (lines = ["// boundary layer setting" +:+ LF]
                    ++ boundary_layer_fields H 1 (item :: items) ++ [LF]) as ->
      by (injection Heq as <-; reflexivity).
    rewrite !Forall_app.
    split; [repeat constructor|].
    split; [apply boundary_layer_fields_not_physical|repeat constructor].
Qed.

Lemma no_script_in_prints (path : string) (es : list event) :
  Forall (fun e => is_print e \/ e = OpenGeo path) es ->
  concat (map (fun e => match e with CloseGeo _ text => text | _ => [] end) es) = [].
Proof.
  induction 1 as [|e es He _ IH]; [reflexivity|]. cbn [map concat]. rewrite IH.
  destruct He as [He| ->]; [|reflexivity]. destruct e; try reflexivity. destruct He.
Qed.

Lemma count_occ_not_physical (lines : list string) (line : string) :
  Forall (fun line => physical line = false) lines ->
  physical line = true ->
  count_occ string_dec lines line = 0%nat.
Proof.
  intros Hall Hp. apply count_occ_not_In. intros Hin.
  rewrite List.Forall_forall in Hall. rewrite (Hall _ Hin) in Hp. discriminate.
Qed.

(** The physical entities of a script that [write_geo] wrote into an empty
    trace are those that [write_group] declared. *)
Lemma write_geo_physical (H : Host) (scaling : bool) (s s' : FemGmshTools) :
  script s = [] ->
  write_geo H scaling s = (Ok tt, s') ->
  exists t groups,
    fst (write_group (set_trace t s)) = Ok groups /\
    List.filter physical (script s') = List.filter physical groups /\
    forall line,
      physical line = true ->
      count_occ string_dec (script s') line = count_occ string_dec groups line.
Proof.
  intros Hempty Hrun.
  destruct (write_geo_text H scaling s s' Hrun)
    as (es & path & geometry & lengths & groups & layers & code & mesh & bin
        & t1 & t2 & t3 & -> & Hes & _ & Hlengths & Hgroups & Hlayers).
  apply write_characteristic_lengths_not_physical in Hlengths.
  apply write_boundary_layer_not_physical in Hlayers.
  pose proof (geo_merge_not_physical geometry) as Hmerge.
  pose proof (geo_scaling_not_physical H scaling) as Hscaling.
  pose proof (geo_tail_not_physical H s code mesh bin path) as Htail.
  exists t2, groups. split; [exact Hgroups|].
  assert (Hscript :
    script (set_trace
              (trace s ++ es ++
               [CloseGeo path
                  (geo_merge geometry ++ geo_scaling H scaling ++ lengths ++ groups
                   ++ layers ++ geo_sizes H s ++ geo_recombine s ++ geo_optimize s
                   ++ geo_algorithm s ++ geo_meshing H s
                   ++ geo_output code mesh bin path)]) s)
    = geo_merge geometry ++ geo_scaling H scaling ++ lengths ++ groups
      ++ layers ++ (geo_sizes H s ++ geo_recombine s ++ geo_optimize s
                    ++ geo_algorithm s ++ geo_meshing H s
                    ++ geo_output code mesh bin path)).
  { unfold script in *. cbn [trace set_trace].
    rewrite !map_app, !concat_app, Hempty, (no_script_in_prints path es Hes).
    cbn [map concat app]. rewrite app_nil_r. reflexivity. }
  rewrite Hscript.
  set (tail := geo_sizes H s ++ geo_recombine s ++ geo_optimize s ++ geo_algorithm s
               ++ geo_meshing H s ++ geo_output code mesh bin path) in *.
  clearbody tail. split.
  - rewrite !List.filter_app.
    rewrite (filter_none _ _ Hmerge), (filter_none _ _ Hscaling),
      (filter_none _ _ Hlengths), (filter_none _ _ Hlayers), (filter_none _ _ Htail).
    cbn [app]. rewrite app_nil_r. reflexivity.
  - intros line Hp. rewrite !count_occ_app.
    rewrite (count_occ_not_physical _ _ Hmerge Hp),
      (count_occ_not_physical _ _ Hscaling Hp),
      (count_occ_not_physical _ _ Hlengths Hp),
      (count_occ_not_physical _ _ Hlayers Hp),
      (count_occ_not_physical _ _ Htail Hp).
    lia.
Qed.

Lemma save_groups_of_nodes_not_physical (s : FemGmshTools) :
  Forall (fun line => physical line = false) ([LF +:+ LF] ++ save_groups_of_nodes s).
Proof. unfold save_groups_of_nodes. not_physical. Qed.

(** C5.  When every group has an element, [write_group] returns, and in the
    script that [write_geo] writes, into a trace without a script,
    - when no group makes a domain for the dimension (no group of solids
      for ["3"], no group of faces for ["2"]), the declaration of the
      default interior is there exactly once: [Physical Volume("Interior") =
      {1};] for ["3"], [Physical Surface("Interior") = {1};] for ["2"];
    - when some group makes a domain for the dimension, the physical
      entities of the script are those that the loop over the groups
      declared: no default interior is added.
    The same holds of the text that [write_group] returns. *)
Theorem default_interior_domain (s : FemGmshTools) :
  map_Forall (fun _ gdata => gdata <> []) (group_elements s) ->
  (exists text es,
     write_group s = (Ok text, set_trace (trace s ++ es) s) /\
     (map_Forall (fun _ gdata => domain_group (dimension s) gdata = false)
        (group_elements s) ->
      (dimension s = "3" -> count_occ string_dec text interior_volume = 1%nat) /\
      (dimension s = "2" -> count_occ string_dec text interior_surface = 1%nat)) /\
     ((exists group gdata,
         group_elements s !! group = Some gdata /\
         domain_group (dimension s) gdata = true) ->
      exists acc s1,
        write_group_loop (dimension s) (map_to_list (group_elements s)) group_acc_start s
        = (Ok acc, s1) /\
        text = group_text acc ++ [LF +:+ LF] ++ save_groups_of_nodes s)) /\
  (forall H scaling s',
     script s = [] ->
     write_geo H scaling s = (Ok tt, s') ->
     (map_Forall (fun _ gdata => domain_group (dimension s) gdata = false)
        (group_elements s) ->
      (dimension s = "3" ->
       count_occ string_dec (script s') interior_volume = 1%nat) /\
      (dimension s = "2" ->
       count_occ string_dec (script s') interior_surface = 1%nat)) /\
     ((exists group gdata,
         group_elements s !! group = Some gdata /\
         domain_group (dimension s) gdata = true) ->
      exists acc t s1,
        write_group_loop (dimension s) (map_to_list (group_elements s)) group_acc_start
          (set_trace t s)
        = (Ok acc, s1) /\
        List.filter physical (script s') = List.filter physical (group_text acc))).
Proof.
  intros Hne. split; [exact (write_group_summary s Hne)|].
  intros H scaling s' Hempty Hrun.
  destruct (write_geo_physical H scaling s s' Hempty Hrun)
    as (t & groups & Hgroups & Hfilter & Hcount).
  destruct (write_group_summary (set_trace t s) Hne) as (text & es & E & Hno & Hdom).
  rewrite E in Hgroups. cbn [fst] in Hgroups. injection Hgroups as ->.
  split.
  - intros Hnone. destruct (Hno Hnone) as [H3 H2]. split; intros Hd.
    + rewrite (Hcount interior_volume eq_refl). exact (H3 Hd).
    + rewrite (Hcount interior_surface eq_refl). exact (H2 Hd).
  - intros Hsome. destruct (Hdom Hsome) as (acc & s1 & Eloop & ->).
    exists acc, t, s1. split; [exact Eloop|].
    rewrite Hfilter, List.filter_app.
    rewrite (filter_none _ _ (save_groups_of_nodes_not_physical (set_trace t s))).
    apply app_nil_r.
Qed.

(** Details of the runs on groups. *)
Example groups_written :
  fst (write_group Demo.wall_state)
  = Ok ["// group data " +:+ LF;
        "Physical Surface(" +:+ DQ +:+ "Wall" +:+ DQ +:+ ") = {1, 2};" +:+ LF;
        interior_volume;
        LF +:+ LF] /\
  fst (write_group Demo.body_state)
  = Ok ["// group data " +:+ LF;
        "Physical Volume(" +:+ DQ +:+ "Body" +:+ DQ +:+ ") = {1};" +:+ LF;
        LF +:+ LF] /\
  fst (write_group (set_group_elements {[ "Nothing" := [] ]} Demo.body_state))
  = Raise IndexError.
Proof. repeat split; vm_compute; reflexivity. Qed.

(** The scripts of two runs on the box: without groups the default
    interior is declared once; with an analysis that makes a group of one
    solid and a group of one face, the script declares these two and no
    interior. *)
Example interior_of_the_box :
  let h := Demo.host (Some (0%Z, "", "")) in
  let groups : gmap string (list string) :=
    {[ "Body" := ["Solid1"]; "Wall" := ["Face1"] ]} in
  let s1 := snd (create_mesh h (init Demo.box_mesh None)) in
  let s2 := snd (create_mesh (Demo.with_groups groups h) (init Demo.box_mesh (Some 1%nat))) in
  List.filter physical (script s1) = [interior_volume] /\
  count_occ string_dec (script s2) interior_volume = 0%nat /\
  length (List.filter physical (script s2)) = 2%nat /\
  physical_line "Volume" "Body" "1, " ∈ script s2 /\
  physical_line "Surface" "Wall" "1, " ∈ script s2.
Proof.
  cbv zeta. repeat split; try (vm_compute; reflexivity); by_evaluation.
Qed.

Lemma default_interior_domain_witness :
  map_Forall (fun _ gdata => gdata <> []) (group_elements Demo.wall_state) /\
  map_Forall (fun _ gdata => domain_group (dimension Demo.wall_state) gdata = false)
    (group_elements Demo.wall_state) /\
  exists text es,
    write_group Demo.wall_state
    = (Ok text, set_trace (trace Demo.wall_state ++ es) Demo.wall_state) /\
    count_occ string_dec text interior_volume = 1%nat.
Proof.
  assert (Hne : map_Forall (fun _ (gdata : list string) => gdata <> [])
                  (group_elements Demo.wall_state)) by by_evaluation.
  assert (Hno : map_Forall
                  (fun _ gdata => domain_group (dimension Demo.wall_state) gdata = false)
                  (group_elements Demo.wall_state)) by by_evaluation.
  split; [exact Hne|]. split; [exact Hno|].
  destruct (proj1 (default_interior_domain Demo.wall_state Hne))
    as (text & es & E & Hcount & _).
  exists text, es. split; [exact E|]. exact (proj1 (Hcount Hno) eq_refl).
Defined.

(** ** What the stages keep, and runs that return *)

Lemma kept_refl (s : FemGmshTools) : kept s s.
Proof. repeat split. exists []. rewrite app_nil_r. reflexivity. Qed.

Lemma kept_trans (s1 s2 s3 : FemGmshTools) : kept s1 s2 -> kept s2 s3 -> kept s1 s3.
Proof.
  intros (A1 & B1 & es1 & T1) (A2 & B2 & es2 & T2).
  repeat split; [congruence|congruence|].
  exists (es1 ++ es2). rewrite T2, T1, app_assoc. reflexivity.
Qed.

Lemma kept_with_dimension_refl (s : FemGmshTools) : kept_with_dimension s s.
Proof. split; [apply kept_refl|reflexivity]. Qed.

Lemma kept_with_dimension_trans (s1 s2 s3 : FemGmshTools) :
  kept_with_dimension s1 s2 -> kept_with_dimension s2 s3 -> kept_with_dimension s1 s3.
Proof.
  intros [K1 D1] [K2 D2]. split; [exact (kept_trans _ _ _ K1 K2)|congruence].
Qed.

Section Frame.

Variable R : FemGmshTools -> FemGmshTools -> Prop.
Hypothesis R_refl : forall s, R s s.
Hypothesis R_trans : forall s1 s2 s3, R s1 s2 -> R s2 s3 -> R s1 s3.

Lemma respects_ret {A} (a : A) : respects R (ret a).
Proof. intros s. apply R_refl. Qed.

Lemma respects_raise {A} (e : exn) : respects R (@raise A e).
Proof. intros s. apply R_refl. Qed.

Lemma respects_get : respects R get.
Proof. intros s. apply R_refl. Qed.

Lemma respects_getattr {A} (name : string) (f : FemGmshTools -> option A) :
  respects R (getattr name f).
Proof. intros s. unfold getattr. destruct (f s); apply R_refl. Qed.

Lemma respects_modify (f : FemGmshTools -> FemGmshTools) :
  (forall s, R s (f s)) -> respects R (modify f).
Proof. intros Hf s. apply Hf. Qed.

Lemma respects_bind {A B} (m : M A) (k : A -> M B) :
  respects R m -> (forall a, respects R (k a)) -> respects R (bind m k).
Proof.
  intros Hm Hk s. unfold bind. specialize (Hm s).
  destruct (m s) as [[a|e] s1]; cbn [snd] in *; [|exact Hm].
  exact (R_trans _ _ _ Hm (Hk a s1)).
Qed.

Lemma respects_try_except {A} (body handler : M A) :
  respects R body -> respects R handler -> respects R (try_except body handler).
Proof.
  intros Hb Hh s. unfold try_except. specialize (Hb s).
  destruct (body s) as [[a|e] s1]; cbn [snd] in *; [exact Hb|].
  exact (R_trans _ _ _ Hb (Hh s1)).
Qed.

End Frame.

(** A step of a proof that a method is in [kept] or in
    [kept_with_dimension]. *)
Ltac kept_assignment :=
  intros; first
    [ split; [split; [reflexivity|split; [reflexivity|]]|reflexivity]
    | split; [reflexivity|split; [reflexivity|]] ];
  first [ exists []; cbn; rewrite app_nil_r; reflexivity
        | eexists; cbn; reflexivity ].

Ltac respects_step refl trans :=
  match goal with
  | |- forall _, _ => intros
  | |- respects _ (bind _ _) => apply (respects_bind _ trans)
  | |- respects _ (ret _) => apply (respects_ret _ refl)
  | |- respects _ (raise _) => apply (respects_raise _ refl)
  | |- respects _ get => apply (respects_get _ refl)
  | |- respects _ (getattr _ _) => apply (respects_getattr _ refl)
  | |- respects _ (try_except _ _) => apply (respects_try_except _ trans)
  | |- respects _ (modify _) => apply respects_modify; kept_assignment
  | |- respects _ (emit _) => apply respects_modify; kept_assignment
  | |- respects _ (emits _) => apply respects_modify; kept_assignment
  | |- respects _ (if ?b then _ else _) => destruct b
  | |- respects _ (match ?x with _ => _ end) => destruct x
  end.

Ltac kept_dim := repeat respects_step kept_with_dimension_refl kept_with_dimension_trans.
Ltac kept_all := repeat respects_step kept_refl kept_trans.

Lemma get_dimension_kept : respects kept get_dimension.
Proof. unfold get_dimension. kept_all. Qed.

Section Stages.

Variable H : Host.

Lemma get_tmp_file_paths_kept : respects kept_with_dimension (get_tmp_file_paths H).
Proof. unfold get_tmp_file_paths. kept_dim. Qed.

Lemma get_gmsh_command_kept : respects kept_with_dimension (get_gmsh_command H).
Proof. unfold get_gmsh_command. kept_dim. Qed.

Lemma get_group_data_kept : respects kept_with_dimension (get_group_data H).
Proof. unfold get_group_data. kept_dim. Qed.

Lemma get_region_data_kept : respects kept_with_dimension (get_region_data H).
Proof. unfold get_region_data. kept_dim. Qed.

Lemma get_boundary_layer_data_kept :
  respects kept_with_dimension (get_boundary_layer_data H).
Proof. unfold get_boundary_layer_data. kept_dim. Qed.

Lemma write_part_file_kept : respects kept_with_dimension (write_part_file H).
Proof. unfold write_part_file. kept_dim. Qed.

Lemma run_gmsh_with_geo_kept : respects kept_with_dimension (run_gmsh_with_geo H).
Proof. unfold run_gmsh_with_geo. kept_dim. Qed.

Lemma read_and_set_new_mesh_kept : respects kept_with_dimension (read_and_set_new_mesh H).
Proof. unfold read_and_set_new_mesh. kept_dim. Qed.

End Stages.

Lemma bind_ok {A B} (m : M A) (k : A -> M B) (s s' : FemGmshTools) (b : B) :
  bind m k s = (Ok b, s') -> exists a s1, m s = (Ok a, s1) /\ k a s1 = (Ok b, s').
Proof.
  unfold bind. destruct (m s) as [[a|e] s1]; [eauto|discriminate].
Qed.

Lemma emit_kept (e : event) : respects kept_with_dimension (emit e).
Proof. kept_dim. Qed.

Lemma script_grows (s s' : FemGmshTools) (es : list event) (line : string) :
  trace s' = trace s ++ es -> line ∈ script s -> line ∈ script s'.
Proof.
  intros Ht Hin. unfold script. rewrite Ht, map_app, concat_app.
  apply elem_of_app. left. exact Hin.
Qed.

Lemma spawned_grows (s s' : FemGmshTools) (es : list event) (cmd : list string) :
  trace s' = trace s ++ es -> cmd ∈ spawned s -> cmd ∈ spawned s'.
Proof.
  intros Ht Hin. unfold spawned. rewrite Ht, map_app, concat_app.
  apply elem_of_app. left. exact Hin.
Qed.

(** A run of the mesher that returns has started a process and has left
    [self.error] at [False]. *)
Lemma run_gmsh_with_geo_ok (H : Host) (s s' : FemGmshTools) (err : string) :
  run_gmsh_with_geo H s = (Ok err, s') ->
  error s' = false /\ exists bin geo, [bin; "-"; geo] ∈ spawned s'.
Proof.
  unfold run_gmsh_with_geo, bind, modify, getattr, try_except, emit, ret, raise. cbn.
  destruct (gmsh_bin s) as [bin|]; [|discriminate]. cbn.
  destruct (temp_file_geo s) as [geo|]; [|discriminate]. cbn.
  destruct (run_process H [bin; "-"; geo]) as [[[status output] error]|]; [|discriminate].
  cbn. intros Heq. injection Heq as _ <-. split; [reflexivity|].
  exists bin, geo. unfold spawned. cbn [trace set_trace set_error].
  rewrite map_app, concat_app. apply elem_of_app. right. cbn. left.
Qed.

(** With [self.error] at [False], a read back that returns has called
    [Fem.read] and has put what it gave into the mesh object. *)
Lemma read_and_set_new_mesh_ok (H : Host) (s s' : FemGmshTools) :
  error s = false ->
  read_and_set_new_mesh H s = (Ok tt, s') ->
  exists path,
    temp_file_mesh s = Some path /\
    path ∈ mesh_reads s' /\
    Some (FemMesh (mesh_obj s')) = Fem_read H path.
Proof.
  intros Herr.
  unfold read_and_set_new_mesh, bind, modify, getattr, emit, ret, raise, get.
  rewrite Herr. cbn.
  destruct (temp_file_mesh s) as [path|] eqn:Emesh; [|discriminate]. cbn.
  destruct (Fem_read H path) as [fem_mesh|] eqn:Eread; [|discriminate]. cbn.
  destruct (temp_file_geometry s); [|discriminate]. cbn. rewrite Emesh.
  intros Heq. injection Heq as <-. exists path. split; [reflexivity|]. split.
  - unfold mesh_reads. cbn [trace set_temp_file_mesh set_temp_file_geometry set_trace].
    rewrite !map_app, !concat_app. cbn.
    rewrite !elem_of_app. left. right. left.
  - rewrite Eread. reflexivity.
Qed.

Ltac run_stage Hrun L :=
  let a := fresh "a" in
  let s1 := fresh "s" in
  let E := fresh "E" in
  let K := fresh "K" in
  apply bind_ok in Hrun as (a & s1 & E & Hrun);
  match type of E with
  | ?m ?s = _ => pose proof (L s) as K; rewrite E in K; cbn [snd] in K
  end.

Ltac run_emit Hrun :=
  let a := fresh "a" in
  let s1 := fresh "s" in
  let E := fresh "E" in
  let K := fresh "K" in
  apply bind_ok in Hrun as (a & s1 & E & Hrun);
  match type of E with
  | emit ?e ?s = _ => pose proof (emit_kept e s) as K; rewrite E in K; cbn [snd] in K
  end.

(** A run of the stages after [get_dimension] that returns: the script was
    written with the directive of the configured 2D algorithm, the directive
    of the 3D algorithm and the meshing command of the dimension; a process
    was started; and the output file was read into the mesh object, whatever
    the exit status of the process. *)
Lemma create_mesh_after_dimension_completed (H : Host) (s s' : FemGmshTools) (r : string) :
  create_mesh_after_dimension H s = (Ok r, s') ->
  ("Mesh.Algorithm = " +:+ algorithm2D s +:+ ";" +:+ LF) ∈ script s' /\
  mesh_algorithm3D s ∈ script s' /\
  mesh_command s ∈ script s' /\
  dimension s' = dimension s /\
  (exists bin geo, [bin; "-"; geo] ∈ spawned s') /\
  (exists path, path ∈ mesh_reads s' /\ Some (FemMesh (mesh_obj s')) = Fem_read H path).
Proof.
  unfold create_mesh_after_dimension. intros Hrun.
  run_stage Hrun (get_tmp_file_paths_kept H).
  run_stage Hrun (get_gmsh_command_kept H).
  run_stage Hrun (get_group_data_kept H).
  run_stage Hrun (get_region_data_kept H).
  run_stage Hrun (get_boundary_layer_data_kept H).
  run_stage Hrun (write_part_file_kept H).
  apply bind_ok in Hrun as ([] & sw & Ew & Hrun).
  run_stage Hrun (run_gmsh_with_geo_kept H).
  run_stage Hrun (read_and_set_new_mesh_kept H).
  injection Hrun as _ <-.
  pose proof (kept_with_dimension_trans _ _ _ K
                (kept_with_dimension_trans _ _ _ K0
                   (kept_with_dimension_trans _ _ _ K1
                      (kept_with_dimension_trans _ _ _ K2
                         (kept_with_dimension_trans _ _ _ K3 K4)))))
    as [(A2 & A3 & _) D].
  destruct (write_geo_script H false _ _ Ew)
    as (es & path & text & Esw & _ & _ & Halg & Halg3 & Hcmd).
  pose proof (kept_with_dimension_trans _ _ _ K5 K6) as [(_ & _ & esr & Tr) Dr].
  destruct (run_gmsh_with_geo_ok H _ _ _ E5) as [Herr (bin & geo & Hspawn)].
  destruct a6.
  destruct (read_and_set_new_mesh_ok H _ _ Herr E6) as (mesh & _ & Hread & Hmesh).
  destruct K6 as [(_ & _ & es6 & T6) _].
  assert (Htext : forall line, line ∈ text -> line ∈ script s7).
  { intros line Hin. apply (script_grows sw s7 esr line Tr).
    rewrite Esw. unfold script. cbn [trace set_trace].
    rewrite !map_app, !concat_app. cbn [map concat].
    rewrite !elem_of_app. right. right. left. exact Hin. }
  split; [|split; [|split; [|split; [|split]]]].
  - apply Htext. rewrite mesh_algorithm_configured in Halg. rewrite <- A2. exact Halg.
  - apply Htext. unfold mesh_algorithm3D in *. rewrite <- A3. exact Halg3.
  - apply Htext. unfold mesh_command in *. rewrite <- D. exact Hcmd.
  - rewrite Dr, Esw. cbn [dimension set_trace]. exact D.
  - exists bin, geo. apply (spawned_grows s6 s7 es6 _ T6 Hspawn).
  - exists mesh. split; assumption.
Qed.

(** The same for [create_mesh] as a whole. *)
Lemma create_mesh_completed (H : Host) (s s' : FemGmshTools) (r : string) :
  create_mesh H s = (Ok r, s') ->
  ("Mesh.Algorithm = " +:+ algorithm2D s +:+ ";" +:+ LF) ∈ script s' /\
  mesh_algorithm3D s ∈ script s' /\
  mesh_command s' ∈ script s' /\
  (exists bin geo, [bin; "-"; geo] ∈ spawned s') /\
  (exists path, path ∈ mesh_reads s' /\ Some (FemMesh (mesh_obj s')) = Fem_read H path).
Proof.
  unfold create_mesh. intros Hrun.
  run_stage Hrun (respects_get kept_with_dimension kept_with_dimension_refl).
  injection E as <- <-.
  do 5 run_emit Hrun.
  run_stage Hrun get_dimension_kept.
  pose proof (kept_trans _ _ _
                (proj1 (kept_with_dimension_trans _ _ _ K0
                          (kept_with_dimension_trans _ _ _ K1
                             (kept_with_dimension_trans _ _ _ K2
                                (kept_with_dimension_trans _ _ _ K3 K4))))) K5)
    as (A2 & A3 & _).
  destruct (create_mesh_after_dimension_completed H _ _ _ Hrun)
    as (Halg & Halg3 & Hcmd & Hd & Hspawn & Hread).
  split; [rewrite <- A2; exact Halg|].
  split; [unfold mesh_algorithm3D in *; rewrite <- A3; exact Halg3|].
  split; [unfold mesh_command in *; rewrite Hd; exact Hcmd|].
  split; assumption.
Qed.

(** ** Dimension errors and the run *)

(** C7, as the code has it.  When the dimension is to be derived from the
    shape and the shape is a [Vertex] or of a type that is not known,
    [get_dimension] prints an error, sets the dimension to ["0"] and
    returns.  [create_mesh] is not stopped: it goes on with the stages that
    follow, from a state whose dimension is ["0"], and when it returns the
    script was written with the meshing command [Mesh  0;] and the mesher
    was started. *)
Theorem unmeshable_shape_is_not_fatal (H : Host) (s : FemGmshTools) :
  dimension s = "From Shape" ->
  ShapeType (Shape_ (part_obj s)) ∉ meshable_shape_types ->
  (exists msg s0,
     get_dimension s = (Ok tt, s0) /\
     dimension s0 = "0" /\
     trace s0 = trace s ++ [PrintError msg; Print "  ElementDimension: 0"]) /\
  (exists s1,
     create_mesh H s = create_mesh_after_dimension H s1 /\ dimension s1 = "0") /\
  (forall r s',
     create_mesh H s = (Ok r, s') ->
     dimension s' = "0" /\
     ("Mesh  0;" +:+ LF) ∈ script s' /\
     exists bin geo, [bin; "-"; geo] ∈ spawned s').
Proof.
  intros Hd Hs.
  assert (Hgoes : exists s1,
             create_mesh H s = create_mesh_after_dimension H s1 /\ dimension s1 = "0").
  { unfold create_mesh. unfold bind at 1, get at 1.
    repeat (unfold bind at 1, emit at 1, modify at 1).
    match goal with
    | |- context [bind get_dimension _ ?s1] =>
        destruct (get_dimension_unmeshable s1 Hd Hs) as (msg & E)
    end.
    unfold bind at 1. rewrite E.
    eexists. split; [reflexivity|reflexivity]. }
  split; [|split; [exact Hgoes|]].
  - destruct (get_dimension_unmeshable s Hd Hs) as (msg & E).
    exists msg. eexists. split; [exact E|]. split; reflexivity.
  - intros r s' Hrun. destruct Hgoes as (s1 & Egoes & Hd1).
    rewrite Egoes in Hrun.
    destruct (create_mesh_after_dimension_completed H s1 s' r Hrun)
      as (_ & _ & Hcmd & Hd' & Hspawn & _).
    unfold mesh_command in Hcmd. rewrite Hd1 in Hcmd, Hd'.
    split; [exact Hd'|]. split; [exact Hcmd|exact Hspawn].
Qed.

(** C7, as the specification has it, fails at a single vertex: the run
    returns, the dimension is ["0"], the script is written with the command
    [Mesh  0;] and the mesher is started. *)
Lemma vertex_run_goes_on :
  let run := create_mesh (Demo.host (Some (0%Z, "", ""))) (init Demo.vertex_mesh None) in
  fst run = Ok "" /\
  dimension (snd run) = "0" /\
  PrintError ("You can not mesh a Vertex." +:+ LF) ∈ trace (snd run) /\
  ("Mesh  0;" +:+ LF) ∈ script (snd run) /\
  spawned (snd run) = [["gmsh"; "-"; "/tmp/shape2mesh.geo"]].
Proof.
  cbv zeta. repeat split; try (vm_compute; reflexivity); by_evaluation.
Qed.

Lemma unmeshable_shape_is_not_fatal_witness :
  dimension (init Demo.vertex_mesh None) = "From Shape" /\
  (ShapeType (Shape_ (part_obj (init Demo.vertex_mesh None))) ∉ meshable_shape_types) /\
  exists s1,
    create_mesh (Demo.host None) (init Demo.vertex_mesh None)
    = create_mesh_after_dimension (Demo.host None) s1 /\
    dimension s1 = "0".
Proof.
  assert (Hd : dimension (init Demo.vertex_mesh None) = "From Shape") by reflexivity.
  assert (Hs : ShapeType (Shape_ (part_obj (init Demo.vertex_mesh None)))
               ∉ meshable_shape_types) by by_evaluation.
  split; [exact Hd|]. split; [exact Hs|].
  exact (proj1 (proj2 (unmeshable_shape_is_not_fatal (Demo.host None) _ Hd Hs))).
Defined.

(** ** The 3D algorithm *)

(** C10.  The code of the 3D algorithm is looked up under the name held by
    [Algorithm2D]; the [Algorithm3D] property of the object has no part in
    it.  [Frontal] gives [Mesh.Algorithm3D = 4]; a name that is not in the
    table of the 3D names gives code 1.  A run of [create_mesh] that returns
    has written that directive into the script. *)
Theorem algorithm3D_from_Algorithm2D (m : MeshObject) (an : option Analysis) :
  algorithm3D (init m an) = resolve_algorithm3D (Algorithm2D m) /\
  (forall name, algorithm3D (init (set_Algorithm3D name m) an) = algorithm3D (init m an)) /\
  (Algorithm2D m = "Frontal" ->
   mesh_algorithm3D (init m an) = "Mesh.Algorithm3D = 4;" +:+ LF) /\
  (Algorithm2D m ∉ known_mesh_algorithm_3D ->
   mesh_algorithm3D (init m an) = "Mesh.Algorithm3D = 1;" +:+ LF) /\
  (forall H r s',
     create_mesh H (init m an) = (Ok r, s') ->
     ("Mesh.Algorithm3D = " +:+ resolve_algorithm3D (Algorithm2D m) +:+ ";" +:+ LF)
     ∈ script s').
Proof.
  split; [reflexivity|]. split; [reflexivity|]. split; [|split].
  - intros Hf. unfold mesh_algorithm3D. cbn [init algorithm3D]. rewrite Hf. reflexivity.
  - intros Hn. unfold mesh_algorithm3D. cbn [init algorithm3D].
    rewrite (resolve_algorithm3D_unknown _ Hn). reflexivity.
  - intros H r s' Hrun.
    destruct (create_mesh_completed H _ _ _ Hrun) as (_ & H3 & _). exact H3.
Qed.

(** [Frontal] as the 2D algorithm of the box, with another name in its
    [Algorithm3D] property: the script has the 2D code 6 and the 3D code 4. *)
Example frontal_box :
  let m := set_Algorithm3D "MMG3D" (Demo.mesh "Solid" "2nd" "3D" "Frontal" 1 [] []) in
  let s' := snd (create_mesh (Demo.host (Some (0%Z, "", ""))) (init m None)) in
  ("Mesh.Algorithm = 6;" +:+ LF) ∈ script s' /\
  ("Mesh.Algorithm3D = 4;" +:+ LF) ∈ script s' /\
  ("Mesh.Algorithm3D = 7;" +:+ LF) ∉ script s'.
Proof. cbv zeta. repeat split; by_evaluation. Qed.

(** * Further properties *)

(** ** Dimension *)

(** The dimension that [get_dimension] leaves. *)
Lemma get_dimension_dimension (s : FemGmshTools) :
  dimension (snd (get_dimension s))
  = if String.eqb (dimension s) "From Shape" then
      let shty := ShapeType (Shape_ (part_obj s)) in
      if String.eqb shty "Solid" || String.eqb shty "CompSolid" then "3"
      else if String.eqb shty "Face" || String.eqb shty "Shell" then "2"
      else if String.eqb shty "Edge" || String.eqb shty "Wire" then "1"
      else if String.eqb shty "Vertex" then "0"
      else if String.eqb shty "Compound" then "3"
      else "0"
    else if String.eqb (dimension s) "3D" then "3"
    else if String.eqb (dimension s) "2D" then "2"
    else if String.eqb (dimension s) "1D" then "1"
    else dimension s.
Proof.
  unfold get_dimension, bind, get, emit, modify. cbv zeta.
  repeat match goal with
         | |- context [String.eqb ?a ?b] => destruct (String.eqb a b)
         end; reflexivity.
Qed.

(** X1.  For each of the four values that [ElementDimension] can ask for,
    [get_dimension] returns and leaves one of the dimensions ["0"] to ["3"]:
    ["3D"], ["2D"] and ["1D"] give ["3"], ["2"] and ["1"]; ["From Shape"]
    gives ["3"] for a solid, a compound solid or a compound, ["2"] for a
    face or a shell and ["1"] for an edge or a wire. *)
Theorem get_dimension_resolves (s : FemGmshTools) :
  dimension s ∈ known_element_dimensions ->
  fst (get_dimension s) = Ok tt /\
  dimension (snd (get_dimension s)) ∈ resolved_dimensions /\
  (dimension s = "3D" -> dimension (snd (get_dimension s)) = "3") /\
  (dimension s = "2D" -> dimension (snd (get_dimension s)) = "2") /\
  (dimension s = "1D" -> dimension (snd (get_dimension s)) = "1") /\
  (dimension s = "From Shape" ->
   (ShapeType (Shape_ (part_obj s)) ∈ ["Solid"; "CompSolid"; "Compound"] ->
    dimension (snd (get_dimension s)) = "3") /\
   (ShapeType (Shape_ (part_obj s)) ∈ ["Face"; "Shell"] ->
    dimension (snd (get_dimension s)) = "2") /\
   (ShapeType (Shape_ (part_obj s)) ∈ ["Edge"; "Wire"] ->
    dimension (snd (get_dimension s)) = "1")).
Proof.
  intros Hknown. split; [apply get_dimension_returns|].
  rewrite get_dimension_dimension. unfold known_element_dimensions in Hknown.
  apply list_elem_of_In in Hknown. cbn [In] in Hknown.
  destruct Hknown as [Hd|[Hd|[Hd|[Hd|[]]]]]; rewrite <- Hd;
    cbn [String.eqb Ascii.eqb Bool.eqb]; cbv iota zeta.
  - split.
    + repeat match goal with
             | |- context [String.eqb ?a ?b] => destruct (String.eqb a b)
             end; by_evaluation.
    + repeat (split; [discriminate|]). intros _.
      repeat split; intros Hin; apply list_elem_of_In in Hin; cbn [In] in Hin;
        repeat (destruct Hin as [<-|Hin]; [reflexivity|]); destruct Hin.
  - split; [by_evaluation|]. repeat split; try discriminate; reflexivity.
  - split; [by_evaluation|]. repeat split; try discriminate; reflexivity.
  - split; [by_evaluation|]. repeat split; try discriminate; reflexivity.
Qed.

Lemma get_dimension_resolves_witness :
  dimension (init Demo.box_mesh None) ∈ known_element_dimensions /\
  dimension (snd (get_dimension (init Demo.box_mesh None))) = "3".
Proof.
  assert (Hknown : dimension (init Demo.box_mesh None) ∈ known_element_dimensions)
    by by_evaluation.
  split; [exact Hknown|].
  destruct (get_dimension_resolves (init Demo.box_mesh None) Hknown)
    as (_ & _ & _ & _ & _ & Hshape).
  destruct (Hshape eq_refl) as (Hsolid & _). apply Hsolid. by_evaluation.
Defined.

Lemma append_assoc (a b c : string) : a +:+ b +:+ c = (a +:+ b) +:+ c.
Proof.
  induction a as [|x a IH]; [reflexivity|].
  unfold String.append in *. fold String.append in *. rewrite IH. reflexivity.
Qed.

(** X2.  A dimension that is resolved already is none of the names that
    [get_dimension] knows: the call keeps it, and prints [Error in dimension]
    before it prints the dimension.  So does every second call on an
    instance. *)
Theorem get_dimension_of_a_resolved_dimension (s : FemGmshTools) :
  dimension s ∈ resolved_dimensions ->
  get_dimension s
  = (Ok tt,
     set_trace (trace s ++ [Print "Error in dimension";
                            Print ("  ElementDimension: " +:+ dimension s)]) s).
Proof.
  intros Hres. unfold resolved_dimensions in Hres.
  apply list_elem_of_In in Hres. cbn [In] in Hres.
  unfold get_dimension, bind, get, emit, modify, ret.
  destruct Hres as [Hd|[Hd|[Hd|[Hd|[]]]]]; rewrite <- Hd;
    cbn [String.eqb Ascii.eqb Bool.eqb]; cbv iota beta;
    cbn [trace set_trace dimension]; rewrite <- ?Hd, <- ?app_assoc; reflexivity.
Qed.

Lemma get_dimension_of_a_resolved_dimension_witness :
  get_dimension (snd (get_dimension (init Demo.box_mesh None)))
  = (Ok tt,
     set_trace (trace (snd (get_dimension (init Demo.box_mesh None)))
                ++ [Print "Error in dimension"; Print ("  ElementDimension: " +:+ "3")])
       (snd (get_dimension (init Demo.box_mesh None)))).
Proof.
  apply (get_dimension_of_a_resolved_dimension (snd (get_dimension (init Demo.box_mesh None)))).
  by_evaluation.
Defined.

(** X3.  [get_tmp_file_paths] returns exactly when the output format has a
    code in [supported_mesh_output_formats], the two class tables having the
    same keys.  The paths are then made of the temporary directory, the
    separator of the platform (a backslash on Windows only) and the name of
    the part followed by [_Geometry.brep], by [_Mesh_TmpGmsh] and the suffix
    of the format, and [shape2mesh.geo].  For any other format it raises
    [KeyError] after the path of the geometry was assigned, the paths of the
    mesh and of the script being left as they were. *)
Theorem get_tmp_file_paths_format (H : Host) (s : FemGmshTools) :
  let format := OutputFormat (mesh_obj s) in
  let s' := snd (get_tmp_file_paths H s) in
  let dir := gettempdir H +:+ (if String.eqb (system H) "Windows" then BACKSLASH else "/") in
  (fst (get_tmp_file_paths H s) = Ok tt <->
   is_Some (supported_mesh_output_formats !! format)) /\
  (forall suffix, output_format_suffix !! format = Some suffix ->
     fst (get_tmp_file_paths H s) = Ok tt /\
     temp_file_geometry s' = Some (dir +:+ Name (part_obj s) +:+ "_Geometry.brep") /\
     temp_file_mesh s' = Some (dir +:+ Name (part_obj s) +:+ "_Mesh_TmpGmsh" +:+ suffix) /\
     temp_file_geo s' = Some (dir +:+ "shape2mesh.geo")) /\
  (output_format_suffix !! format = None ->
     fst (get_tmp_file_paths H s) = Raise (KeyError format) /\
     temp_file_geometry s' = Some (dir +:+ Name (part_obj s) +:+ "_Geometry.brep") /\
     temp_file_mesh s' = temp_file_mesh s /\
     temp_file_geo s' = temp_file_geo s).
Proof.
  cbv zeta.
  assert (Hsep :
    (if String.eqb (system H) "Linux" then "/"
     else if String.eqb (system H) "Windows" then BACKSLASH else "/")
    = (if String.eqb (system H) "Windows" then BACKSLASH else "/")).
  { destruct (String.eqb_spec (system H) "Linux") as [->|_]; reflexivity. }
  assert (Hkeys : forall format,
    is_Some (supported_mesh_output_formats !! format)
    <-> is_Some (output_format_suffix !! format)).
  { intros format. rewrite <- !elem_of_dom.
    assert (dom supported_mesh_output_formats = dom output_format_suffix) as ->
      by by_evaluation.
    reflexivity. }
  unfold get_tmp_file_paths, bind, get, emit, modify, raise.
  cbn [mesh_obj part_obj set_temp_file_geometry set_trace set_mesh_name].
  destruct (output_format_suffix !! OutputFormat (mesh_obj s)) as [suffix|] eqn:E.
  - cbn. rewrite Hsep, <- ?append_assoc. split; [|split].
    + rewrite Hkeys, E. split; eauto.
    + intros ? [= <-]. rewrite <- ?append_assoc. repeat split; reflexivity.
    + discriminate.
  - cbn. rewrite Hsep, <- ?append_assoc. split; [|split].
    + rewrite Hkeys, E. split; [discriminate|]. intros [? ?]. discriminate.
    + discriminate.
    + intros _. rewrite <- ?append_assoc. repeat split; reflexivity.
Qed.

(** ** Paths and the binary *)



(** Membership in a list written out, or in one of several. *)
Ltac member_of_one :=
  first [ solve [repeat first [apply list_elem_of_here | apply list_elem_of_further]]
        | left; member_of_one
        | right; member_of_one ].

Ltac member := rewrite ?elem_of_app; member_of_one.

(** X4.  With the standard location switched off, [get_gmsh_command] does
    not raise and starts no process: the binary is the path of the
    preferences when there is one, else [gmsh], or [bin/gmsh.exe] under the
    home path on Windows. *)
Theorem get_gmsh_command_configured (H : Host) (s : FemGmshTools) :
  UseStandardGmshLocation H = false ->
  let bin := if String.eqb (gmshBinaryPath H) "" then default_gmsh_bin H
             else gmshBinaryPath H in
  get_gmsh_command H s
  = (Ok tt, set_trace (trace s ++ [Print ("  " +:+ bin)]) (set_gmsh_bin (Some bin) s)).
Proof.
  intros Hstd. cbv zeta.
  unfold get_gmsh_command, default_gmsh_bin, bind, emit, modify, getattr, ret.
  rewrite Hstd.
  destruct (String.eqb (gmshBinaryPath H) ""); [|reflexivity].
  destruct (String.eqb_spec (system H) "Linux") as [E|_]; [rewrite E|]; cbn;
    [reflexivity|].
  destruct (String.eqb (system H) "Windows"); reflexivity.
Qed.

Lemma get_gmsh_command_configured_witness :
  get_gmsh_command (Demo.host None) (init Demo.box_mesh None)
  = (Ok tt,
     set_trace (trace (init Demo.box_mesh None) ++ [Print ("  " +:+ "gmsh")])
       (set_gmsh_bin (Some "gmsh") (init Demo.box_mesh None))).
Proof.
  apply (get_gmsh_command_configured (Demo.host None) (init Demo.box_mesh None)).
  reflexivity.
Defined.



(** ** Groups *)

Lemma group_reports_app (es1 es2 : list event) :
  group_reports (es1 ++ es2) = (group_reports es1 + group_reports es2)%nat.
Proof. apply count_occ_app. Qed.

Lemma group_reports_replicate (k : nat) :
  group_reports (replicate k (PrintError group_exists)) = k.
Proof.
  unfold group_reports. induction k as [|k IH]; [reflexivity|].
  cbn [replicate]. rewrite count_occ_cons_eq by reflexivity. rewrite IH. reflexivity.
Qed.

Lemma add_groups_list (l : list (string * list string))
    (acc : gmap string (list string) * list event) :
  exists k,
    fold_left
      (fun acc (ge : string * list string) =>
         match fst acc !! fst ge with
         | None => (<[fst ge := snd ge]> (fst acc), snd acc)
         | Some _ => (fst acc, snd acc ++ [PrintError group_exists])
         end) l acc
    = (fst acc ∪ list_to_map l, snd acc ++ replicate k (PrintError group_exists)) /\
    (size (fst acc ∪ list_to_map l) + k = size (fst acc) + length l)%nat.
Proof.
  revert acc. induction l as [|[name gdata] l IH]; intros [m evs]; cbn [fold_left fst snd].
  - exists 0%nat. cbn [list_to_map foldr replicate length].
    rewrite (right_id_L ∅ (∪)), app_nil_r. split; [reflexivity|lia].
  - destruct (m !! name) as [old|] eqn:E.
    + destruct (IH (m, evs ++ [PrintError group_exists])) as (k & Ef & Hk).
      cbn [fst snd] in Ef, Hk. exists (S k). rewrite Ef.
      assert (Hu : m ∪ list_to_map ((name, gdata) :: l) = m ∪ list_to_map l).
      { apply map_eq. intros i. rewrite !lookup_union. cbn [list_to_map foldr uncurry fst snd].
        destruct (decide (i = name)) as [->|Hne].
        - rewrite E, lookup_insert_eq. destruct (list_to_map l !! name); reflexivity.
        - rewrite lookup_insert_ne by congruence. reflexivity. }
      rewrite Hu. split; [|cbn [length]; lia].
      rewrite <- app_assoc. reflexivity.
    + destruct (IH (<[name := gdata]> m, evs)) as (k & Ef & Hk).
      cbn [fst snd] in Ef, Hk. exists k. rewrite Ef.
      assert (Hu : m ∪ list_to_map ((name, gdata) :: l) = <[name := gdata]> m ∪ list_to_map l).
      { apply map_eq. intros i. rewrite !lookup_union. cbn [list_to_map foldr uncurry fst snd].
        destruct (decide (i = name)) as [->|Hne].
        - rewrite E, !lookup_insert_eq. destruct (list_to_map l !! name); reflexivity.
        - rewrite !lookup_insert_ne by congruence. reflexivity. }
      rewrite Hu. split; [reflexivity|].
      rewrite map_size_insert_None in Hk by exact E. cbn [length]. lia.
Qed.

(** One dictionary of groups added to those found so far: a name that is
    there already keeps its elements and is reported. *)
Lemma add_groups_union (new : gmap string (list string))
    (acc : gmap string (list string) * list event) :
  exists k,
    add_groups new acc
    = (fst acc ∪ new, snd acc ++ replicate k (PrintError group_exists)) /\
    (size (fst acc ∪ new) + k = size (fst acc) + size new)%nat.
Proof.
  unfold add_groups.
  destruct (add_groups_list (map_to_list new) acc) as (k & E & Hk).
  rewrite list_to_map_to_list, length_map_to_list in *. eauto.
Qed.

Lemma mesh_groups_fold (H : Host) (part : DocumentObject) (groups : list MeshGroup)
    (acc : gmap string (list string) * list event) :
  exists k,
    fold_left (fun acc mg => add_groups (get_mesh_group_elements H mg part) acc) groups acc
    = (fold_left (fun acc mg => acc ∪ get_mesh_group_elements H mg part) groups (fst acc),
       snd acc ++ replicate k (PrintError group_exists)) /\
    (size (fold_left (fun acc mg => acc ∪ get_mesh_group_elements H mg part) groups (fst acc))
     + k
     = size (fst acc)
       + sum_list (map (fun mg => size (get_mesh_group_elements H mg part)) groups))%nat.
Proof.
  revert acc. induction groups as [|mg groups IH]; intros acc; cbn [fold_left map sum_list].
  - exists 0%nat. rewrite app_nil_r. split; [destruct acc; reflexivity|].
    reflexivity.
  - destruct (add_groups_union (get_mesh_group_elements H mg part) acc) as (k1 & E1 & H1).
    rewrite E1.
    match goal with
    | |- context [fold_left _ groups ?a] => destruct (IH a) as (k2 & E2 & H2)
    end.
    cbn [fst snd] in E2, H2. exists (k1 + k2)%nat. rewrite E2. split.
    + rewrite <- app_assoc, replicate_add. reflexivity.
    + unfold sum_list, id in *. lia.
Qed.

(** X6.  [get_group_data] does not raise.  The groups it leaves are those of
    the mesh group objects, a name going to the first object that has it,
    and those of the analysis for the names that no mesh group object has.
    Every name that is dropped is reported once: the reports and the groups
    that are kept add up to the groups that were handed in. *)
Theorem get_group_data_union (H : Host) (s : FemGmshTools) :
  let part := part_obj s in
  let groups := MeshGroupList (mesh_obj s) in
  let of_mesh := mesh_group_elements H part groups in
  let of_analysis := analysis_group_elements H part (analysis s) in
  exists es,
    get_group_data H s
    = (Ok tt, set_trace (trace s ++ es) (set_group_elements (of_mesh ∪ of_analysis) s)) /\
    (group_reports es + size (of_mesh ∪ of_analysis)
     = sum_list (map (fun mg => size (get_mesh_group_elements H mg part)) groups)
       + size of_analysis)%nat.
Proof.
  cbv zeta. unfold mesh_group_elements, analysis_group_elements.
  unfold get_group_data, bind, get, emit, emits, modify, ret.
  cbn [mesh_obj analysis part_obj set_group_elements set_trace trace group_elements].
  destruct (MeshGroupList (mesh_obj s)) as [|mg groups] eqn:Eg.
  - cbn [fold_left map]. cbv iota beta.
    cbn [mesh_obj analysis part_obj set_group_elements set_trace trace group_elements].
    destruct (analysis s) as [a|].
    + destruct (add_groups_union (get_analysis_group_elements H a (part_obj s)) (∅, []))
        as (k2 & E2 & H2).
      cbn [fst snd app] in E2, H2. rewrite E2.
      eexists. split.
      * cbn [set_trace set_group_elements trace]. rewrite <- !app_assoc. reflexivity.
      * rewrite !group_reports_app, group_reports_replicate.
        rewrite map_size_empty in H2. unfold group_reports. cbn. lia.
    + eexists. split.
      * cbn [set_trace set_group_elements trace]. rewrite <- !app_assoc.
        rewrite (right_id_L ∅ (∪)). reflexivity.
      * rewrite (right_id_L ∅ (∪)), map_size_empty. unfold group_reports. cbn. lia.
  - destruct (mesh_groups_fold H (part_obj s) (mg :: groups) (∅, [])) as (k1 & E1 & H1).
    cbn [fst snd app] in E1, H1. rewrite map_size_empty in H1.
    rewrite E1. cbv iota beta.
    cbn [mesh_obj analysis part_obj set_group_elements set_trace trace group_elements].
    set (of_mesh := fold_left _ (mg :: groups) ∅) in *.
    destruct (analysis s) as [a|].
    + destruct (add_groups_union (get_analysis_group_elements H a (part_obj s)) (of_mesh, []))
        as (k2 & E2 & H2).
      cbn [fst snd app] in E2, H2. rewrite E2.
      eexists. split.
      * cbn [set_trace set_group_elements trace]. rewrite <- !app_assoc. reflexivity.
      * rewrite !group_reports_app, !group_reports_replicate.
        unfold group_reports. cbn [count_occ]. repeat case_match; try discriminate. lia.
    + eexists. split.
      * cbn [set_trace set_group_elements trace]. rewrite <- !app_assoc.
        rewrite (right_id_L ∅ (∪)). reflexivity.
      * rewrite (right_id_L ∅ (∪)), map_size_empty.
        rewrite !group_reports_app, !group_reports_replicate.
        unfold group_reports. cbn [count_occ]. repeat case_match; try discriminate. lia.
Qed.

(** ** Regions *)





(** A length in the map was there before or is that of a used region that
    claims the element. *)
Lemma region_fold_sound (H : Host) (part : DocumentObject) (regions : list MeshRegion)
    (acc : gmap string Q * list event) (e : string) (v : Q) :
  fst (fold_left (region_add H part) regions acc) !! e = Some v ->
  fst acc !! e = Some v \/
  exists mr, mr ∈ regions /\ region_used mr = true /\ e ∈ region_elements H part mr /\
             v = CharacteristicLength mr.
Proof.
  revert acc. induction regions as [|mr regions IH]; intros acc; cbn [fold_left].
  - intros Hv. left. exact Hv.
  - intros Hv. destruct (IH _ Hv) as [Hacc|(mr' & Hin & Hrest)].
    + rewrite region_add_lookup in Hacc.
      destruct (fst acc !! e) as [v'|]; [left; exact Hacc|].
      case_decide as Hc; [|discriminate]. injection Hacc as <-.
      right. exists mr. split; [left|]. tauto.
    + right. exists mr'. split; [right; exact Hin|exact Hrest].
Qed.

(** X8.  Every length in the map that [get_region_data] leaves is the length
    of a region of the list that has references and claims the element, and
    it is not zero. *)
Theorem region_lengths_come_from_used_regions (H : Host) (s : FemGmshTools) :
  let s' := snd (get_region_data H s) in
  forall e v,
    ele_length_map s' !! e = Some v ->
    ~ (v == 0)%Q /\
    exists mr,
      mr ∈ MeshRegionList (mesh_obj s) /\
      CharacteristicLength mr = v /\
      mr_References mr <> [] /\
      e ∈ region_elements H (part_obj s) mr.
Proof.
  cbv zeta. intros e v.
  destruct (get_region_data_result H s) as (s' & E & Hmap & _).
  rewrite E. cbn [snd]. rewrite Hmap. intros Hv.
  apply region_fold_sound in Hv as [Hv|(mr & Hin & Hu & He & ->)];
    [cbn [fst] in Hv; rewrite lookup_empty in Hv; discriminate|].
  unfold region_used in Hu. apply andb_true_iff in Hu as [Hlen Hrefs].
  split.
  - intros Hz. apply Qeq_bool_iff in Hz. rewrite Hz in Hlen. discriminate.
  - exists mr. split; [exact Hin|]. split; [reflexivity|]. split; [|exact He].
    destruct (mr_References mr); [discriminate|]. discriminate.
Qed.

Lemma region_lengths_come_from_used_regions_witness :
  let h := Demo.host None in
  let s := init Demo.box_mesh None in
  ele_length_map (snd (get_region_data h s)) !! "Face2" = Some 0.5%Q /\
  exists mr,
    mr ∈ MeshRegionList (mesh_obj s) /\
    CharacteristicLength mr = 0.5%Q /\
    mr_References mr <> [] /\
    "Face2" ∈ region_elements h (part_obj s) mr.
Proof.
  cbv zeta.
  assert (Hlength : ele_length_map (snd (get_region_data (Demo.host None)
                                           (init Demo.box_mesh None)))
                    !! "Face2" = Some 0.5%Q) by (vm_compute; reflexivity).
  split; [exact Hlength|].
  exact (proj2 (region_lengths_come_from_used_regions (Demo.host None)
                  (init Demo.box_mesh None) "Face2" 0.5%Q Hlength)).
Defined.

(** ** Boundary layers: sizes, lists and fields *)

Lemma geometric_sum_nonneg (r : Q) (k : nat) : (0 <= r)%Q -> (0 <= geometric_sum r k)%Q.
Proof.
  intros Hr. induction k as [|k IH]; cbn [geometric_sum]; [lra|].
  pose proof (Qpower_0_le r (Z.of_nat k) Hr). lra.
Qed.







Lemma make_setting_keyed (clmax : Q) (dimension : string) (mr : MeshBoundaryLayer)
    (belem_list : list string) :
  keyed_for dimension (fst (make_setting clmax dimension mr belem_list)).
Proof.
  unfold make_setting, keyed_for.
  destruct (String.eqb dimension "2"); [cbn; eauto|].
  destruct (String.eqb dimension "3"); cbn; eauto.
Qed.

Lemma bl_fold_keyed (H : Host) (part : DocumentObject) (clmax : Q) (dimension : string)
    (layers : list MeshBoundaryLayer) (acc : bl_acc) :
  Forall (keyed_for dimension) (acc_settings acc) ->
  Forall (keyed_for dimension)
    (acc_settings (fold_left (bl_add H part clmax dimension) layers acc)).
Proof.
  revert acc. induction layers as [|mr layers IH]; intros acc Hacc; cbn [fold_left].
  - exact Hacc.
  - apply IH. destruct (bl_used mr) eqn:Hu.
    + destruct (bl_add_used H part clmax dimension acc mr Hu)
        as (acc1 & st & evs & _ & -> & _ & -> & _).
      apply Forall_app. split; [exact Hacc|].
      constructor; [apply make_setting_keyed|constructor].
    + destruct (bl_add_unused H part clmax dimension acc mr Hu) as (_ & -> & _).
      exact Hacc.
Qed.

(** X10.  Every setting stores its boundary list under [EdgesList] for the
    dimension ["2"], under [FacesList] for ["3"], and under neither for any
    other dimension.  [bl_boundary_list] holds the elements of the used
    objects whatever the dimension; the lists of the settings together are
    [bl_boundary_list] for the dimensions ["2"] and ["3"], and empty
    otherwise. *)
Theorem boundary_lists_by_dimension (H : Host) (s : FemGmshTools) :
  let s' := snd (get_boundary_layer_data H s) in
  Forall (keyed_for (dimension s)) (bl_setting_list s') /\
  (forall e,
     e ∈ bl_boundary_list s' <->
     exists mr, mr ∈ MeshBoundaryLayerList (mesh_obj s) /\ bl_used mr = true /\
                e ∈ bl_elements H (part_obj s) mr) /\
  concat (map setting_elements (bl_setting_list s'))
  = if layered_dimension (dimension s) then bl_boundary_list s' else [].
Proof.
  cbv zeta.
  destruct (get_boundary_layer_data_result H s) as (s' & E & _ & _ & _ & Hset & Hbound).
  rewrite E. cbn [snd]. rewrite Hset, Hbound. unfold bl_loop.
  set (acc0 := {| acc_belem_list := []; acc_boundary_list := [];
                  acc_settings := []; acc_events := [] |}).
  pose proof (bl_invariant_empty (dimension s)) as Hinv0. fold acc0 in Hinv0.
  split; [|split].
  - apply bl_fold_keyed. constructor.
  - intros e. rewrite (bl_fold_boundary H (part_obj s) (clmax s) (dimension s) _ acc0 e Hinv0).
    split; [intros [Hin|Hex]; [inversion Hin|exact Hex]|intros Hex; right; exact Hex].
  - apply (bl_fold_invariant H (part_obj s) (clmax s) (dimension s) _ acc0 Hinv0).
Qed.




(** ** The text of the script *)

(** ** Strings *)

Lemma append_nil_r (s : string) : s +:+ "" = s.
Proof.
  induction s as [|c s IH]; [reflexivity|].
  change (String c (s +:+ "") = String c s). rewrite IH. reflexivity.
Qed.

Lemma string_rev_onto_append (acc a b : string) :
  string_rev_onto acc (a +:+ b) = string_rev_onto (string_rev_onto acc a) b.
Proof.
  revert acc. induction a as [|c a IH]; intros acc; [reflexivity|].
  change (string_rev_onto (String c acc) (a +:+ b)
          = string_rev_onto (string_rev_onto (String c acc) a) b).
  apply IH.
Qed.

Lemma string_rev_onto_acc (acc s : string) :
  string_rev_onto acc s = string_rev s +:+ acc.
Proof.
  unfold string_rev. revert acc. induction s as [|c s IH]; intros acc; [reflexivity|].
  cbn [string_rev_onto]. rewrite (IH (String c acc)), (IH (String c "")).
  rewrite <- append_assoc. reflexivity.
Qed.

Lemma string_rev_snoc (a : string) (c : ascii) :
  string_rev (a +:+ String c "") = String c (string_rev a).
Proof.
  unfold string_rev. rewrite string_rev_onto_append. reflexivity.
Qed.

Lemma string_rev_cons (c : ascii) (s : string) :
  string_rev (String c s) = string_rev s +:+ String c "".
Proof. unfold string_rev. cbn [string_rev_onto]. apply string_rev_onto_acc. Qed.

Lemma string_rev_involutive (s : string) : string_rev (string_rev s) = s.
Proof.
  induction s as [|c s IH]; [reflexivity|].
  rewrite string_rev_cons, string_rev_snoc, IH. reflexivity.
Qed.

(** [rstrip] drops a last character that is in the set and stops at one
    that is not. *)
Lemma rstrip_drop (set a : string) (c : ascii) :
  char_in c set = true -> rstrip set (a +:+ String c "") = rstrip set a.
Proof.
  intros Hc. unfold rstrip. rewrite string_rev_snoc. cbn [lstrip]. rewrite Hc. reflexivity.
Qed.

Lemma rstrip_stop (set a : string) (c : ascii) :
  char_in c set = false -> rstrip set (a +:+ String c "") = a +:+ String c "".
Proof.
  intros Hc. unfold rstrip. rewrite string_rev_snoc. cbn [lstrip]. rewrite Hc.
  rewrite <- string_rev_snoc. apply string_rev_involutive.
Qed.

(** [lstrip] drops a prefix made of characters of the set and stops at a
    character that is not in it. *)
Lemma lstrip_prefix (set p n : string) :
  forallb (fun c => char_in c set) (chars p) = true ->
  lstrip set (p +:+ n) = lstrip set n.
Proof.
  induction p as [|c p IH]; [reflexivity|].
  cbn [chars list_ascii_of_string forallb]. intros Hp.
  apply andb_true_iff in Hp as [Hc Hp].
  change (lstrip set (String c (p +:+ n)) = lstrip set n).
  cbn [lstrip]. rewrite Hc. apply IH. exact Hp.
Qed.

Lemma digit_not_stripped (c : ascii) :
  is_digit c = true ->
  char_in c "Solid" = false /\ char_in c "Face" = false /\ char_in c "Edge" = false /\
  char_in c ", " = false.
Proof.
  destruct c as [[] [] [] [] [] [] [] []]; intros Hd; try discriminate Hd;
    repeat split; reflexivity.
Qed.

Lemma numeral_first (n : string) :
  numeral n -> exists c rest, n = String c rest /\ is_digit c = true.
Proof.
  intros [Hne Hd]. destruct n as [|c rest]; [contradiction|].
  cbn [chars list_ascii_of_string forallb] in Hd. apply andb_true_iff in Hd as [Hc _].
  eauto.
Qed.

Lemma numeral_last (n : string) :
  numeral n -> exists a c, n = a +:+ String c "" /\ is_digit c = true.
Proof.
  intros [Hne Hd]. induction n as [|c n IH]; [contradiction|].
  cbn [chars list_ascii_of_string forallb] in Hd. apply andb_true_iff in Hd as [Hc Hn].
  destruct n as [|d n'].
  - exists "", c. split; [reflexivity|exact Hc].
  - destruct IH as (a & e & E & He); [discriminate|exact Hn|].
    exists (String c a), e. split; [|exact He].
    change (String c (String d n') = String c (a +:+ String e "")). rewrite E. reflexivity.
Qed.

Lemma comma_separated_last (xs : list string) :
  xs <> [] -> Forall numeral xs ->
  exists a c, comma_separated xs = a +:+ String c "" /\ is_digit c = true.
Proof.
  intros Hne Hall. induction Hall as [|x xs Hx Hxs IH]; [contradiction|].
  destruct xs as [|y rest].
  - cbn [comma_separated]. apply numeral_last. exact Hx.
  - destruct IH as (a & c & E & Hc); [discriminate|].
    exists (x +:+ ", " +:+ a), c. split; [|exact Hc].
    change (comma_separated (x :: y :: rest))
      with (x +:+ ", " +:+ comma_separated (y :: rest)).
    rewrite E, <- !append_assoc. reflexivity.
Qed.

Lemma join_comma_separated (xs : list string) :
  xs <> [] ->
  join (map (fun x => x +:+ ", ") xs) = comma_separated xs +:+ ", ".
Proof.
  intros Hne. induction xs as [|x xs IH]; [contradiction|].
  destruct xs as [|y rest].
  - unfold join. cbn [map fold_right comma_separated]. apply append_nil_r.
  - change (join (map (fun x => x +:+ ", ") (x :: y :: rest)))
      with ((x +:+ ", ") +:+ join (map (fun x => x +:+ ", ") (y :: rest))).
    rewrite IH by discriminate.
    change (comma_separated (x :: y :: rest))
      with (x +:+ ", " +:+ comma_separated (y :: rest)).
    rewrite <- !append_assoc. reflexivity.
Qed.

(** The numbers, each followed by a comma and a blank, with the end
    stripped: the numbers separated by a comma and a blank. *)
Lemma rstrip_join_numbers (xs : list string) :
  Forall numeral xs ->
  rstrip ", " (join (map (fun x => x +:+ ", ") xs)) = comma_separated xs.
Proof.
  intros Hall. destruct xs as [|x rest] eqn:E; [reflexivity|]. rewrite <- E in *.
  assert (Hne : xs <> []) by (rewrite E; discriminate).
  rewrite (join_comma_separated xs Hne).
  destruct (comma_separated_last xs Hne Hall) as (a & c & -> & Hc).
  destruct (digit_not_stripped c Hc) as (_ & _ & _ & Hkeep).
  change ", " with ("," +:+ " ").
  rewrite append_assoc, rstrip_drop by reflexivity.
  rewrite rstrip_drop by reflexivity.
  apply rstrip_stop. exact Hkeep.
Qed.

Lemma lstrip_numeral (set p n : string) :
  forallb (fun c => char_in c set) (chars p) = true ->
  (forall c, is_digit c = true -> char_in c set = false) ->
  numeral n -> lstrip set (p +:+ n) = n.
Proof.
  intros Hp Hset Hn. rewrite (lstrip_prefix set p n Hp).
  destruct (numeral_first n Hn) as (c & rest & -> & Hc).
  cbn [lstrip]. rewrite (Hset c Hc). reflexivity.
Qed.

Lemma slice_from_prefix (p n : string) : slice_from (String.length p) (p +:+ n) = n.
Proof.
  induction p as [|c p IH]; [destruct n; reflexivity|].
  change (slice_from (String.length p) (p +:+ n) = n). exact IH.
Qed.

Lemma map_map_numbers (f : string -> string) (p : string) (numbers : list string) :
  Forall (fun n => f (p +:+ n) = n) numbers ->
  map (fun ele => f ele +:+ ", ") (map (String.append p) numbers)
  = map (fun x => x +:+ ", ") numbers.
Proof.
  induction 1 as [|n ns Hn _ IH]; [reflexivity|].
  cbn [map]. rewrite Hn, IH. reflexivity.
Qed.

(** X12.  For elements named by a prefix and a number: the physical entity
    of a group of solids, of faces or of edges lists the numbers separated
    by a comma and a blank, with nothing after the last; so does the list of
    faces or of edges of a boundary layer setting. *)
Theorem element_numbers_written (kind group : string) (numbers : list string) :
  Forall numeral numbers ->
  let line (ids : string) :=
    "Physical " +:+ kind +:+ "(" +:+ DQ +:+ group +:+ DQ +:+ ") = {" +:+ ids +:+ "};" +:+ LF in
  (forall prefix, prefix ∈ ["Solid"; "Face"; "Edge"] ->
     physical_line kind group (element_numbers prefix (map (String.append prefix) numbers))
     = line (comma_separated numbers)) /\
  (forall prefix, prefix ∈ ["Face"; "Edge"] ->
     element_ids (map (String.append prefix) numbers) = comma_separated numbers).
Proof.
  intros Hall. cbv zeta. split.
  - intros prefix Hin. unfold physical_line, element_numbers.
    rewrite (map_map_numbers (lstrip prefix) prefix numbers).
    + rewrite rstrip_join_numbers by exact Hall. reflexivity.
    + eapply List.Forall_impl; [|exact Hall]. intros n Hn.
      apply list_elem_of_In in Hin. cbn [In] in Hin.
      destruct Hin as [<-|[<-|[<-|[]]]]; apply lstrip_numeral; try reflexivity;
        try exact Hn; intros c Hc; apply (digit_not_stripped c Hc).
  - intros prefix Hin. unfold element_ids.
    rewrite (map_map_numbers (slice_from 4) prefix numbers).
    + apply rstrip_join_numbers. exact Hall.
    + apply List.Forall_forall. intros n _.
      apply list_elem_of_In in Hin. cbn [In] in Hin.
      destruct Hin as [<-|[<-|[]]];
        [exact (slice_from_prefix "Face" n)|exact (slice_from_prefix "Edge" n)].
Qed.

Lemma element_numbers_written_witness :
  physical_line "Surface" "Wall" (element_numbers "Face" ["Face3"; "Face12"])
  = "Physical Surface(" +:+ DQ +:+ "Wall" +:+ DQ +:+ ") = {3, 12};" +:+ LF.
Proof.
  apply (proj1 (element_numbers_written "Surface" "Wall" ["3"; "12"]
                  ltac:(repeat constructor; discriminate)) "Face").
  member.
Defined.









(** ** Runs as a whole *)

Lemma is_print_quiet (e : event) : is_print e -> quiet e.
Proof. destruct e; cbn; tauto. Qed.

Lemma is_print_not_read (e : event) : is_print e -> not_read e.
Proof. destruct e; cbn; tauto. Qed.

Lemma quiet_not_read (e : event) : quiet e -> not_read e.
Proof. destruct e; cbn; tauto. Qed.

Lemma configuration_kept_refl (P : event -> Prop) (s : FemGmshTools) :
  configuration_kept P s s.
Proof.
  unfold configuration_kept. repeat (split; [reflexivity|]).
  exists []. rewrite app_nil_r. split; [reflexivity|constructor].
Qed.

Lemma configuration_kept_trans (P : event -> Prop) (s1 s2 s3 : FemGmshTools) :
  configuration_kept P s1 s2 -> configuration_kept P s2 s3 -> configuration_kept P s1 s3.
Proof.
  unfold configuration_kept.
  intros (A1 & A2 & A3 & A4 & A5 & A6 & A7 & A8 & A9 & es1 & T1 & F1)
         (B1 & B2 & B3 & B4 & B5 & B6 & B7 & B8 & B9 & es2 & T2 & F2).
  repeat (split; [congruence|]).
  exists (es1 ++ es2). rewrite T2, T1, app_assoc. split; [reflexivity|].
  apply Forall_app. split; assumption.
Qed.

Lemma configuration_kept_impl (P Q : event -> Prop) (s s' : FemGmshTools) :
  (forall e, P e -> Q e) -> configuration_kept P s s' -> configuration_kept Q s s'.
Proof.
  unfold configuration_kept.
  intros HPQ (A1 & A2 & A3 & A4 & A5 & A6 & A7 & A8 & A9 & es & T & F).
  repeat (split; [assumption|]).
  exists es. split; [exact T|]. eapply List.Forall_impl; [exact HPQ|exact F].
Qed.

(** The events of the loops are prints. *)
Lemma resolve_element_prints (H : Host) (part : DocumentObject) (msg : string)
    (sub0 : DocumentObject) (elems : string) :
  Forall is_print (snd (resolve_element H part msg sub0 elems)).
Proof.
  unfold resolve_element.
  destruct (negb _); [|constructor].
  destruct (find_element _ _ _ _); repeat constructor.
Qed.

Lemma region_fold_prints (H : Host) (part : DocumentObject) (regions : list MeshRegion)
    (acc : gmap string Q * list event) :
  Forall is_print (snd acc) ->
  Forall is_print (snd (fold_left (region_add H part) regions acc)).
Proof.
  revert acc. induction regions as [|mr regions IH]; intros acc Hacc; cbn [fold_left].
  - exact Hacc.
  - apply IH. unfold region_add.
    destruct (negb _); [|cbn; apply Forall_app; split; [exact Hacc|repeat constructor]].
    destruct (mr_References mr) as [|sub refs] eqn:E;
      [cbn; apply Forall_app; split; [exact Hacc|repeat constructor]|].
    rewrite <- E. clear E.
    rewrite (fold_left_references (region_add_element H part mr)).
    generalize (flat_references (mr_References mr)) as ps. intros ps.
    revert acc Hacc. induction ps as [|p ps IHp]; intros acc Hacc; cbn [fold_left].
    + exact Hacc.
    + apply IHp. unfold region_add_element.
      pose proof (resolve_element_prints H part (region_not_found mr) (fst p) (snd p)) as Hf.
      destruct (resolve_element H part (region_not_found mr) (fst p) (snd p)) as [e found].
      cbn [snd] in Hf.
      destruct (fst acc !! e); cbn [snd]; rewrite ?Forall_app;
        repeat split; try assumption; repeat constructor.
Qed.

Lemma bl_loop_prints (H : Host) (part : DocumentObject) (clmax : Q) (dimension : string)
    (layers : list MeshBoundaryLayer) :
  Forall is_print (acc_events (bl_loop H part clmax dimension layers)).
Proof.
  unfold bl_loop.
  assert (Hgen : forall acc,
    Forall is_print (acc_events acc) ->
    Forall is_print (acc_events (fold_left (bl_add H part clmax dimension) layers acc))).
  { induction layers as [|mr layers IH]; intros acc Hacc; cbn [fold_left]; [exact Hacc|].
    apply IH. unfold bl_add.
    destruct (Qlt_bool 0 (MinimumThickness mr));
      [|cbn; apply Forall_app; split; [exact Hacc|repeat constructor]].
    destruct (bl_References mr) as [|sub refs] eqn:E;
      [cbn; apply Forall_app; split; [exact Hacc|repeat constructor]|].
    rewrite <- E. clear E.
    rewrite (fold_left_references (bl_add_element H part mr)).
    match goal with
    | |- context [fold_left ?f ?ps ?a] =>
        assert (Hsteps : Forall is_print (acc_events (fold_left f ps a)))
    end.
    { cbn [acc_events].
      match goal with
      | |- context [fold_left _ _ ?a] =>
          assert (Ha : Forall is_print (acc_events a)) by exact Hacc; revert Ha;
          generalize a
      end.
      generalize (flat_references (bl_References mr)) as ps.
      induction ps as [|p ps IHp]; intros a Ha; cbn [fold_left]; [exact Ha|].
      apply IHp. unfold bl_add_element.
      pose proof (resolve_element_prints H part (bl_not_found mr) (fst p) (snd p)) as Hf.
      destruct (resolve_element H part (bl_not_found mr) (fst p) (snd p)) as [e found].
      cbn [snd] in Hf.
      destruct (decide (e ∈ acc_boundary_list a)); cbn [acc_events]; rewrite ?Forall_app;
        repeat split; try assumption; repeat constructor. }
    match goal with
    | |- context [make_setting ?c ?d ?m ?b] =>
        assert (Hm : Forall is_print (snd (make_setting c d m b)));
        [|destruct (make_setting c d m b) as [st evs]]
    end.
    { unfold make_setting.
      destruct (String.eqb dimension "2"); [constructor|].
      destruct (String.eqb dimension "3"); repeat constructor. }
    cbn [acc_events]. apply Forall_app. split; [exact Hsteps|exact Hm]. }
  apply Hgen. constructor.
Qed.

Lemma replicate_prints (k : nat) (msg : string) :
  Forall is_print (replicate k (PrintError msg)).
Proof. induction k; cbn; constructor; [exact I|assumption]. Qed.

Lemma add_groups_prints (new : gmap string (list string))
    (acc : gmap string (list string) * list event) :
  Forall is_print (snd acc) -> Forall is_print (snd (add_groups new acc)).
Proof.
  intros Hacc. destruct (add_groups_union new acc) as (k & -> & _). cbn [snd].
  apply Forall_app. split; [exact Hacc|apply replicate_prints].
Qed.

Lemma mesh_groups_prints (H : Host) (part : DocumentObject) (groups : list MeshGroup)
    (acc : gmap string (list string) * list event) :
  Forall is_print (snd acc) ->
  Forall is_print
    (snd (fold_left (fun acc mg => add_groups (get_mesh_group_elements H mg part) acc)
            groups acc)).
Proof.
  intros Hacc. destruct (mesh_groups_fold H part groups acc) as (k & -> & _). cbn [snd].
  apply Forall_app. split; [exact Hacc|apply replicate_prints].
Qed.

Section ConfigurationFrame.

Variable P : event -> Prop.
Hypothesis prints_in_P : forall e, is_print e -> P e.

Lemma respects_only_prints {A} (m : M A) :
  only_prints m -> respects (configuration_kept P) m.
Proof.
  intros Hm s. destruct (Hm s) as (es & -> & Hes).
  unfold configuration_kept. cbn. repeat (split; [reflexivity|]).
  exists es. split; [reflexivity|].
  eapply List.Forall_impl; [exact prints_in_P|exact Hes].
Qed.

Lemma prints_kept (es : list event) : Forall is_print es -> Forall P es.
Proof. apply List.Forall_impl. exact prints_in_P. Qed.

End ConfigurationFrame.

(** A step of a proof that a method is in [configuration_kept P]; [ev]
    proves that an event is in [P]. *)
Ltac frame_events ev :=
  first [ assumption
        | apply prints_kept; [first [assumption|intros ? ?; ev]|];
          first [ assumption
                | apply region_fold_prints; constructor
                | apply bl_loop_prints
                | apply mesh_groups_prints; constructor
                | apply add_groups_prints; constructor ]
        | repeat (constructor; [ev|]); constructor ].

Ltac frame_assignment ev :=
  intros; unfold configuration_kept;
  cbn [mesh_obj analysis part_obj clmax clmin geotol order dimension algorithm2D
       algorithm3D trace set_mesh_obj set_dimension set_temp_file_geometry
       set_temp_file_mesh set_temp_file_geo set_mesh_name set_gmsh_bin
       set_group_elements set_ele_length_map set_ele_node_map set_bl_setting_list
       set_bl_boundary_list set_error set_trace];
  repeat (split; [reflexivity|]);
  first [ exists []; split; [rewrite app_nil_r; reflexivity|constructor]
        | eexists; split; [reflexivity|frame_events ev] ].

Ltac frame_step ev :=
  match goal with
  | |- forall _, _ => intros
  | |- respects _ (bind _ _) => apply (respects_bind _ (configuration_kept_trans _))
  | |- respects _ (ret _) => apply (respects_ret _ (configuration_kept_refl _))
  | |- respects _ (raise _) => apply (respects_raise _ (configuration_kept_refl _))
  | |- respects _ get => apply (respects_get _ (configuration_kept_refl _))
  | |- respects _ (getattr _ _) => apply (respects_getattr _ (configuration_kept_refl _))
  | |- respects _ (try_except _ _) =>
      apply (respects_try_except _ (configuration_kept_trans _))
  | |- respects _ (modify _) => apply respects_modify; frame_assignment ev
  | |- respects _ (emit _) => apply respects_modify; frame_assignment ev
  | |- respects _ (emits _) => apply respects_modify; frame_assignment ev
  | |- respects _ (match fold_left (region_add ?H ?p) ?l ?a with _ => _ end) =>
      let Hp := fresh "Hp" in
      pose proof (region_fold_prints H p l a (List.Forall_nil _)) as Hp;
      destruct (fold_left (region_add H p) l a); cbn [snd] in Hp
  | |- respects _ (match fold_left
                           (fun acc mg => add_groups (get_mesh_group_elements ?H mg ?p) acc)
                           ?l ?a with _ => _ end) =>
      let Hp := fresh "Hp" in
      pose proof (mesh_groups_prints H p l a (List.Forall_nil _)) as Hp;
      destruct (fold_left (fun acc mg => add_groups (get_mesh_group_elements H mg p) acc) l a);
      cbn [snd] in Hp
  | |- respects _ (match add_groups ?new ?a with _ => _ end) =>
      let Hp := fresh "Hp" in
      pose proof (add_groups_prints new a (List.Forall_nil _)) as Hp;
      destruct (add_groups new a); cbn [snd] in Hp
  | |- respects _ (write_characteristic_lengths _) =>
      apply respects_only_prints;
      [intros ? ?; ev|apply write_characteristic_lengths_prints]
  | |- respects _ write_group =>
      apply respects_only_prints; [intros ? ?; ev|apply write_group_prints]
  | |- respects _ (write_boundary_layer _) =>
      apply respects_only_prints; [intros ? ?; ev|apply write_boundary_layer_prints]
  | |- respects _ (if ?b then _ else _) => destruct b
  | |- respects _ (match ?x with _ => _ end) => destruct x
  | |- respects _ _ => progress cbv zeta
  end.

Ltac quiet_event := first [exact I | reflexivity | apply is_print_quiet; assumption].
Ltac not_read_event := first [exact I | apply is_print_not_read; assumption].

Section QuietStages.

Variable H : Host.

Lemma get_tmp_file_paths_quiet : respects (configuration_kept quiet) (get_tmp_file_paths H).
Proof. unfold get_tmp_file_paths. repeat frame_step quiet_event. Qed.

Lemma get_gmsh_command_quiet : respects (configuration_kept quiet) (get_gmsh_command H).
Proof. unfold get_gmsh_command. repeat frame_step quiet_event. Qed.

Lemma get_group_data_quiet : respects (configuration_kept quiet) (get_group_data H).
Proof. unfold get_group_data. repeat frame_step quiet_event. Qed.

Lemma get_region_data_quiet : respects (configuration_kept quiet) (get_region_data H).
Proof. unfold get_region_data. repeat frame_step quiet_event. Qed.

Lemma get_boundary_layer_data_quiet :
  respects (configuration_kept quiet) (get_boundary_layer_data H).
Proof. unfold get_boundary_layer_data. repeat frame_step quiet_event. Qed.

End QuietStages.

Lemma get_dimension_prints : respects (configuration_kept is_print) get_dimension.
Proof. unfold get_dimension. repeat frame_step ltac:(first [exact I|assumption]). Qed.

Section LaterStages.

Variable H : Host.

Lemma write_part_file_reads_nothing :
  respects (configuration_kept not_read) (write_part_file H).
Proof. unfold write_part_file. repeat frame_step not_read_event. Qed.

Lemma write_geo_reads_nothing (scaling : bool) :
  respects (configuration_kept not_read) (write_geo H scaling).
Proof. unfold write_geo. repeat frame_step not_read_event. Qed.

Lemma run_gmsh_with_geo_reads_nothing :
  respects (configuration_kept not_read) (run_gmsh_with_geo H).
Proof. unfold run_gmsh_with_geo. repeat frame_step not_read_event. Qed.

End LaterStages.

(** [write_part_file] that returns has exported to the geometry path. *)
Lemma write_part_file_ok (H : Host) (s s' : FemGmshTools) :
  write_part_file H s = (Ok tt, s') ->
  exists geometry,
    temp_file_geometry s = Some geometry /\
    s' = set_trace (trace s ++ [ExportBrep geometry]) s.
Proof.
  unfold write_part_file, bind, get, getattr, emit, modify, raise.
  destruct (temp_file_geometry s) as [geometry|]; [|discriminate].
  destruct (exportBrep H (Shape_ (part_obj s)) geometry); [|discriminate].
  intros [= <-]. eauto.
Qed.

(** [write_geo] that returns: the paths in the text are those of the
    instance. *)
Lemma write_geo_paths (H : Host) (scaling : bool) (s s' : FemGmshTools) :
  write_geo H scaling s = (Ok tt, s') ->
  exists es path geometry lengths groups layers code mesh bin,
    s' = set_trace
           (trace s ++ es ++
            [CloseGeo path
               (geo_merge geometry ++ geo_scaling H scaling ++ lengths ++ groups
                ++ layers ++ geo_sizes H s ++ geo_recombine s ++ geo_optimize s
                ++ geo_algorithm s ++ geo_meshing H s
                ++ geo_output code mesh bin path)]) s /\
    Forall (fun e => is_print e \/ e = OpenGeo path) es /\
    temp_file_geo s = Some path /\
    temp_file_geometry s = Some geometry /\
    temp_file_mesh s = Some mesh /\
    gmsh_bin s = Some bin /\
    supported_mesh_output_formats !! OutputFormat (mesh_obj s) = Some code.
Proof.
  unfold write_geo. intros Hrun.
  unfold bind at 1, getattr at 1 in Hrun.
  destruct (temp_file_geo s) as [path|] eqn:Hpath; [|discriminate].
  unfold bind at 1 in Hrun.
  destruct (open_for_writing H path); [|discriminate].
  unfold emit at 1, modify at 1 in Hrun.
  unfold bind at 1, getattr at 1 in Hrun. cbn [temp_file_geometry set_trace] in Hrun.
  destruct (temp_file_geometry s) as [geometry|] eqn:Hgeometry; [|discriminate].
  unfold bind at 1 in Hrun.
  match type of Hrun with
  | context [write_characteristic_lengths H ?s1] =>
      destruct (only_prints_run _ s1 (write_characteristic_lengths_prints H))
        as (r1 & es1 & E1 & P1); rewrite E1 in Hrun
  end.
  destruct r1 as [lengths|]; [|discriminate].
  unfold bind at 1 in Hrun.
  match type of Hrun with
  | context [write_group ?s1] =>
      destruct (only_prints_run _ s1 write_group_prints)
        as (r2 & es2 & E2 & P2); rewrite E2 in Hrun
  end.
  destruct r2 as [groups|]; [|discriminate].
  unfold bind at 1 in Hrun.
  match type of Hrun with
  | context [write_boundary_layer H ?s1] =>
      destruct (only_prints_run _ s1 (write_boundary_layer_prints H))
        as (r3 & es3 & E3 & P3); rewrite E3 in Hrun
  end.
  destruct r3 as [layers|]; [|discriminate].
  unfold bind at 1, get at 1 in Hrun.
  cbn [mesh_obj set_trace trace] in Hrun.
  destruct (supported_mesh_output_formats !! OutputFormat (mesh_obj s)) as [code|] eqn:Hcode;
    [|discriminate].
  unfold bind at 1, getattr at 1 in Hrun. cbn [temp_file_mesh set_trace] in Hrun.
  destruct (temp_file_mesh s) as [mesh|] eqn:Hmesh; [|discriminate].
  unfold bind at 1, getattr at 1 in Hrun. cbn [gmsh_bin set_trace] in Hrun.
  destruct (gmsh_bin s) as [bin|] eqn:Hbin; [|discriminate].
  unfold emit, modify in Hrun.
  match type of Hrun with
  | (_, set_trace (_ ++ [CloseGeo _ ?t]) _) = _ => set (text := t) in Hrun
  end.
  injection Hrun as <-.
  exists ([OpenGeo path] ++ es1 ++ es2 ++ es3), path, geometry, lengths, groups, layers,
    code, mesh, bin.
  split; [|split; [|repeat split; reflexivity]].
  - rewrite !set_trace_set_trace. cbn [trace set_trace].
    rewrite <- !app_assoc. unfold text. reflexivity.
  - apply Forall_app. split; [repeat constructor; right; reflexivity|].
    rewrite !Forall_app. repeat split;
      (eapply List.Forall_impl; [|eassumption]); intros e He; left; exact He.
Qed.

(** [run_gmsh_with_geo] that returns has started the binary on the script
    and returns what the process wrote to its standard error. *)
Lemma run_gmsh_with_geo_process (H : Host) (s s' : FemGmshTools) (err : string) :
  run_gmsh_with_geo H s = (Ok err, s') ->
  exists bin geo status output,
    gmsh_bin s = Some bin /\
    temp_file_geo s = Some geo /\
    run_process H [bin; "-"; geo] = Some (status, output, err) /\
    s' = set_trace (trace s ++ [Spawn [bin; "-"; geo]]) (set_error false s).
Proof.
  unfold run_gmsh_with_geo, bind, modify, getattr, try_except, emit, ret, raise. cbn.
  destruct (gmsh_bin s) as [bin|]; [|discriminate]. cbn.
  destruct (temp_file_geo s) as [geo|]; [|discriminate]. cbn.
  destruct (run_process H [bin; "-"; geo]) as [[[status output] error]|] eqn:Eproc;
    [|discriminate].
  cbn. intros [= <- <-]. exists bin, geo, status, output. repeat split. exact Eproc.
Qed.

(** [read_and_set_new_mesh] that returns, [self.error] being [False], has
    read the output file into the mesh object and has deleted the paths of
    the geometry and of the output. *)
Lemma read_and_set_new_mesh_done (H : Host) (s s' : FemGmshTools) :
  error s = false ->
  read_and_set_new_mesh H s = (Ok tt, s') ->
  exists mesh fem_mesh,
    temp_file_mesh s = Some mesh /\
    Fem_read H mesh = Some fem_mesh /\
    s' = set_temp_file_mesh None
           (set_temp_file_geometry None
              (set_trace (trace s ++ [FemRead mesh; Print new_mesh_message])
                 (set_mesh_obj (set_FemMesh fem_mesh (mesh_obj s)) s))).
Proof.
  intros Herr.
  unfold read_and_set_new_mesh, bind, modify, getattr, emit, ret, raise, get.
  rewrite Herr. cbn.
  destruct (temp_file_mesh s) as [path|] eqn:Emesh; [|discriminate]. cbn.
  destruct (Fem_read H path) as [fem_mesh|] eqn:Eread; [|discriminate]. cbn.
  destruct (temp_file_geometry s); [|discriminate]. cbn. rewrite Emesh.
  intros [= <-]. exists path, fem_mesh. split; [reflexivity|]. split; [exact Eread|].
  cbn. rewrite <- app_assoc. reflexivity.
Qed.

(** The stages that [create_mesh] and [export_mesh] share, from
    [get_tmp_file_paths] to [run_gmsh_with_geo], followed by [k]: when the
    whole returns, the stages have left the paths, exported the geometry,
    written the script, started the binary on it, and [k] has run on what
    they left. *)
Lemma mesh_stages_ok {A} (H : Host) (scaling : bool) (k : string -> M A)
    (s s' : FemGmshTools) (a : A) :
  (get_tmp_file_paths H ;;;
   get_gmsh_command H ;;;
   get_group_data H ;;;
   get_region_data H ;;;
   get_boundary_layer_data H ;;;
   write_part_file H ;;;
   write_geo H scaling ;;;
   error <- run_gmsh_with_geo H ;;
   k error) s = (Ok a, s') ->
  exists sb s5 before geometry es path lengths groups layers code bin mesh status output err,
    configuration_kept quiet s sb /\
    get_boundary_layer_data H sb = (Ok tt, s5) /\
    configuration_kept quiet s s5 /\
    trace s5 = trace s ++ before /\
    Forall quiet before /\
    temp_file_geometry s5 = Some geometry /\
    temp_file_geo s5 = Some path /\
    temp_file_mesh s5 = Some mesh /\
    gmsh_bin s5 = Some bin /\
    supported_mesh_output_formats !! OutputFormat (mesh_obj s5) = Some code /\
    Forall (fun e => is_print e \/ e = OpenGeo path) es /\
    run_process H [bin; "-"; path] = Some (status, output, err) /\
    k err
      (set_trace
         (trace s5 ++ [ExportBrep geometry] ++ es
          ++ [CloseGeo path
                (geo_text H scaling s5 geometry path mesh bin code lengths groups layers);
              Spawn [bin; "-"; path]])
         (set_error false s5))
    = (Ok a, s').
Proof.
  intros Hrun.
  run_stage Hrun (get_tmp_file_paths_quiet H).
  run_stage Hrun (get_gmsh_command_quiet H).
  run_stage Hrun (get_group_data_quiet H).
  run_stage Hrun (get_region_data_quiet H).
  run_stage Hrun (get_boundary_layer_data_quiet H).
  pose proof (configuration_kept_trans _ _ _ _ K
                (configuration_kept_trans _ _ _ _ K0
                   (configuration_kept_trans _ _ _ _ K1 K2))) as Kb.
  pose proof (configuration_kept_trans _ _ _ _ Kb K3) as K5.
  pose proof K5 as (_ & _ & _ & _ & _ & _ & _ & _ & _ & before & Tb & Fb).
  apply bind_ok in Hrun as ([] & sp & Ep & Hrun).
  apply write_part_file_ok in Ep as (geometry & Hg & ->).
  apply bind_ok in Hrun as ([] & sw & Ew & Hrun).
  apply write_geo_paths in Ew
    as (es & path & geometry' & lengths & groups & layers & code & mesh & bin
        & -> & Fes & Hpath & Hg' & Hmesh & Hbin & Hcode).
  cbn [temp_file_geo temp_file_geometry temp_file_mesh gmsh_bin set_trace trace mesh_obj]
    in Hpath, Hg', Hmesh, Hbin, Hcode.
  assert (geometry' = geometry) as -> by congruence.
  apply bind_ok in Hrun as (err & sr & Er & Hrun).
  apply run_gmsh_with_geo_process in Er
    as (bin' & geo & status & output & Hbin' & Hgeo & Hproc & ->).
  cbn [gmsh_bin temp_file_geo set_trace] in Hbin', Hgeo.
  assert (bin' = bin) as -> by congruence.
  assert (geo = path) as -> by congruence.
  destruct a4.
  exists s3, s4, before, geometry, es, path, lengths, groups, layers, code, bin, mesh,
    status, output, err.
  split; [exact Kb|]. split; [exact E3|]. split; [exact K5|]. split; [exact Tb|].
  split; [exact Fb|]. split; [exact Hg|]. split; [exact Hpath|]. split; [exact Hmesh|].
  split; [exact Hbin|]. split; [exact Hcode|]. split; [exact Fes|]. split; [exact Hproc|].
  rewrite <- Hrun. f_equal.
  cbn [trace set_trace set_error]. rewrite <- !app_assoc. reflexivity.
Qed.

(** X15.  A run of [create_mesh] after [get_dimension] that returns has,
    after prints and the lookup of the binary, exported the geometry, then
    written the script, then started the binary on that script, then read
    the output file: in this order, each once.  The script merges the file
    that was exported and saves to the file that is read; the mesh object is
    as it was but for the mesh that was read; the paths of the geometry and
    of the output are deleted and that of the script is kept; the value
    returned is what the process wrote to its standard error. *)
Theorem create_mesh_pipeline (H : Host) (s s' : FemGmshTools) (r : string) :
  create_mesh_after_dimension H s = (Ok r, s') ->
  exists before geometry es path text bin mesh status output fem_mesh,
    trace s'
    = trace s ++ before ++ [ExportBrep geometry] ++ es
      ++ [CloseGeo path text; Spawn [bin; "-"; path]; FemRead mesh; Print new_mesh_message] /\
    Forall quiet before /\
    Forall (fun e => is_print e \/ e = OpenGeo path) es /\
    ("Merge " +:+ DQ +:+ geometry +:+ DQ +:+ ";" +:+ LF) ∈ text /\
    ("Save " +:+ DQ +:+ mesh +:+ DQ +:+ ";" +:+ LF) ∈ text /\
    run_process H [bin; "-"; path] = Some (status, output, r) /\
    Fem_read H mesh = Some fem_mesh /\
    mesh_obj s' = set_FemMesh fem_mesh (mesh_obj s) /\
    temp_file_geometry s' = None /\
    temp_file_mesh s' = None /\
    temp_file_geo s' = Some path.
Proof.
  unfold create_mesh_after_dimension. intros Hrun.
  apply mesh_stages_ok in Hrun
    as (sb & s5 & before & geometry & es & path & lengths & groups & layers & code & bin
        & mesh & status & output & err & _ & _ & K5 & Tb & Fb & Hg & Hpath & Hmesh & Hbin
        & _ & Fes & Hproc & Hrun).
  destruct K5 as (Hobj & _).
  apply bind_ok in Hrun as ([] & sd & Ed & Hrun).
  apply read_and_set_new_mesh_done in Ed as (mesh' & fem_mesh & Hmesh' & Hread & ->);
    [|reflexivity].
  cbn [temp_file_mesh set_trace set_error] in Hmesh'.
  assert (mesh' = mesh) as -> by congruence.
  injection Hrun as <- <-.
  exists before, geometry, es, path,
    (geo_text H false s5 geometry path mesh bin code lengths groups layers),
    bin, mesh, status, output, fem_mesh.
  split; [|split; [exact Fb|split; [exact Fes|split; [|split; [|split; [exact Hproc|
    split; [exact Hread|split; [|split; [reflexivity|split; [reflexivity|]]]]]]]]]].
  - cbn [trace set_temp_file_mesh set_temp_file_geometry set_trace set_mesh_obj set_error].
    rewrite Tb. repeat (cbn [app]; rewrite <- ?app_assoc). reflexivity.
  - unfold geo_text, geo_merge. rewrite !elem_of_app. member.
  - unfold geo_text, geo_output. rewrite !elem_of_app. member.
  - cbn [mesh_obj set_temp_file_mesh set_temp_file_geometry set_trace set_mesh_obj set_error].
    rewrite Hobj. reflexivity.
  - cbn [temp_file_geo set_temp_file_mesh set_temp_file_geometry set_trace set_mesh_obj
         set_error]. exact Hpath.
Qed.

Lemma create_mesh_pipeline_witness :
  let h := Demo.host (Some (1%Z, "", "Error")) in
  let s := snd (get_dimension (init Demo.box_mesh None)) in
  fst (create_mesh_after_dimension h s) = Ok "Error" /\
  exists before geometry es path text bin mesh,
    trace (snd (create_mesh_after_dimension h s))
    = trace s ++ before ++ [ExportBrep geometry] ++ es
      ++ [CloseGeo path text; Spawn [bin; "-"; path]; FemRead mesh; Print new_mesh_message].
Proof.
  cbv zeta.
  assert (Hfst : fst (create_mesh_after_dimension (Demo.host (Some (1%Z, "", "Error")))
                        (snd (get_dimension (init Demo.box_mesh None)))) = Ok "Error")
    by (vm_compute; reflexivity).
  split; [exact Hfst|].
  destruct (create_mesh_pipeline (Demo.host (Some (1%Z, "", "Error")))
              (snd (get_dimension (init Demo.box_mesh None))) _ "Error"
              (eq_trans (surjective_pairing _) (f_equal (fun r => (r, _)) Hfst)))
    as (before & geometry & es & path & text & bin & mesh & _ & _ & _ & Ht & _).
  exists before, geometry, es, path, text, bin, mesh. exact Ht.
Defined.

Lemma script_of_trace (s : FemGmshTools) (pre post : list event) (path : string)
    (text : list string) (line : string) :
  trace s = pre ++ CloseGeo path text :: post -> line ∈ text -> line ∈ script s.
Proof.
  intros Ht Hin. unfold script. rewrite Ht, map_app, concat_app. cbn [map concat].
  rewrite !elem_of_app. right. left. exact Hin.
Qed.

Lemma mesh_reads_kept (s s' : FemGmshTools) (es : list event) :
  trace s' = trace s ++ es -> Forall not_read es -> mesh_reads s' = mesh_reads s.
Proof.
  intros Ht Hes. unfold mesh_reads. rewrite Ht, map_app, concat_app.
  match goal with
  | |- _ ++ ?l = _ => assert (Hnone : l = []); [|rewrite Hnone; apply app_nil_r]
  end.
  clear Ht. induction Hes as [|e es He _ IH]; [reflexivity|].
  cbn [map concat]. rewrite IH. destruct e; try reflexivity. destruct He.
Qed.

Lemma no_used_layer (layers : list MeshBoundaryLayer) :
  Nat.eqb (length (List.filter bl_used layers)) 0 = negb (existsb bl_used layers).
Proof.
  induction layers as [|mr layers IH]; [reflexivity|].
  cbn [List.filter existsb]. destruct (bl_used mr); [reflexivity|exact IH].
Qed.

(** X16.  The script of such a run sets [Mesh.CharacteristicLengthMax] to the
    resolved [clmax], and [Mesh.CharacteristicLengthMin] to 0 as soon as one
    boundary layer object is used, to [clmin] otherwise. *)
Theorem characteristic_lengths_of_the_script (H : Host) (s s' : FemGmshTools) (r : string) :
  create_mesh_after_dimension H s = (Ok r, s') ->
  ("Mesh.CharacteristicLengthMax = " +:+ str_float H (clmax s) +:+ ";" +:+ LF) ∈ script s' /\
  ("Mesh.CharacteristicLengthMin = "
   +:+ (if existsb bl_used (MeshBoundaryLayerList (mesh_obj s)) then "0"
        else str_float H (clmin s))
   +:+ ";" +:+ LF) ∈ script s'.
Proof.
  unfold create_mesh_after_dimension. intros Hrun.
  apply mesh_stages_ok in Hrun
    as (sb & s5 & before & geometry & es & path & lengths & groups & layers & code & bin
        & mesh & status & output & err & Kb & Eb & K5 & _ & _ & _ & _ & Hmesh & _
        & _ & _ & _ & Hrun).
  destruct Kb as (Hobj & _).
  destruct K5 as (_ & _ & _ & Hclmax & Hclmin & _).
  pose proof (get_boundary_layer_data_settings H sb) as Hset.
  rewrite Eb in Hset. cbn [snd] in Hset. apply Forall2_length in Hset.
  rewrite Hobj in Hset.
  apply bind_ok in Hrun as ([] & sd & Ed & Hrun).
  apply read_and_set_new_mesh_done in Ed as (mesh' & fem_mesh & _ & _ & ->);
    [|reflexivity].
  injection Hrun as _ <-.
  match goal with
  | |- context [CloseGeo path ?t] => set (text := t)
  end.
  assert (Htext : forall line, line ∈ text -> line ∈ script
    (set_temp_file_mesh None
       (set_temp_file_geometry None
          (set_trace
             (trace
                (set_trace
                   (trace s5 ++ [ExportBrep geometry] ++ es
                    ++ [CloseGeo path text; Spawn [bin; "-"; path]])
                   (set_error false s5))
              ++ [FemRead mesh'; Print new_mesh_message])
             (set_mesh_obj
                (set_FemMesh fem_mesh
                   (mesh_obj
                      (set_trace
                         (trace s5 ++ [ExportBrep geometry] ++ es
                          ++ [CloseGeo path text; Spawn [bin; "-"; path]])
                         (set_error false s5))))
                (set_trace
                   (trace s5 ++ [ExportBrep geometry] ++ es
                    ++ [CloseGeo path text; Spawn [bin; "-"; path]])
                   (set_error false s5))))))).
  { intros line Hin.
    apply (script_of_trace _ (trace s5 ++ [ExportBrep geometry] ++ es)
             ([Spawn [bin; "-"; path]] ++ [FemRead mesh'; Print new_mesh_message])
             path text line); [|exact Hin].
    cbn [trace set_temp_file_mesh set_temp_file_geometry set_trace set_mesh_obj set_error].
    repeat (cbn [app]; rewrite <- ?app_assoc). reflexivity. }
  split; apply Htext; unfold text, geo_text, geo_sizes; rewrite !elem_of_app;
    do 5 right; left.
  - rewrite Hclmax. member.
  - rewrite <- Hset, no_used_layer, negb_involutive, Hclmin.
    destruct (existsb bl_used (MeshBoundaryLayerList (mesh_obj s))); member.
Qed.

Lemma characteristic_lengths_of_the_script_witness :
  let h := Demo.host (Some (0%Z, "", "")) in
  let s := snd (get_dimension (init Demo.box_mesh None)) in
  fst (create_mesh_after_dimension h s) = Ok "" /\
  ("Mesh.CharacteristicLengthMin = " +:+ "0" +:+ ";" +:+ LF)
  ∈ script (snd (create_mesh_after_dimension h s)).
Proof.
  cbv zeta.
  assert (Hfst : fst (create_mesh_after_dimension (Demo.host (Some (0%Z, "", "")))
                        (snd (get_dimension (init Demo.box_mesh None)))) = Ok "")
    by (vm_compute; reflexivity).
  split; [exact Hfst|].
  exact (proj2 (characteristic_lengths_of_the_script (Demo.host (Some (0%Z, "", "")))
                  (snd (get_dimension (init Demo.box_mesh None))) _ ""
                  (eq_trans (surjective_pairing _) (f_equal (fun r => (r, _)) Hfst)))).
Defined.

Lemma set_OutputFormat_back (format : string) (m : MeshObject) :
  set_OutputFormat (OutputFormat m) (set_OutputFormat format m) = m.
Proof. destruct m. reflexivity. Qed.

(** The body of [export_mesh] after the assignment of the output format. *)
Lemma export_mesh_body_reads_nothing (H : Host) (output_format : string)
    (output_filestring : option string) :
  respects (configuration_kept not_read)
    (get_dimension ;;;
     get_tmp_file_paths H ;;;
     get_gmsh_command H ;;;
     get_group_data H ;;;
     get_region_data H ;;;
     get_boundary_layer_data H ;;;
     write_part_file H ;;;
     write_geo H true ;;;
     error <- run_gmsh_with_geo H ;;
     if negb (String.eqb error "") then
       emit (Print ("Gmsh has error during mesh generation for " +:+ output_format)) ;;;
       ret None
     else
       output_filename <- getattr "temp_file_mesh" temp_file_mesh ;;
       emit (Print ("Gmsh has generated mesh format `" +:+ output_format
                    +:+ "` into file: " +:+ output_filename)) ;;;
       match output_filestring with
       | Some dst =>
           if String.eqb dst "" then ret (Some output_filename)
           else if shutil_move H output_filename dst
                then emit (Move output_filename dst) ;;; ret (Some dst)
                else raise (HostError "shutil.move")
       | None => ret (Some output_filename)
       end).
Proof.
  pose proof (fun s => configuration_kept_impl _ _ s _ is_print_not_read
                         (get_dimension_prints s)) as K0.
  pose proof (fun s => configuration_kept_impl _ _ s _ quiet_not_read
                         (get_tmp_file_paths_quiet H s)) as K1.
  pose proof (fun s => configuration_kept_impl _ _ s _ quiet_not_read
                         (get_gmsh_command_quiet H s)) as K2.
  pose proof (fun s => configuration_kept_impl _ _ s _ quiet_not_read
                         (get_group_data_quiet H s)) as K3.
  pose proof (fun s => configuration_kept_impl _ _ s _ quiet_not_read
                         (get_region_data_quiet H s)) as K4.
  pose proof (fun s => configuration_kept_impl _ _ s _ quiet_not_read
                         (get_boundary_layer_data_quiet H s)) as K5.
  apply (respects_bind _ (configuration_kept_trans _)); [exact K0|intros _].
  apply (respects_bind _ (configuration_kept_trans _)); [exact K1|intros _].
  apply (respects_bind _ (configuration_kept_trans _)); [exact K2|intros _].
  apply (respects_bind _ (configuration_kept_trans _)); [exact K3|intros _].
  apply (respects_bind _ (configuration_kept_trans _)); [exact K4|intros _].
  apply (respects_bind _ (configuration_kept_trans _)); [exact K5|intros _].
  apply (respects_bind _ (configuration_kept_trans _));
    [apply write_part_file_reads_nothing|intros _].
  apply (respects_bind _ (configuration_kept_trans _));
    [apply write_geo_reads_nothing|intros _].
  apply (respects_bind _ (configuration_kept_trans _));
    [apply run_gmsh_with_geo_reads_nothing|intros error].
  repeat frame_step not_read_event.
Qed.

(** X17.  [export_mesh] loads nothing: whatever it is given, and whether it
    returns or raises, the mesh object is left as it was, its output format
    and its mesh included, [Fem.read] is not called, and the lengths and the
    order of the instance are kept. *)
Theorem export_mesh_loads_nothing (H : Host) (output_format : string)
    (output_filestring : option string) (scaling : bool) (s : FemGmshTools) :
  let s' := snd (export_mesh H output_format output_filestring scaling s) in
  mesh_obj s' = mesh_obj s /\
  mesh_reads s' = mesh_reads s /\
  clmax s' = clmax s /\ clmin s' = clmin s /\ order s' = order s.
Proof.
  cbv zeta.
  destruct (export_mesh H output_format output_filestring scaling s) as [r s'] eqn:E.
  cbn [snd]. unfold export_mesh, bind at 1, get at 1, try_finally in E.
  unfold bind at 1, modify at 1 in E.
  match type of E with
  | context [bind get_dimension ?k ?s0] =>
      pose proof (export_mesh_body_reads_nothing H output_format output_filestring s0) as K;
      destruct (bind get_dimension k s0) as [r1 s1]
  end.
  cbn [snd] in K. unfold modify in E. injection E as _ <-.
  destruct K as (Hobj & _ & _ & Hclmax & Hclmin & _ & Horder & _ & _ & es & Ht & Hes).
  cbn [mesh_obj set_mesh_obj clmax clmin order trace] in *.
  split; [rewrite Hobj; apply set_OutputFormat_back|].
  split; [|repeat split; assumption].
  apply (mesh_reads_kept s _ es); [exact Ht|exact Hes].
Qed.

(** X18.  [export_mesh] that returns has written a script with the code of
    the format that was asked for and, whenever the unit schema is 0, with
    the scaling factor, whatever its [scaling] argument; it has started the
    binary on that script; it returns [None] when the process wrote to its
    standard error, else the path of the output file, or the target that it
    was given, if not empty, to which the file was moved. *)
Theorem export_mesh_result (H : Host) (output_format : string)
    (output_filestring : option string) (scaling : bool) (s s' : FemGmshTools)
    (output_filename : option string) :
  export_mesh H output_format output_filestring scaling s = (Ok output_filename, s') ->
  exists code bin path mesh text status output err,
    supported_mesh_output_formats !! output_format = Some code /\
    CloseGeo path text ∈ trace s' /\
    ("Mesh.Format = " +:+ str_int code +:+ ";" +:+ LF) ∈ text /\
    ("Save " +:+ DQ +:+ mesh +:+ DQ +:+ ";" +:+ LF) ∈ text /\
    (UserSchema H = 0%Z -> ("Mesh.ScalingFactor=0.001;" +:+ LF) ∈ text) /\
    Spawn [bin; "-"; path] ∈ trace s' /\
    run_process H [bin; "-"; path] = Some (status, output, err) /\
    (err <> "" -> output_filename = None) /\
    (err = "" ->
     match output_filestring with
     | None | Some "" => output_filename = Some mesh
     | Some dst =>
         output_filename = Some dst /\ shutil_move H mesh dst = true /\
         Move mesh dst ∈ trace s'
     end).
Proof.
  unfold export_mesh, bind at 1, get at 1, try_finally. intros Hrun.
  match type of Hrun with
  | context [bind ?m ?k ?s0] => destruct (bind m k s0) as [rb sb] eqn:Eb
  end.
  unfold modify in Hrun. injection Hrun as -> <-.
  cbn [trace set_mesh_obj].
  apply bind_ok in Eb as ([] & s0 & E0 & Eb).
  unfold modify in E0. injection E0 as <-.
  apply bind_ok in Eb as ([] & sd & Ed & Eb).
  pose proof (get_dimension_prints (set_mesh_obj (set_OutputFormat output_format (mesh_obj s)) s))
    as (Hobjd & _).
  rewrite Ed in Hobjd. cbn [snd mesh_obj set_mesh_obj] in Hobjd.
  apply mesh_stages_ok in Eb
    as (sr & s5 & before & geometry & es & path & lengths & groups & layers & code & bin
        & mesh & status & output & err & _ & _ & K5 & _ & _ & _ & Hpath & Hmesh & _
        & Hcode & _ & Hproc & Hk).
  destruct K5 as (Hobj & _).
  rewrite Hobj, Hobjd in Hcode. destruct (mesh_obj s); cbn in Hcode.
  set (text := geo_text H true s5 geometry path mesh bin code lengths groups layers) in *.
  set (sk := set_trace _ (set_error false s5)) in Hk.
  assert (Hclose : CloseGeo path text ∈ trace sk /\ Spawn [bin; "-"; path] ∈ trace sk).
  { unfold sk. cbn [trace set_trace]. split; member. }
  assert (Hgrow : exists more, trace sb = trace sk ++ more /\
    (err <> "" -> output_filename = None) /\
    (err = "" ->
     match output_filestring with
     | None | Some "" => output_filename = Some mesh
     | Some dst =>
         output_filename = Some dst /\ shutil_move H mesh dst = true /\
         Move mesh dst ∈ trace sb
     end)).
  { destruct (String.eqb_spec err "") as [->|Hne]; cbn [negb] in Hk.
    - unfold bind, getattr, emit, modify, ret, raise in Hk.
      assert (Hm : temp_file_mesh sk = Some mesh) by exact Hmesh.
      rewrite Hm in Hk.
      destruct output_filestring as [dst|].
      + destruct (String.eqb_spec dst "") as [->|Hdst].
        * injection Hk as <- <-. eexists. split; [reflexivity|].
          split; [congruence|]. intros _. reflexivity.
        * destruct (shutil_move H mesh dst) eqn:Emove; [|discriminate].
          injection Hk as <- <-. eexists. split; [cbn; rewrite <- app_assoc; reflexivity|].
          split; [congruence|]. intros _.
          destruct dst as [|c dst]; [contradiction|].
          split; [reflexivity|]. split; [reflexivity|].
          cbn [trace set_trace]. rewrite !elem_of_app. member.
      + injection Hk as <- <-. eexists. split; [reflexivity|].
        split; [congruence|]. intros _. reflexivity.
    - unfold bind, emit, modify, ret in Hk. injection Hk as <- <-.
      eexists. split; [reflexivity|]. split; [reflexivity|]. intros ?. contradiction. }
  destruct Hgrow as (more & Hmore & Herr & Hok). destruct Hclose as [Hclose Hspawn].
  exists code, bin, path, mesh, text, status, output, err.
  split; [exact Hcode|].
  split; [rewrite Hmore, elem_of_app; left; exact Hclose|].
  split; [unfold text, geo_text, geo_output; rewrite !elem_of_app; member|].
  split; [unfold text, geo_text, geo_output; rewrite !elem_of_app; member|].
  split.
  { intros Hschema. unfold text, geo_text, geo_scaling. rewrite Hschema.
    rewrite !elem_of_app. cbn. member. }
  split; [rewrite Hmore, elem_of_app; left; exact Hspawn|].
  split; [exact Hproc|]. split; [exact Herr|exact Hok].
Qed.

Lemma export_mesh_result_witness :
  let h := Demo.host (Some (0%Z, "", "")) in
  let s := init Demo.box_mesh None in
  fst (export_mesh h "Gmsh MSH" (Some "/out/box.msh") false s) = Ok (Some "/out/box.msh") /\
  exists path text,
    CloseGeo path text ∈ trace (snd (export_mesh h "Gmsh MSH" (Some "/out/box.msh") false s)) /\
    ("Mesh.Format = " +:+ "1" +:+ ";" +:+ LF) ∈ text /\
    ("Mesh.ScalingFactor=0.001;" +:+ LF) ∈ text.
Proof.
  cbv zeta.
  assert (Hfst : fst (export_mesh (Demo.host (Some (0%Z, "", ""))) "Gmsh MSH"
                        (Some "/out/box.msh") false (init Demo.box_mesh None))
                 = Ok (Some "/out/box.msh"))
    by (vm_compute; reflexivity).
  split; [exact Hfst|].
  destruct (export_mesh_result (Demo.host (Some (0%Z, "", ""))) "Gmsh MSH"
              (Some "/out/box.msh") false (init Demo.box_mesh None) _ _
              (eq_trans (surjective_pairing _) (f_equal (fun r => (r, _)) Hfst)))
    as (code & bin & path & mesh & text & status & output & err
        & Hcode & Hclose & Hformat & _ & Hscale & _).
  exists path, text. split; [exact Hclose|]. split; [|exact (Hscale eq_refl)].
  assert (code = 1%Z) as -> by (vm_compute in Hcode; congruence).
  exact Hformat.
Defined.

(** X19.  After [run_gmsh_with_geo], [self.error] is [False] in every case.
    With the binary and the script path set, a process that starts gives
    its standard error as the result, whatever its exit status; one that
    does not start gives [AttributeError] for [gmsh_command], and nothing is
    printed.  The method raises nothing but [AttributeError], for one of
    three attributes. *)
Theorem run_gmsh_with_geo_outcomes (H : Host) (s : FemGmshTools) :
  let r := fst (run_gmsh_with_geo H s) in
  let s' := snd (run_gmsh_with_geo H s) in
  error s' = false /\
  (forall e, r = Raise e -> exists name, e = AttributeError name /\ name ∈ run_attributes) /\
  (forall bin geo,
     gmsh_bin s = Some bin -> temp_file_geo s = Some geo ->
     match run_process H [bin; "-"; geo] with
     | Some (status, output, err) =>
         r = Ok err /\ trace s' = trace s ++ [Spawn [bin; "-"; geo]]
     | None => r = Raise (AttributeError "gmsh_command") /\ trace s' = trace s
     end).
Proof.
  cbv zeta.
  unfold run_gmsh_with_geo, run_attributes, bind, modify, getattr, try_except, emit, ret,
    raise.
  cbn [gmsh_bin temp_file_geo set_error].
  destruct (gmsh_bin s) as [bin|] eqn:Ebin;
    cbn [gmsh_bin temp_file_geo set_error fst snd error].
  2: { split; [reflexivity|]. split; [|discriminate].
       intros e [= <-]. eexists. split; [reflexivity|member]. }
  destruct (temp_file_geo s) as [geo|] eqn:Egeo; cbn [temp_file_geo set_error fst snd error].
  2: { split; [reflexivity|]. split; [|discriminate].
       intros e [= <-]. eexists. split; [reflexivity|member]. }
  destruct (run_process H [bin; "-"; geo]) as [[[status output] err]|] eqn:Eproc;
    cbn [fst snd error set_error set_trace trace].
  - split; [reflexivity|]. split; [discriminate|].
    intros ? ? [= <-] [= <-]. rewrite Eproc. split; reflexivity.
  - split; [reflexivity|]. split.
    + intros e [= <-]. eexists. split; [reflexivity|member].
    + intros ? ? [= <-] [= <-]. rewrite Eproc. split; reflexivity.
Qed.


